(** * Dobot TCP/IP demo: telemetry feed, motion dispatch and EPick gripper protocol

    Shallow embedding of the state-synchronisation and device-protocol core of
    [DobotDemo.py], [replay_trajectory.py], [ui.py], [ui_epick.py] and
    [ui_epick_control.py], followed by the properties proved about it.

    Python strings are [string]s whose characters are code points below 256;
    Python integers are [Z]; an operation that may raise returns [option]
    ([None] is the raised [ValueError] or [IndexError]). *)

From Stdlib Require Import ZArith List String Ascii Bool Lia.
Import ListNotations.

Local Open Scope list_scope.
Local Open Scope string_scope.
Local Open Scope Z_scope.

(* ================================================================== *)
(** * Python built-ins used by the sources *)
(* ================================================================== *)

Module Py.

(** Code point of a character. *)
Definition ord (c : ascii) : Z := Z.of_N (N_of_ascii c).

(** [_PyLong_DigitValue]: value of a character as a digit, 37 when it is
    none. *)
Definition digit_value (c : ascii) : Z :=
  let n := ord c in
  if (48 <=? n) && (n <=? 57) then n - 48
  else if (97 <=? n) && (n <=? 122) then n - 87
  else if (65 <=? n) && (n <=? 90) then n - 55
  else 37.

(** Characters that [int] skips around a literal: the ASCII white space of
    [Py_ISSPACE], and the two Latin-1 spaces that are turned into a blank
    before parsing. *)
Definition is_space (c : ascii) : bool :=
  let n := ord c in
  ((9 <=? n) && (n <=? 13)) || (n =? 32) || (n =? 133) || (n =? 160).

(** [\d] on code points below 256. *)
Definition is_digit (c : ascii) : bool :=
  let n := ord c in (48 <=? n) && (n <=? 57).

Fixpoint skip_space (s : string) : string :=
  match s with
  | String c r => if is_space c then skip_space r else s
  | EmptyString => s
  end.

(** The digit loop of [int(s, base)]: digits below [base] with single
    underscores between them.  Returns the value read, the number of digits
    and the unread rest; [None] on a doubled or trailing underscore. *)
Fixpoint scan_digits (base : Z) (prev_us : bool) (acc : Z) (n : nat)
         (s : string) : option (Z * nat * string) :=
  match s with
  | String c r =>
      if Ascii.eqb c "_" then
        if prev_us then None else scan_digits base true acc n r
      else if digit_value c <? base then
        scan_digits base false (acc * base + digit_value c) (S n) r
      else if prev_us then None else Some (acc, n, s)
  | EmptyString => if prev_us then None else Some (acc, n, s)
  end.

(** Letter of the optional radix prefix accepted for [base]. *)
Definition prefix_letter (base : Z) (c : ascii) : bool :=
  ((base =? 2) && (Ascii.eqb c "b" || Ascii.eqb c "B")) ||
  ((base =? 8) && (Ascii.eqb c "o" || Ascii.eqb c "O")) ||
  ((base =? 16) && (Ascii.eqb c "x" || Ascii.eqb c "X")).

Definition skip_sign (s : string) : bool * string :=
  match s with
  | String "+" r => (false, r)
  | String "-" r => (true, r)
  | _ => (false, s)
  end.

Definition skip_prefix (base : Z) (s : string) : string :=
  match s with
  | String "0" (String c r) =>
      if prefix_letter base c then
        match r with
        | String "_" r' => r'
        | _ => r
        end
      else s
  | _ => s
  end.

(** [int(s, base)] for an explicit base: leading space, sign, radix prefix,
    digits, trailing space, end of text.  [None] is [ValueError].  (The
    interpreter's configurable limit on the length of decimal literals is
    not part of the model.) *)
Definition int (s : string) (base : Z) : option Z :=
  let (neg, s2) := skip_sign (skip_space s) in
  match skip_prefix base s2 with
  | String "_" _ => None
  | s3 =>
      match scan_digits base false 0 0 s3 with
      | Some (v, n, rest) =>
          match n, skip_space rest with
          | S _, EmptyString => Some (if neg then - v else v)
          | _, _ => None
          end
      | None => None
      end
  end.

(** Digit characters of the built-in renderings. *)
Definition digit_char (d : Z) : ascii :=
  match String.get (Z.to_nat d) "0123456789abcdefghijklmnopqrstuvwxyz" with
  | Some c => c
  | None => "?"%char
  end.

(** Digits of a non-negative [n] in [base], most significant first, in
    front of [acc]. *)
Fixpoint to_digits (base : Z) (fuel : nat) (n : Z) (acc : string) : string :=
  match fuel with
  | O => acc
  | S f =>
      let acc' := String (digit_char (n mod base)) acc in
      if n / base =? 0 then acc' else to_digits base f (n / base) acc'
  end.

Definition digits (base : Z) (n : Z) : string :=
  to_digits base (S (Z.to_nat (Z.log2 n))) n "".

(** Sign, radix prefix and magnitude: the common shape of [bin], [hex] and
    [str] on integers. *)
Definition render (prefix : string) (base : Z) (n : Z) : string :=
  (if n <? 0 then "-" else "") ++ prefix ++ digits base (Z.abs n).

Definition bin (n : Z) : string := render "0b" 2 n.
Definition hex (n : Z) : string := render "0x" 16 n.
Definition str (n : Z) : string := render "" 10 n.

(** The slice [s[k:]]. *)
Fixpoint drop (k : nat) (s : string) : string :=
  match k, s with
  | S k', String _ r => drop k' r
  | _, _ => s
  end.

Fixpoint zeros (k : nat) : string :=
  match k with
  | O => ""
  | S k' => String "0" (zeros k')
  end.

(** [s.zfill(width)]. *)
Definition zfill (s : string) (width : nat) : string :=
  if (width <=? String.length s)%nat then s
  else
    let pad := zeros (width - String.length s) in
    match s with
    | String "+" r => String "+" (pad ++ r)
    | String "-" r => String "-" (pad ++ r)
    | _ => pad ++ s
    end.

(** [sub in s]. *)
Fixpoint contains (sub s : string) : bool :=
  String.prefix sub s ||
  match s with
  | String _ r => contains sub r
  | EmptyString => false
  end.

(** [sep.join(l)]. *)
Definition join (sep : string) (l : list string) : string :=
  String.concat sep l.

(** Longest run of digits at the head of [s], and what follows it. *)
Fixpoint span_digits (s : string) : string * string :=
  match s with
  | String c r =>
      if is_digit c then
        let (d, rest) := span_digits r in (String c d, rest)
      else ("", s)
  | EmptyString => ("", "")
  end.

(** A match of the pattern [-?\d+] at the head of [s]: the matched text and
    the rest.  The optional sign and the digits are greedy; a sign that no
    digit follows matches nothing. *)
Definition match_int (s : string) : option (string * string) :=
  match s with
  | String "-" r =>
      match span_digits r with
      | (EmptyString, _) => None
      | (d, rest) => Some (String "-" d, rest)
      end
  | _ =>
      match span_digits s with
      | (EmptyString, _) => None
      | (d, rest) => Some (d, rest)
      end
  end.

(** [re.findall(r'-?\d+', s)]: leftmost matches, none overlapping; the search
    resumes behind a match, and one character further where none starts. *)
Fixpoint findall_from (fuel : nat) (s : string) : list string :=
  match fuel with
  | O => []
  | S f =>
      match match_int s with
      | Some (tok, rest) => tok :: findall_from f rest
      | None =>
          match s with
          | String _ r => findall_from f r
          | EmptyString => []
          end
      end
  end.

Definition findall_int (s : string) : list string :=
  findall_from (S (String.length s)) s.

(** [re.search(r'-?\d+', s)]: the first match, if any. *)
Fixpoint search_int (s : string) : option string :=
  match match_int s with
  | Some (tok, _) => Some tok
  | None =>
      match s with
      | String _ r => search_int r
      | EmptyString => None
      end
  end.

(** A list comprehension whose element expression may raise. *)
Fixpoint traverse {A B : Type} (f : A -> option B) (l : list A)
  : option (list B) :=
  match l with
  | [] => Some []
  | x :: l' =>
      match f x, traverse f l' with
      | Some y, Some ys => Some (y :: ys)
      | _, _ => None
      end
  end.

End Py.


(* ================================================================== *)
(** * DobotDemo.py: telemetry feed and motion dispatch *)
(* ================================================================== *)

(** One decoded telemetry frame, with the fields the sources read
    ([feedBackData] and [np.frombuffer] decode it from 1440 bytes; the
    layout [MyType] belongs to the vendor API).  [float] stands for the
    IEEE double payloads, which are only copied. *)
Module Frame.
Record t (float : Type) : Type := mk {
  len : Z;
  TestValue : Z;
  RobotMode : Z;
  CurrentCommandId : Z;
  DigitalInputs : Z;
  DigitalOutputs : Z;
  SpeedScaling : float;
  QActual : list float;
  ToolVectorActual : list float
}.
Arguments mk {float}.
Arguments len {float}.
Arguments TestValue {float}.
Arguments RobotMode {float}.
Arguments CurrentCommandId {float}.
Arguments DigitalInputs {float}.
Arguments DigitalOutputs {float}.
Arguments SpeedScaling {float}.
Arguments QActual {float}.
Arguments ToolVectorActual {float}.
End Frame.

(** The sentinel of a valid frame, [0x0123456789ABCDEF]. *)
Definition MAGIC : Z := 81985529216486895.

Module DobotDemo.

(** The inner class [item]: the published snapshot [feedData]. *)
Record item : Type := mk_item {
  robotMode : Z;
  robotCurrentCommandID : Z;
  MessageSize : Z;
  DigitalInputs : Z;
  DigitalOutputs : Z
}.

(** [item.__init__]. *)
Definition item_init : item :=
  {| robotMode := -1; robotCurrentCommandID := -1; MessageSize := -1;
     DigitalInputs := -1; DigitalOutputs := -1 |}.

(** One pass of the body of [GetFeed]'s loop on what [feedBackData]
    returned ([None] when it returned nothing). *)
Definition GetFeed_step {float : Type} (feedData : item)
           (feedInfo : option (Frame.t float)) : item :=
  match feedInfo with
  | None => feedData
  | Some f =>
      if String.eqb (Py.hex (Frame.TestValue f)) "0x123456789abcdef" then
        {| MessageSize := Frame.len f;
           robotMode := Frame.RobotMode f;
           DigitalInputs := Frame.DigitalInputs f;
           DigitalOutputs := Frame.DigitalOutputs f;
           robotCurrentCommandID := Frame.CurrentCommandId f |}
      else feedData
  end.

(** [GetFeed] after it has consumed the given frames, in order. *)
Fixpoint GetFeed {float : Type} (frames : list (option (Frame.t float)))
         (feedData : item) : item :=
  match frames with
  | [] => feedData
  | f :: rest => GetFeed rest (GetFeed_step feedData f)
  end.

(** [parseResultId]. *)
Definition parseResultId (valueRecv : string) : option (list Z) :=
  if Py.contains "Not Tcp" valueRecv then Some [1]
  else
    match Py.traverse (fun num => Py.int num 10) (Py.findall_int valueRecv) with
    | Some [] => Some [2]
    | r => r
    end.

(** The test of the completion loop. *)
Definition motion_finished (feedData : item) (currentCommandID : Z) : bool :=
  (robotMode feedData =? 5) &&
  (robotCurrentCommandID feedData =? currentCommandID).

(** The completion loop of [RunPoint]: [feed k] is [feedData] as the
    [k]-th pass reads it.  [Some k] when the loop breaks in pass [k];
    [None] when it is still polling after [fuel] passes. *)
Fixpoint await (fuel : nat) (feed : nat -> item) (k : nat)
         (currentCommandID : Z) : option nat :=
  match fuel with
  | O => None
  | S f =>
      if motion_finished (feed k) currentCommandID then Some k
      else await f feed (S k) currentCommandID
  end.

(** Commands [RunPoint] sends on the control channel. *)
Inductive Cmd (pose : Type) : Type :=
| MovJ (point : pose) (mode : Z)
| Stop.
Arguments MovJ {pose}.
Arguments Stop {pose}.

(** How a call of [RunPoint] stands after [fuel] passes of its loop. *)
Inductive Outcome : Type :=
| Returned (pass : nat)          (* "motion finished", the loop broke *)
| Polling (currentCommandID : Z) (* inside the completion loop *)
| Raised_IndexError              (* [parseResultId(...)[1]] out of range *)
| Raised_ValueError.

(** [RunPoint]: the commands sent, and the outcome.  [dashboard] is the
    controller answering a command. *)
Definition RunPoint {pose : Type} (dashboard : Cmd pose -> string)
           (feed : nat -> item) (fuel : nat) (point_list : pose)
  : list (Cmd pose) * Outcome :=
  let recvmovemess := dashboard (MovJ point_list 0) in
  ([MovJ point_list 0],
   match parseResultId recvmovemess with
   | None => Raised_ValueError
   | Some ids =>
       match nth_error ids 1 with
       | None => Raised_IndexError
       | Some currentCommandID =>
           match await fuel feed 0 currentCommandID with
           | Some k => Returned k
           | None => Polling currentCommandID
           end
       end
   end).

End DobotDemo.

(* ================================================================== *)
(** * ui.py and ui_epick.py: the feedback thread of the window *)
(* ================================================================== *)

Module RobotUI.

Definition LABEL_ROBOT_MODE (mode : Z) : option string :=
  match mode with
  | 1 => Some "ROBOT_MODE_INIT"
  | 2 => Some "ROBOT_MODE_BRAKE_OPEN"
  | 3 => Some ""
  | 4 => Some "ROBOT_MODE_DISABLED"
  | 5 => Some "ROBOT_MODE_ENABLE"
  | 6 => Some "ROBOT_MODE_DRAGE"
  | 7 => Some "ROBOT_MODE_RUNNING"
  | 8 => Some "ROBOT_MODE_RECORDING"
  | 9 => Some "ROBOT_MODE_ERROR"
  | 10 => Some "ROBOT_MODE_PAUSE"
  | 11 => Some "ROBOT_MODE_JOG"
  | _ => None
  end.

(** [s.rjust(width, '0')]. *)
Definition rjust0 (s : string) (width : nat) : string :=
  Py.zeros (width - String.length s) ++ s.

(** What the feedback thread publishes: the texts of the feedback labels
    (the lines it also prints to the log box are console output and are
    left out). *)
Record Labels (float : Type) : Type := mk_labels {
  label_feed_speed : option float;
  label_robot_mode : string;
  label_di_input : string;
  label_di_output : string;
  label_feed_joint : list float;
  label_feed_coord : list float
}.
Arguments mk_labels {float}.
Arguments label_feed_speed {float}.
Arguments label_robot_mode {float}.
Arguments label_di_input {float}.
Arguments label_di_output {float}.
Arguments label_feed_joint {float}.
Arguments label_feed_coord {float}.

(** What one [recv] of the loop yields once cut to 1440 bytes: a frame that
    decodes, or fewer bytes than a frame. *)
Inductive Received (float : Type) : Type :=
| Decoded (a : Frame.t float)
| Short.
Arguments Decoded {float}.
Arguments Short {float}.

Section Feedback.
Context {float : Type}.
(** [np.around(., decimals=4)] on one value. *)
Variable around4 : float -> float.
(** [display_error_info], the alarm plumbing of the window. *)
Variable display_error_info : Labels float -> Labels float.

(** [set_feed_joint]: the six rounded values of a row. *)
Definition set_feed_joint (value : list float) : list float :=
  firstn 6 (map around4 value).

(** The branch taken on a frame whose sentinel matches.  The second
    component is [false] when the mode lookup raises [KeyError], which
    leaves the speed label already rewritten. *)
Definition refresh (ui : Labels float) (a : Frame.t float)
  : Labels float * bool :=
  let ui1 := mk_labels (Some (Frame.SpeedScaling a)) (label_robot_mode ui)
               (label_di_input ui) (label_di_output ui)
               (label_feed_joint ui) (label_feed_coord ui) in
  match LABEL_ROBOT_MODE (Frame.RobotMode a) with
  | None => (ui1, false)
  | Some mode_text =>
      let ui2 :=
        mk_labels (Some (Frame.SpeedScaling a)) mode_text
          (rjust0 (Py.drop 2 (Py.bin (Frame.DigitalInputs a))) 64)
          (rjust0 (Py.drop 2 (Py.bin (Frame.DigitalOutputs a))) 64)
          (set_feed_joint (Frame.QActual a))
          (set_feed_joint (Frame.ToolVectorActual a)) in
      (if Frame.RobotMode a =? 9 then display_error_info ui2 else ui2, true)
  end.

(** One pass of the loop body of [feed_back] in [ui.py] behind the
    connection test: the labels afterwards, and whether the thread
    survives (nothing catches an exception there). *)
Definition feed_back_step (ui : Labels float) (r : Received float)
  : Labels float * bool :=
  match r with
  | Short => (ui, false)
  | Decoded a =>
      if String.eqb (Py.hex (Frame.TestValue a)) "0x123456789abcdef"
      then refresh ui a
      else (ui, true)
  end.

(** [feed_back] of [ui.py] over the reads of the socket, each paired
    with the connection flag seen at the top of its pass. *)
Fixpoint feed_back (reads : list (bool * Received float))
         (ui : Labels float) : Labels float :=
  match reads with
  | [] => ui
  | (connect, r) :: rest =>
      if connect then
        let (ui', alive) := feed_back_step ui r in
        if alive then feed_back rest ui' else ui'
      else ui
  end.

(** The same loop in [ui_epick.py]: a short read is skipped, and an
    exception in the body is caught and the loop goes on. *)
Definition feed_back_step_epick (ui : Labels float) (r : Received float)
  : Labels float :=
  match r with
  | Short => ui
  | Decoded a =>
      if String.eqb (Py.hex (Frame.TestValue a)) "0x123456789abcdef"
      then fst (refresh ui a)
      else ui
  end.

Fixpoint feed_back_epick (reads : list (bool * Received float))
         (ui : Labels float) : Labels float :=
  match reads with
  | [] => ui
  | (connect, r) :: rest =>
      if connect then feed_back_epick rest (feed_back_step_epick ui r)
      else ui
  end.

End Feedback.

End RobotUI.

(* ================================================================== *)
(** * replay_trajectory.py: trajectory replay *)
(* ================================================================== *)

Module Replay.

Definition VELL_RATIO : Z := 20.
Definition BLEND_R_MM : Z := 2.
Definition CP_RATIO : Z := 0.
Definition STEP : nat := 2.

(** [_parse_result_code]: the first integer of the reply, 0 when it has
    none. *)
Definition _parse_result_code (reply : string) : option Z :=
  match Py.search_int reply with
  | Some m => Py.int m 10
  | None => Some 0
  end.

(** The blend parameter of [MovL]: the radius takes priority over the
    ratio. *)
Inductive Blend : Type :=
| blend_r (r : Z)
| blend_cp (cp : Z)
| blend_none.

Definition params : Blend :=
  if 0 <? BLEND_R_MM then blend_r BLEND_R_MM
  else if 0 <? CP_RATIO then blend_cp CP_RATIO
  else blend_none.

(** Calls [main] makes on the control channel. *)
Inductive Cmd (pose : Type) : Type :=
| EnableRobot
| VelL (ratio : Z)
| MovL (p : pose) (mode : Z) (blend : Blend)
| Stop
| close.
Arguments EnableRobot {pose}.
Arguments VelL {pose}.
Arguments MovL {pose}.
Arguments Stop {pose}.
Arguments close {pose}.

Section Main.
Context {pose : Type}.
(** The controller: its reply to a call, given the calls before it. *)
Variable dashboard : list (Cmd pose) -> Cmd pose -> string.

(** The sending loop [for idx in range(0, len(poses), STEP)]: the calls
    made so far are [sent]; the result is all calls and whether a
    [RuntimeError] (or a [ValueError] of the parse) ended the loop. *)
Fixpoint send_from (passes : nat) (idx : nat) (poses : list pose)
         (sent : list (Cmd pose)) : list (Cmd pose) * bool :=
  match passes with
  | O => (sent, false)
  | S n =>
      match nth_error poses idx with
      | None => (sent, false)
      | Some p =>
          let call := MovL p 0 params in
          let reply := dashboard sent call in
          let sent1 := (sent ++ [call])%list in
          match _parse_result_code reply with
          | None => (sent1, true)
          | Some code =>
              if code <? 0 then ((sent1 ++ [Stop])%list, true)
              else send_from n (idx + STEP)%nat poses sent1
          end
      end
  end.

(** [main] from the connection on: the calls made, and the exit code. *)
Definition main (poses : list pose) : list (Cmd pose) * Z :=
  let sent0 := [EnableRobot; VelL VELL_RATIO] in
  let (sent, failed) := send_from (List.length poses) 0 poses sent0 in
  ((sent ++ [close])%list, if failed then 1 else 0).

End Main.

End Replay.

(* ================================================================== *)
(** * ui_epick.py: the Robotiq EPick gripper protocol *)
(* ================================================================== *)

Module Epick.

Definition ROBOTIQ_EPICK_DEFAULT_BAUDRATE : Z := 115200.
Definition ROBORIQ_EPICK_WRITE_ADDRESS : Z := 1000.  (* 0x03E8 *)
Definition RELEASE_VACUUM : Z := 255.

Definition binaryStringToDecimal (binaryStr : string) : option Z :=
  Py.int binaryStr 2.

Definition decimalToBinaryString (num : Z) (length : nat) : string :=
  Py.zfill (Py.drop 2 (Py.bin num)) length.

(** The command builders of [CMD_HANDLER]; the default [length=8] of
    [decimalToBinaryString] is written out. *)
Module CMD_HANDLER.
Definition ACTION (x : list string) : option Z :=
  binaryStringToDecimal (Py.join "" x ++ "00000000").
Definition MAX_VACUUM (x : Z) : option Z :=
  binaryStringToDecimal ("00000000" ++ decimalToBinaryString x 8).
Definition MIN_VACUUM (x : Z) : string := decimalToBinaryString x 8.
Definition TIMEOUT (x : Z) : string := decimalToBinaryString x 8.
End CMD_HANDLER.

(** The flag table [ACTION_CMD]. *)
Module ACTION_CMD.
Module ACT.
Definition CLEAR_FAULT_STATUS : string := "0".
Definition ENABLE : string := "1".
End ACT.
Module MOD.
Definition AUTO : string := "00".
Definition ADVANCED : string := "01".
End MOD.
Module GTO.
Definition HOLD : string := "0".
Definition CONTROLED : string := "1".
End GTO.
Module ATR.
Definition NORMAL : string := "0".
Definition RELEASE_WITH_NO_TIMEOUT : string := "1".
End ATR.
End ACTION_CMD.

(** [math.ceil(timeout / 100)].  The quotient is a double; for
    [|timeout| < 2^53] it lies within 2^-7 of the exact quotient, never
    across an integer, so the ceiling is the exact one. *)
Definition ceil_div_100 (timeout : Z) : Z := - ((- timeout) / 100).

(** Calls of the gripper on the shared dashboard connection. *)
Inductive DashCall : Type :=
| SetTool485 (baud : Z) (parity : string) (stop : Z)
| SetHoldRegs (index : option Z) (addr : Z) (count : Z) (valTab : string)
| ModbusCreate (ip : string) (port slave_id isRTU : Z)
| ModbusClose (index : Z).

Inductive exn : Type := ValueError | RuntimeError.

(** Methods of [RobotiqEpick] as trees of the effects they perform on the
    object, its lock and the connection; sleeps are in milliseconds. *)
Inductive Prog (A : Type) : Type :=
| Ret (a : A)
| Raise (e : exn)
| Dash (c : DashCall) (k : string -> Prog A)
| Sleep (ms : Z) (k : Prog A)
| Acquire (k : Prog A)               (* entering [with self.write_lock] *)
| Release (k : Prog A)               (* leaving it *)
| GetModbusIndex (k : option Z -> Prog A)
| SetModbusIndex (index : option Z) (k : Prog A).
Arguments Ret {A}.
Arguments Raise {A}.
Arguments Dash {A}.
Arguments Sleep {A}.
Arguments Acquire {A}.
Arguments Release {A}.
Arguments GetModbusIndex {A}.
Arguments SetModbusIndex {A}.

Fixpoint bind {A B : Type} (p : Prog A) (f : A -> Prog B) : Prog B :=
  match p with
  | Ret a => f a
  | Raise e => Raise e
  | Dash c k => Dash c (fun r => bind (k r) f)
  | Sleep ms k => Sleep ms (bind k f)
  | Acquire k => Acquire (bind k f)
  | Release k => Release (bind k f)
  | GetModbusIndex k => GetModbusIndex (fun i => bind (k i) f)
  | SetModbusIndex i k => SetModbusIndex i (bind k f)
  end.

(** A pure computation that may raise [ValueError]. *)
Definition lift {A : Type} (o : option A) : Prog A :=
  match o with
  | Some a => Ret a
  | None => Raise ValueError
  end.

Declare Scope prog_scope.
Delimit Scope prog_scope with prog.
Notation "x <- p ;; q" := (bind p (fun x => q))
  (at level 61, p at next level, right associativity) : prog_scope.
Notation "p ;; q" := (bind p (fun _ => q))
  (at level 61, right associativity) : prog_scope.
Local Open Scope prog_scope.

Definition create_modbus_channel : Prog (Z * Z) :=
  Dash (ModbusCreate "127.0.0.1" 60000 9 1) (fun response =>
  numbers <- lift (Py.traverse (fun item => Py.int item 10)
                               (Py.findall_int response)) ;;
  let error_id := match numbers with n :: _ => n | [] => 0 end in
  match numbers with
  | _ :: modbus_index :: _ =>
      SetModbusIndex (Some modbus_index) (Ret (error_id, modbus_index))
  | _ => Ret (error_id, -1)
  end).

Definition close_modbus_channel : Prog string :=
  GetModbusIndex (fun index =>
    match index with
    | None => Ret "Modbus Not Connected"
    | Some i =>
        Dash (ModbusClose i) (fun result =>
        SetModbusIndex None (Ret result))
    end).

Definition write_by_485 (address : Z) (datas : list Z) : Prog string :=
  GetModbusIndex (fun index0 =>
    match index0 with
    | None => Ret "Error: No Modbus Index"
    | Some _ =>
        Acquire (
        Dash (SetTool485 115200 "N" 1) (fun _ =>
        Sleep 10 (
        let value_str := Py.join "," (map Py.str datas) in
        let val_tab := "{" ++ value_str ++ "}" in
        GetModbusIndex (fun index =>
        Dash (SetHoldRegs index address (Z.of_nat (List.length datas)) val_tab)
             (fun result =>
        Sleep 500 (
        Release (
        Ret result)))))))
    end).

Import ACTION_CMD.

Definition init : Prog string :=
  cmd <- lift (CMD_HANDLER.ACTION
                 [ATR.NORMAL; GTO.HOLD; MOD.ADVANCED; ACT.CLEAR_FAULT_STATUS]) ;;
  _maxVacuum <- lift (CMD_HANDLER.MAX_VACUUM RELEASE_VACUUM) ;;
  write_by_485 ROBORIQ_EPICK_WRITE_ADDRESS [cmd; _maxVacuum] ;;
  resetCMD <- lift (CMD_HANDLER.ACTION
                      [ATR.NORMAL; GTO.HOLD; MOD.ADVANCED; ACT.ENABLE]) ;;
  write_by_485 ROBORIQ_EPICK_WRITE_ADDRESS [resetCMD; _maxVacuum].

Definition grip (max_v min_v timeout : Z) : Prog string :=
  resetCMD <- lift (CMD_HANDLER.ACTION
                      [ATR.NORMAL; GTO.HOLD; MOD.ADVANCED; ACT.CLEAR_FAULT_STATUS]) ;;
  write_by_485 ROBORIQ_EPICK_WRITE_ADDRESS [resetCMD] ;;
  _maxVacuum <- lift (CMD_HANDLER.MAX_VACUUM (100 - max_v)) ;;
  timeoutAndMin <- lift (binaryStringToDecimal
                           (CMD_HANDLER.TIMEOUT (ceil_div_100 timeout)
                            ++ CMD_HANDLER.MIN_VACUUM (100 - min_v))) ;;
  cmd_enable <- lift (CMD_HANDLER.ACTION
                        [ATR.NORMAL; GTO.HOLD; MOD.ADVANCED; ACT.ENABLE]) ;;
  write_by_485 ROBORIQ_EPICK_WRITE_ADDRESS [cmd_enable] ;;
  write_by_485 (ROBORIQ_EPICK_WRITE_ADDRESS + 1) [_maxVacuum; timeoutAndMin] ;;
  gripCMD <- lift (CMD_HANDLER.ACTION
                     [ATR.NORMAL; GTO.CONTROLED; MOD.ADVANCED; ACT.ENABLE]) ;;
  write_by_485 ROBORIQ_EPICK_WRITE_ADDRESS [gripCMD].

Definition release : Prog string :=
  resetCMD <- lift (CMD_HANDLER.ACTION
                      [ATR.NORMAL; GTO.HOLD; MOD.ADVANCED; ACT.CLEAR_FAULT_STATUS]) ;;
  write_by_485 ROBORIQ_EPICK_WRITE_ADDRESS [resetCMD] ;;
  cmd <- lift (CMD_HANDLER.ACTION
                 [ATR.NORMAL; GTO.CONTROLED; MOD.ADVANCED; ACT.ENABLE]) ;;
  _maxVacuum <- lift (CMD_HANDLER.MAX_VACUUM RELEASE_VACUUM) ;;
  write_by_485 ROBORIQ_EPICK_WRITE_ADDRESS [cmd; _maxVacuum] ;;
  Sleep 1000 (
  holdCMD <- lift (CMD_HANDLER.ACTION
                     [ATR.NORMAL; GTO.HOLD; MOD.ADVANCED; ACT.ENABLE]) ;;
  write_by_485 ROBORIQ_EPICK_WRITE_ADDRESS [holdCMD]).

(** ** Running the methods *)

Inductive Event : Type :=
| EvDash (c : DashCall)
| EvSleep (ms : Z)
| EvAcquire
| EvRelease.

(** The gripper object as the threads share it: the session identifier,
    the holder of [write_lock], and what each thread did, oldest first. *)
Record State : Type := mk_state {
  ModbusIndex : option Z;
  write_lock : option nat;
  log : list (nat * Event)
}.

Definition record (st : State) (tid : nat) (e : Event) : State :=
  mk_state (ModbusIndex st) (write_lock st) (log st ++ [(tid, e)])%list.

Definition set_lock (st : State) (holder : option nat) : State :=
  mk_state (ModbusIndex st) holder (log st).

Definition set_index (st : State) (index : option Z) : State :=
  mk_state index (write_lock st) (log st).

(** The calls that reached the connection, oldest first. *)
Fixpoint calls (l : list (nat * Event)) : list DashCall :=
  match l with
  | [] => []
  | (_, EvDash c) :: l' => c :: calls l'
  | _ :: l' => calls l'
  end.

(** The register writes among them: address, count and value table. *)
Fixpoint hold_regs (l : list DashCall) : list (Z * Z * string) :=
  match l with
  | [] => []
  | SetHoldRegs _ addr count valTab :: l' => (addr, count, valTab) :: hold_regs l'
  | _ :: l' => hold_regs l'
  end.

Inductive Result (A : Type) : Type :=
| Value (a : A)
| Exception (e : exn)
| Blocked.
Arguments Value {A}.
Arguments Exception {A}.
Arguments Blocked {A}.

Section Semantics.
(** The controller: its reply to a call, given the calls before it. *)
Variable dashboard : list DashCall -> DashCall -> string.

(** One effect of thread [tid] running [p]: what is left to run, and the
    object afterwards.  [None] when [p] is over, or waits for the lock. *)
Definition head_step {A : Type} (tid : nat) (p : Prog A) (st : State)
  : option (Prog A * State) :=
  match p with
  | Ret _ | Raise _ => None
  | Dash c k =>
      Some (k (dashboard (calls (log st)) c), record st tid (EvDash c))
  | Sleep ms k => Some (k, record st tid (EvSleep ms))
  | Acquire k =>
      match write_lock st with
      | None => Some (k, record (set_lock st (Some tid)) tid EvAcquire)
      | Some _ => None
      end
  | Release k =>
      match write_lock st with
      | Some _ => Some (k, record (set_lock st None) tid EvRelease)
      | None => Some (Raise RuntimeError, st)
      end
  | GetModbusIndex k => Some (k (ModbusIndex st), st)
  | SetModbusIndex i k => Some (k, set_index st i)
  end.

(** A method run to its end by one thread, nothing else running. *)
Fixpoint run {A : Type} (tid : nat) (p : Prog A) (st : State)
  : Result A * State :=
  match p with
  | Ret a => (Value a, st)
  | Raise e => (Exception e, st)
  | Dash c k =>
      run tid (k (dashboard (calls (log st)) c)) (record st tid (EvDash c))
  | Sleep ms k => run tid k (record st tid (EvSleep ms))
  | Acquire k =>
      match write_lock st with
      | None => run tid k (record (set_lock st (Some tid)) tid EvAcquire)
      | Some _ => (Blocked, st)
      end
  | Release k =>
      match write_lock st with
      | Some _ => run tid k (record (set_lock st None) tid EvRelease)
      | None => (Exception RuntimeError, st)
      end
  | GetModbusIndex k => run tid (k (ModbusIndex st)) st
  | SetModbusIndex i k => run tid k (set_index st i)
  end.

(** Threads calling methods of one gripper object. *)
Definition Pool : Type := nat -> Prog string.

Definition update (pool : Pool) (tid : nat) (p : Prog string) : Pool :=
  fun t => if Nat.eqb t tid then p else pool t.

(** The scheduler lets thread [tid] perform one effect, if it can. *)
Definition step (tid : nat) (cfg : Pool * State) : Pool * State :=
  match head_step tid (fst cfg tid) (snd cfg) with
  | Some (p', st') => (update (fst cfg) tid p', st')
  | None => cfg
  end.

Fixpoint run_schedule (sched : list nat) (cfg : Pool * State)
  : Pool * State :=
  match sched with
  | [] => cfg
  | tid :: rest => run_schedule rest (step tid cfg)
  end.

End Semantics.

(** Two threads, one calling [grip] and one [release], on a fresh lock. *)
Definition grip_and_release (max_v min_v timeout : Z) (index : option Z)
  : Pool * State :=
  (fun t => match t with
            | O => grip max_v min_v timeout
            | 1%nat => release
            | _ => Ret ""
            end,
   mk_state index None []).

(** ** What the transport sees *)

Definition is_write (c : DashCall) : bool :=
  match c with
  | SetHoldRegs _ _ _ _ => true
  | _ => false
  end.





End Epick.

(* ================================================================== *)
(** * Notions the properties are stated with *)
(* ================================================================== *)

Module Spec.

(** Every character of [s] satisfies [p]. *)
Fixpoint all_chars (p : ascii -> bool) (s : string) : bool :=
  match s with
  | String c r => p c && all_chars p r
  | EmptyString => true
  end.

Definition is_bit (c : ascii) : bool := Ascii.eqb c "0" || Ascii.eqb c "1".

(** A text of binary digits. *)
Definition is_bits (s : string) : bool := all_chars is_bit s.

(** The number a text of digits denotes in [base], most significant digit
    first, continuing from [acc]. *)
Fixpoint value_from (base : Z) (acc : Z) (s : string) : Z :=
  match s with
  | String c r => value_from base (acc * base + Py.digit_value c) r
  | EmptyString => acc
  end.

Definition binary_value (s : string) : Z := value_from 2 0 s.
Definition decimal_value (s : string) : Z := value_from 10 0 s.

(** Texts over the characters that [bin(...)[2:].zfill(8)] and the literal
    paddings produce. *)
Definition is_bin_char (c : ascii) : bool :=
  is_bit c || Ascii.eqb c "b".

Definition has_b (s : string) : bool :=
  negb (all_chars (fun c => negb (Ascii.eqb c "b")) s).

(** The effects of one register write that goes through, as thread [tid]
    performs them on a session [index]. *)
Definition write_events (tid : nat) (index : option Z) (address : Z)
           (datas : list Z) : list (nat * Epick.Event) :=
  [(tid, Epick.EvAcquire);
   (tid, Epick.EvDash (Epick.SetTool485 115200 "N" 1));
   (tid, Epick.EvSleep 10);
   (tid, Epick.EvDash
           (Epick.SetHoldRegs index address (Z.of_nat (List.length datas))
              ("{" ++ Py.join "," (map Py.str datas) ++ "}")));
   (tid, Epick.EvSleep 500);
   (tid, Epick.EvRelease)].

(** What a method does between its pure computations: register writes
    that go through, and sleeps outside the lock. *)
Inductive Step : Type :=
| Write (address : Z) (datas : list Z)
| Pause (ms : Z).

Definition events_of (tid : nat) (index : option Z) (steps : list Step)
  : list (nat * Epick.Event) :=
  flat_map (fun s => match s with
                     | Write address datas => write_events tid index address datas
                     | Pause ms => [(tid, Epick.EvSleep ms)]
                     end) steps.

(** The gripper object once thread [tid] has gone through [steps]. *)
Definition after (tid : nat) (st : Epick.State) (steps : list Step)
  : Epick.State :=
  Epick.mk_state (Epick.ModbusIndex st) None
    (Epick.log st ++ events_of tid (Epick.ModbusIndex st) steps)%list.

(** What the controller answers to the register write of such a write. *)
Definition write_reply (dashboard : list Epick.DashCall -> Epick.DashCall -> string)
           (st : Epick.State) (address : Z) (datas : list Z) : string :=
  dashboard
    (Epick.calls (Epick.log st) ++ [Epick.SetTool485 115200 "N" 1])%list
    (Epick.SetHoldRegs (Epick.ModbusIndex st) address
       (Z.of_nat (List.length datas))
       ("{" ++ Py.join "," (map Py.str datas) ++ "}")).

(** The register writes a log holds. *)
Definition writes_of (st : Epick.State) : list (Z * Z * string) :=
  Epick.hold_regs (Epick.calls (Epick.log st)).

(** The value table of a register list, as the write formats it. *)
Definition val_tab (datas : list Z) : string :=
  "{" ++ Py.join "," (map Py.str datas) ++ "}".

(** The register writes of a list of steps: address, count, value table. *)
Fixpoint writes_in (steps : list Step) : list (Z * Z * string) :=
  match steps with
  | [] => []
  | Write address datas :: rest =>
      (address, Z.of_nat (List.length datas), val_tab datas) :: writes_in rest
  | Pause _ :: rest => writes_in rest
  end.

(** ** Integers in a text *)

Definition no_digit (s : string) : bool :=
  all_chars (fun c => negb (Py.is_digit c)) s.

Definition all_digits (s : string) : bool := all_chars Py.is_digit s.

Definition starts_with_digit (s : string) : bool :=
  match s with
  | String c _ => Py.is_digit c
  | EmptyString => false
  end.

Fixpoint ends_with_dash (s : string) : bool :=
  match s with
  | EmptyString => false
  | String c EmptyString => Ascii.eqb c "-"
  | String _ r => ends_with_dash r
  end.

Definition is_empty (s : string) : bool :=
  match s with
  | EmptyString => true
  | String _ _ => false
  end.

(** An integer as it stands in a text: decimal digits, at least one, behind
    an optional minus sign. *)
Definition is_token (t : string) : bool :=
  match t with
  | EmptyString => false
  | String c d =>
      if Ascii.eqb c "-" then negb (is_empty d) && all_digits d
      else all_digits t
  end.

(** The integer a token denotes. *)
Definition token_value (t : string) : Z :=
  match t with
  | EmptyString => 0
  | String c d =>
      if Ascii.eqb c "-" then - decimal_value d else decimal_value t
  end.

(** A text cut into its integers: each token with the gap in front of it,
    and the tail behind the last.  Gaps and tail hold no digit; a minus sign
    directly in front of digits belongs to the token; two tokens touch only
    where the second starts with its sign. *)
Fixpoint well_cut (first : bool) (pieces : list (string * string)) : bool :=
  match pieces with
  | [] => true
  | (gap, tok) :: rest =>
      no_digit gap && is_token tok
      && negb (ends_with_dash gap && starts_with_digit tok)
      && (first || negb (is_empty gap) || negb (starts_with_digit tok))
      && well_cut false rest
  end.

Fixpoint paste (pieces : list (string * string)) (tail : string) : string :=
  match pieces with
  | [] => tail
  | (gap, tok) :: rest => gap ++ tok ++ paste rest tail
  end.

Definition integers (pieces : list (string * string)) : list Z :=
  map (fun p => token_value (snd p)) pieces.

(** ** The lock discipline *)

(** Where a thread stands with respect to [write_lock]: outside it, inside
    it, or inside it with the settle delay of a register write still due. *)
Inductive Phase : Type := Free | Held | Settling.

(** A method keeps the discipline from phase [ph] on: it calls the
    connection only inside the lock, sleeps the settle delay of 500 ms
    behind every register write before anything else, and ends outside the
    lock. *)
Fixpoint disciplined {A : Type} (ph : Phase) (p : Epick.Prog A) : Prop :=
  match p with
  | Epick.Ret _ | Epick.Raise _ => ph = Free
  | Epick.Dash c k =>
      ph = Held
      /\ forall r, disciplined (if Epick.is_write c then Settling else Held) (k r)
  | Epick.Sleep ms k =>
      match ph with
      | Free => disciplined Free k
      | Held => disciplined Held k
      | Settling => ms = 500 /\ disciplined Held k
      end
  | Epick.Acquire k => ph = Free /\ disciplined Held k
  | Epick.Release k => ph = Held /\ disciplined Free k
  | Epick.GetModbusIndex k => forall i, disciplined ph (k i)
  | Epick.SetModbusIndex _ k => disciplined ph k
  end.



(** ** Concrete runs used as examples *)

(** A controller that answers "0" to every call. *)
Definition quiet : list Epick.DashCall -> Epick.DashCall -> string :=
  fun _ _ => "0".

(** A gripper object with session 1 and nothing done yet. *)
Definition open_session : Epick.State := Epick.mk_state (Some 1) None [].

(** A gripper object before any channel was created. *)
Definition no_session : Epick.State := Epick.mk_state None None [].


End Spec.

(* ================================================================== *)
(** * DobotDemo.py: starting the demo *)
(* ================================================================== *)

Module Start.

(** How [start] goes on behind the reply to [EnableRobot]. *)
Inductive Outcome : Type :=
| EnableFailed        (* prints the failure and returns *)
| FeedStarted         (* starts the feed thread and the print loop *)
| Raised_IndexError
| Raised_ValueError.

(** [start], on the reply of the controller to [EnableRobot]. *)
Definition start (reply : string) : Outcome :=
  match DobotDemo.parseResultId reply with
  | None => Raised_ValueError
  | Some ids =>
      match nth_error ids 0 with
      | None => Raised_IndexError
      | Some code => if negb (code =? 0) then EnableFailed else FeedStarted
      end
  end.

End Start.

(* ================================================================== *)
(** * Notions for the further properties *)
(* ================================================================== *)

Module More.

(** The snapshot a valid frame publishes. *)
Definition snapshot_of {float : Type} (f : Frame.t float) : DobotDemo.item :=
  DobotDemo.mk_item (Frame.RobotMode f) (Frame.CurrentCommandId f)
    (Frame.len f) (Frame.DigitalInputs f) (Frame.DigitalOutputs f).

(** What a read of the feed leaves the snapshot alone: nothing received,
    or a frame without the sentinel. *)
Definition ignored {float : Type} (r : option (Frame.t float)) : bool :=
  match r with
  | None => true
  | Some f => negb (Frame.TestValue f =? MAGIC)
  end.

(** Every second element, from the first on: the rows [0, 2, 4, ...]. *)
Fixpoint every_other {A : Type} (l : list A) : list A :=
  match l with
  | [] => []
  | x :: rest =>
      x :: match rest with
           | [] => []
           | _ :: rest' => every_other rest'
           end
  end.

(** The motion command of the replay for a pose. *)
Definition movl {pose : Type} (p : pose) : Replay.Cmd pose :=
  Replay.MovL p 0 Replay.params.

(** What [main] has sent when it sends the motion of row [k] of the rows
    it replays. *)
Definition sent_before {pose : Type} (poses : list pose) (k : nat)
  : list (Replay.Cmd pose) :=
  ([Replay.EnableRobot; Replay.VelL Replay.VELL_RATIO]
   ++ map movl (firstn k (every_other poses)))%list.

(** The result code the controller answers to the motion of row [k]. *)
Definition row_code {pose : Type}
           (dashboard : list (Replay.Cmd pose) -> Replay.Cmd pose -> string)
           (poses : list pose) (k : nat) : option Z :=
  match nth_error (every_other poses) k with
  | Some p => Replay._parse_result_code (dashboard (sent_before poses k) (movl p))
  | None => None
  end.

(** What thread [tid] did, in order, according to a log. *)
Fixpoint thread_events (tid : nat) (l : list (nat * Epick.Event))
  : list Epick.Event :=
  match l with
  | [] => []
  | (t, e) :: l' =>
      if Nat.eqb t tid then e :: thread_events tid l' else thread_events tid l'
  end.

(** [p] performs the effects [T], in this order, on a gripper whose session
    identifier stays [index], whatever the controller answers; a method that
    raises may stop anywhere in [T]. *)
Fixpoint emits {A : Type} (index : option Z) (p : Epick.Prog A)
         (T : list Epick.Event) : Prop :=
  match p with
  | Epick.Ret _ => T = []
  | Epick.Raise _ => True
  | Epick.Dash c k =>
      match T with
      | e :: T' => e = Epick.EvDash c /\ forall r, emits index (k r) T'
      | [] => False
      end
  | Epick.Sleep ms k =>
      match T with
      | e :: T' => e = Epick.EvSleep ms /\ emits index k T'
      | [] => False
      end
  | Epick.Acquire k =>
      match T with
      | e :: T' => e = Epick.EvAcquire /\ emits index k T'
      | [] => False
      end
  | Epick.Release k =>
      match T with
      | e :: T' => e = Epick.EvRelease /\ emits index k T'
      | [] => False
      end
  | Epick.GetModbusIndex k => emits index (k index) T
  | Epick.SetModbusIndex _ _ => False
  end.

(** The effects of a list of steps, without the thread. *)
Definition effects (index : option Z) (steps : list Spec.Step)
  : list Epick.Event :=
  map snd (Spec.events_of 0 index steps).

(** The steps of [grip] when nothing stops it; the parameter registers are
    what the encoders return (0 where an encoder raises, which ends the call
    before that write). *)
Definition grip_steps (max_v min_v timeout : Z) : list Spec.Step :=
  [Spec.Write Epick.ROBORIQ_EPICK_WRITE_ADDRESS [512];
   Spec.Write Epick.ROBORIQ_EPICK_WRITE_ADDRESS [768];
   Spec.Write (Epick.ROBORIQ_EPICK_WRITE_ADDRESS + 1)
     [match Epick.CMD_HANDLER.MAX_VACUUM (100 - max_v) with
      | Some a => a
      | None => 0
      end;
      match Epick.binaryStringToDecimal
              (Epick.CMD_HANDLER.TIMEOUT (Epick.ceil_div_100 timeout)
               ++ Epick.CMD_HANDLER.MIN_VACUUM (100 - min_v)) with
      | Some b => b
      | None => 0
      end];
   Spec.Write Epick.ROBORIQ_EPICK_WRITE_ADDRESS [2816]].

Definition release_steps : list Spec.Step :=
  [Spec.Write Epick.ROBORIQ_EPICK_WRITE_ADDRESS [512];
   Spec.Write Epick.ROBORIQ_EPICK_WRITE_ADDRESS [2816; 255];
   Spec.Pause 1000;
   Spec.Write Epick.ROBORIQ_EPICK_WRITE_ADDRESS [768]].

(** A call that comes to an end without waiting for the lock and without
    releasing a lock nobody holds, and leaves the lock free and the session
    identifier as it was. *)
Definition settles {A : Type}
           (dashboard : list Epick.DashCall -> Epick.DashCall -> string)
           (tid : nat) (p : Epick.Prog A) (st : Epick.State) : Prop :=
  exists res st',
    Epick.run dashboard tid p st = (res, st')
    /\ res <> Epick.Blocked
    /\ res <> Epick.Exception Epick.RuntimeError
    /\ Epick.write_lock st' = None
    /\ Epick.ModbusIndex st' = Epick.ModbusIndex st.

(** A list is the beginning of another. *)
Definition begins {A : Type} (l full : list A) : Prop :=
  exists rest, (l ++ rest)%list = full.

End More.

(* ================================================================== *)
(** * ui_epick.py: the gripper buttons of the window *)
(* ================================================================== *)

Module EpickUI.

(** [try: p except Exception: handler]. *)
Fixpoint catch {A : Type} (p : Epick.Prog A) (handler : Epick.exn -> Epick.Prog A)
  : Epick.Prog A :=
  match p with
  | Epick.Ret a => Epick.Ret a
  | Epick.Raise e => handler e
  | Epick.Dash c k => Epick.Dash c (fun r => catch (k r) handler)
  | Epick.Sleep ms k => Epick.Sleep ms (catch k handler)
  | Epick.Acquire k => Epick.Acquire (catch k handler)
  | Epick.Release k => Epick.Release (catch k handler)
  | Epick.GetModbusIndex k => Epick.GetModbusIndex (fun i => catch (k i) handler)
  | Epick.SetModbusIndex i k => Epick.SetModbusIndex i (catch k handler)
  end.

(** What a button callback leaves on the screen. *)
Inductive Shown : Type :=
| Nothing          (* no gripper object: the callback returns at once *)
| Done             (* the action ran; its line is printed *)
| ErrorBox.        (* [messagebox.showerror("EPick Error", ...)] *)

(** [epick_init]; [epick] tells whether the window has a gripper object. *)
Definition epick_init (epick : bool) : Epick.Prog Shown :=
  if epick then
    catch (Epick.bind Epick.init (fun _ => Epick.Ret Done))
          (fun _ => Epick.Ret ErrorBox)
  else Epick.Ret Nothing.

(** [epick_grip] on the texts of the three entry fields. *)
Definition epick_grip (epick : bool) (epick_max epick_min epick_timeout : string)
  : Epick.Prog Shown :=
  if epick then
    catch
      (Epick.bind (Epick.lift (Py.int epick_max 10)) (fun mx =>
       Epick.bind (Epick.lift (Py.int epick_min 10)) (fun mn =>
       Epick.bind (Epick.lift (Py.int epick_timeout 10)) (fun tm =>
       Epick.bind (Epick.grip mx mn tm) (fun _ =>
       Epick.Ret Done)))))
      (fun _ => Epick.Ret ErrorBox)
  else Epick.Ret Nothing.

(** [epick_release]. *)
Definition epick_release (epick : bool) : Epick.Prog Shown :=
  if epick then
    catch (Epick.bind Epick.release (fun _ => Epick.Ret Done))
          (fun _ => Epick.Ret ErrorBox)
  else Epick.Ret Nothing.

End EpickUI.

(* ================================================================== *)
(** * String methods of the recorder and the replay *)
(* ================================================================== *)

Module Text.

(** [c.lower()] on code points below 256: the ASCII capitals, and the
    Latin-1 capitals 192..222 without the multiplication sign 215. *)
Definition lower_char (c : ascii) : ascii :=
  let n := Py.ord c in
  if ((65 <=? n) && (n <=? 90))
     || ((192 <=? n) && (n <=? 222) && negb (n =? 215))
  then ascii_of_N (N_of_ascii c + 32)
  else c.

(** [s.lower()]. *)
Fixpoint lower (s : string) : string :=
  match s with
  | String c r => String (lower_char c) (lower r)
  | EmptyString => EmptyString
  end.

(** [s.endswith(suffix)]. *)
Definition endswith (s suffix : string) : bool :=
  (String.length suffix <=? String.length s)%nat
  && String.eqb (Py.drop (String.length s - String.length suffix) s) suffix.

End Text.

(* ================================================================== *)
(** * replay_trajectory.py: the header of a trajectory file *)
(* ================================================================== *)

Module Header.

(** White space of [str.strip()] on code points below 256. *)
Definition is_whitespace (c : ascii) : bool :=
  let n := Py.ord c in
  ((9 <=? n) && (n <=? 13)) || ((28 <=? n) && (n <=? 32))
  || (n =? 133) || (n =? 160).

Fixpoint lstrip (s : string) : string :=
  match s with
  | String c r => if is_whitespace c then lstrip r else s
  | EmptyString => s
  end.

Fixpoint rstrip (s : string) : string :=
  match s with
  | String c r =>
      match rstrip r with
      | EmptyString => if is_whitespace c then "" else String c ""
      | r' => String c r'
      end
  | EmptyString => s
  end.

(** [s.strip()]. *)
Definition strip (s : string) : string := rstrip (lstrip s).

(** A [dict] with text keys, in insertion order. *)
Definition dict : Type := list (string * string).

(** [d.get(key)]; [None] when [key not in d]. *)
Fixpoint get (key : string) (d : dict) : option string :=
  match d with
  | [] => None
  | (k, v) :: d' => if String.eqb k key then Some v else get key d'
  end.

(** [d[key] = value] for a key that is not in [d]. *)
Definition add (d : dict) (key value : string) : dict := (d ++ [(key, value)])%list.

Definition POSE_COLUMNS_CANONICAL : list string :=
  ["x"; "y"; "z"; "rx"; "ry"; "rz"].

(** One pass of the loop of [_build_header_map]. *)
Definition header_step (header_map : dict) (raw : option string) : dict :=
  match raw with
  | None => header_map
  | Some raw =>
      let key := Text.lower (strip raw) in
      match key, get key header_map with
      | String _ _, None => add header_map key raw
      | _, _ => header_map
      end
  end.

Definition _build_header_map (fieldnames : list (option string)) : dict :=
  fold_left header_step fieldnames [].

(** The header check of [read_poses_from_csv], from the field names of the
    reader on: the canonical columns without a header, and, when there is
    none, the headers to read the six columns from.  [None] is the
    [ValueError] for missing columns. *)
Definition missing (header_map : dict) : list string :=
  filter (fun k => match get k header_map with
                   | None => true
                   | Some _ => false
                   end) POSE_COLUMNS_CANONICAL.

Definition cols (fieldnames : list (option string)) : option (list string) :=
  let header_map := _build_header_map fieldnames in
  match missing header_map with
  | [] => Py.traverse (fun k => get k header_map) POSE_COLUMNS_CANONICAL
  | _ :: _ => None
  end.

(** The first header that reads as [key] once trimmed and in lower case. *)
Fixpoint first_header (key : string) (fieldnames : list (option string))
  : option string :=
  match fieldnames with
  | [] => None
  | None :: rest => first_header key rest
  | Some raw :: rest =>
      if String.eqb (Text.lower (strip raw)) key then Some raw
      else first_header key rest
  end.

End Header.

(* ================================================================== *)
(** * replay_trajectory.py: the trajectory file to replay *)
(* ================================================================== *)

Module Latest.

Section Find.
(** [os.path.join] and [os.path.getmtime]; of the modification time only the
    order is used. *)
Variable path_join : string -> string -> string.
Variable getmtime : string -> Z.

(** Insertion into a list sorted from the latest on; a file goes in front of
    the files that are not later than itself. *)
Fixpoint insert (p : string) (sorted : list string) : list string :=
  match sorted with
  | [] => [p]
  | q :: rest =>
      if getmtime q <=? getmtime p then p :: sorted else q :: insert p rest
  end.

(** [candidates.sort(key=getmtime, reverse=True)]: the latest first, files
    of the same time in the order they had. *)
Definition sort (candidates : list string) : list string :=
  fold_right insert [] candidates.

(** The loop that collects the candidates. *)
Definition candidates (data_dir : string) (listdir : list string) : list string :=
  map (path_join data_dir)
      (filter (fun name => Text.endswith (Text.lower name) ".csv") listdir).

(** [_find_latest_csv]; [isdir] and [listdir] are what [os.path.isdir] and
    [os.listdir] return for [data_dir].  [None] is [FileNotFoundError]. *)
Definition _find_latest_csv (isdir : bool) (listdir : list string)
           (data_dir : string) : option string :=
  if negb isdir then None
  else
    match candidates data_dir listdir with
    | [] => None
    | _ :: _ => hd_error (sort (candidates data_dir listdir))
    end.

End Find.

End Latest.

(* ================================================================== *)
(** * ui_epick_control.py: the file of a recording *)
(* ================================================================== *)

Module Recorder.

(** An escaped literal of a pattern compiled with [re.IGNORECASE], matched at
    the head of [s]: what is left of [s] behind it. *)
Fixpoint match_literal (lit s : string) : option string :=
  match lit, s with
  | EmptyString, _ => Some s
  | String l lit', String c s' =>
      if Ascii.eqb (Text.lower_char c) (Text.lower_char l)
      then match_literal lit' s'
      else None
  | String _ _, EmptyString => None
  end.

(** [$]: the end of the text, or the newline that ends it. *)
Definition at_end (s : string) : bool :=
  match s with
  | EmptyString => true
  | String c EmptyString => Ascii.eqb c "010"%char
  | _ => false
  end.

(** [(\d+)ext$] at the head of [s]: the group.  The digits are greedy; the
    group gives digits back as long as the rest does not match. *)
Fixpoint match_index (ext s : string) : option string :=
  match s with
  | String c r =>
      if Py.is_digit c then
        match match_index ext r with
        | Some group => Some (String c group)
        | None =>
            match match_literal ext r with
            | Some rest => if at_end rest then Some (String c "") else None
            | None => None
            end
        end
      else None
  | EmptyString => None
  end.

(** [re.match(rf"^{re.escape(prefix)}(\d+){re.escape(ext)}$", name,
    flags=re.IGNORECASE)]: group 1 of the match. *)
Definition demo_match (prefix ext name : string) : option string :=
  match match_literal prefix name with
  | Some rest => match_index ext rest
  | None => None
  end.

(** One pass of the loop over the directory. *)
Definition next_step (prefix ext : string) (max_idx : Z) (name : string) : Z :=
  if negb (Text.endswith (Text.lower name) (Text.lower ext)) then max_idx
  else
    match demo_match prefix ext name with
    | None => max_idx
    | Some group =>
        match Py.int group 10 with
        | Some idx => Z.max max_idx idx
        | None => max_idx
        end
    end.

Section NextPath.
(** [os.path.join]. *)
Variable path_join : string -> string -> string.

(** [_next_demo_csv_path]; [listdir] is what [os.listdir(out_dir)] returns,
    [None] when it raises. *)
Definition _next_demo_csv_path (listdir : option (list string))
           (out_dir prefix ext : string) : string :=
  let max_idx :=
    match listdir with
    | Some names => fold_left (next_step prefix ext) names 0
    | None => 0
    end in
  path_join out_dir (prefix ++ Py.str (max_idx + 1) ++ ext).

End NextPath.

End Recorder.

(* ================================================================== *)
(** * ui_epick_control.py: reading the force sensor *)
(* ================================================================== *)

Module Force.

(** [(.*?)\}] at the head of [s]: the group.  The dot takes any character
    but a newline, and as few as possible. *)
Fixpoint lazy_to_brace (s : string) : option string :=
  match s with
  | EmptyString => None
  | String c r =>
      if Ascii.eqb c "}" then Some ""
      else if Ascii.eqb c "010"%char then None
      else match lazy_to_brace r with
           | Some group => Some (String c group)
           | None => None
           end
  end.

(** [re.search(r"\{(.*?)\}", s)]: group 1 of the leftmost match. *)
Fixpoint search_braces (s : string) : option string :=
  match s with
  | EmptyString => None
  | String c r =>
      if Ascii.eqb c "{" then
        match lazy_to_brace r with
        | Some group => Some group
        | None => search_braces r
        end
      else search_braces r
  end.

(** [s.split(',')]. *)
Fixpoint split_comma (s : string) : list string :=
  match s with
  | EmptyString => [""]
  | String c r =>
      if Ascii.eqb c "," then "" :: split_comma r
      else match split_comma r with
           | field :: fields => String c field :: fields
           | [] => [String c ""]
           end
  end.

(** What [parse_force_response] returns: the six integer zeros, or six
    floats. *)
Inductive Reading (float : Type) : Type :=
| Zeros
| Forces (fx fy fz mx my mz : float).
Arguments Zeros {float}.
Arguments Forces {float}.

Section Parse.
Context {float : Type}.
(** [float(x)] on a text; [None] is [ValueError]. *)
Variable float_of : string -> option float.

(** [parse_force_response] on a reply that is a text. *)
Definition parse_force_response (response : string) : Reading float :=
  match response with
  | EmptyString => Zeros
  | String _ _ =>
      match search_braces response with
      | Some content =>
          match Py.traverse float_of (split_comma content) with
          | Some (fx :: fy :: fz :: mx :: my :: mz :: _) =>
              Forces fx fy fz mx my mz
          | _ => Zeros
          end
      | None => Zeros
      end
  end.

End Parse.

(** No character of [s] is [c]. *)
Definition without (c : ascii) (s : string) : bool :=
  Spec.all_chars (fun x => negb (Ascii.eqb x c)) s.

(** A field of the braces: no comma, no closing brace, no newline. *)
Definition is_field (s : string) : bool :=
  without "," s && without "}" s && without "010"%char s.

End Force.

(* ================================================================== *)
(** * ui.py: the connect, enable and drag buttons *)
(* ================================================================== *)

Module Window.

(** Calls of the buttons that came back from the connections. *)
Inductive Call : Type :=
| EnableRobot
| DisableRobot
| StartDrag
| StopDrag
| close_dash
| close_feed.

(** What the three callbacks read and write: [global_state], the state of
    the buttons of [button_list], the texts of the three buttons, the relief
    of the drag button, and the calls made. *)
Record t : Type := mk {
  connect : bool;
  enable : bool;
  drag : bool;
  state_normal : bool;
  button_connect_text : string;
  button_enable_text : string;
  button_start_drag_text : string;
  button_start_drag_relief : string;
  sent : list Call
}.

(** The window as [__init__] leaves it; every button but Connect starts
    disabled, and a button is drawn raised. *)
Definition init : t :=
  mk false false false false "Connect" "Enable" "StartDrag" "raised" [].

(** [connect_port]; [ok] tells whether the two connections can be made. *)
Definition connect_port (ok : bool) (w : t) : t :=
  if connect w then
    mk false (enable w) false false
       "Connect" (button_enable_text w) "StartDrag" "raised"
       (sent w ++ [close_dash; close_feed])%list
  else if ok then
    mk true (enable w) (drag w) true
       "Disconnect" (button_enable_text w)
       (button_start_drag_text w) (button_start_drag_relief w) (sent w)
  else w.

(** [enable]; [raises] tells whether the call on the connection raises.
    Without a connection object the call raises by itself. *)
Definition enable_robot (raises : bool) (w : t) : t :=
  if raises || negb (connect w) then w
  else if enable w then
    mk (connect w) false (drag w) (state_normal w)
       (button_connect_text w) "Enable"
       (button_start_drag_text w) (button_start_drag_relief w)
       (sent w ++ [DisableRobot])%list
  else
    mk (connect w) true (drag w) (state_normal w)
       (button_connect_text w) "Disable"
       (button_start_drag_text w) (button_start_drag_relief w)
       (sent w ++ [EnableRobot])%list.

(** [start_drag]. *)
Definition start_drag (raises : bool) (w : t) : t :=
  if negb (connect w) then w
  else if negb (drag w) then
    if raises then w
    else
      mk (connect w) (enable w) true (state_normal w)
         (button_connect_text w) (button_enable_text w) "StopDrag" "sunken"
         (sent w ++ [StartDrag])%list
  else
    if raises then w
    else
      mk (connect w) (enable w) false (state_normal w)
         (button_connect_text w) (button_enable_text w) "StartDrag" "raised"
         (sent w ++ [StopDrag])%list.

(** A click; a disabled button does not call its command. *)
Inductive Click : Type :=
| ClickConnect (ok : bool)
| ClickEnable (raises : bool)
| ClickStartDrag (raises : bool).

Definition click (w : t) (c : Click) : t :=
  match c with
  | ClickConnect ok => connect_port ok w
  | ClickEnable raises => if state_normal w then enable_robot raises w else w
  | ClickStartDrag raises => if state_normal w then start_drag raises w else w
  end.

Definition clicks (l : list Click) : t := fold_left click l init.

(** The drag calls of a list of calls, and whether a start is still open
    at its end. *)
Fixpoint dragging (open : bool) (l : list Call) : bool :=
  match l with
  | [] => open
  | StartDrag :: l' => dragging true l'
  | StopDrag :: l' => dragging false l'
  | _ :: l' => dragging open l'
  end.

End Window.

(* ================================================================== *)
(** * ui_epick_control.py: the gripper buttons and the recorded state *)
(* ================================================================== *)

Module Control.

(** [epick_grip] of the recording window, on the texts of the three entry
    fields and the current [gripper_state]: what is shown, and
    [gripper_state] afterwards.  The gripper class is the one of
    [ui_epick.py] but for the creation of the channel. *)
Definition epick_grip (epick : bool) (epick_max epick_min epick_timeout : string)
           (gripper_state : Z) : Epick.Prog (EpickUI.Shown * Z) :=
  if epick then
    EpickUI.catch
      (Epick.bind (Epick.lift (Py.int epick_max 10)) (fun mx =>
       Epick.bind (Epick.lift (Py.int epick_min 10)) (fun mn =>
       Epick.bind (Epick.lift (Py.int epick_timeout 10)) (fun tm =>
       Epick.bind (Epick.grip mx mn tm) (fun _ =>
       Epick.Ret (EpickUI.Done, 1))))))
      (fun _ => Epick.Ret (EpickUI.ErrorBox, gripper_state))
  else Epick.Ret (EpickUI.Nothing, gripper_state).

(** [epick_release] of the recording window. *)
Definition epick_release (epick : bool) (gripper_state : Z)
  : Epick.Prog (EpickUI.Shown * Z) :=
  if epick then
    EpickUI.catch
      (Epick.bind Epick.release (fun _ => Epick.Ret (EpickUI.Done, 0)))
      (fun _ => Epick.Ret (EpickUI.ErrorBox, gripper_state))
  else Epick.Ret (EpickUI.Nothing, gripper_state).

End Control.

(* ================================================================== *)
(** * ui.py: the alarm display *)
(* ================================================================== *)

Module Alarms.

Section Display.
(** An entry of an alarm table. *)
Context {entry : Type}.
(** The two tables as [convert_dict] builds them, by alarm id; [None] for an
    id that is not a key. *)
Variable alarm_controller_dict alarm_servo_dict : Z -> option entry.

(** [form_error]: the block appended to the error text, if any: the alarm id
    asked for, the type text and the entry of the table. *)
Definition form_error (index : Z) (alarm_dict : Z -> option entry)
           (type_text : string) : list (Z * string * entry) :=
  match alarm_dict index with
  | Some e => [(index, type_text, e)]
  | None => []
  end.

(** [range(len(l))]. *)
Definition range_len {A : Type} (l : list A) : list Z :=
  map Z.of_nat (seq 0 (List.length l)).

(** The loops of the fallback of [display_error_info] over the list parsed
    from the reply of [GetErrorID]: the controller alarms first, then one list
    for each axis.  An empty list makes [error_list[0]] raise, which the
    fallback catches. *)
Definition fallback (error_list : list (list Z)) : list (Z * string * entry) :=
  match error_list with
  | [] => []
  | controller :: axes =>
      (flat_map (fun i => form_error i alarm_controller_dict "Controller Error")
         controller
       ++ flat_map
            (fun axis =>
               flat_map (fun n => form_error n alarm_servo_dict "Servo Error")
                 (range_len axis))
            axes)%list
  end.

End Display.

End Alarms.

(* ================================================================== *)
(** * Facts about the built-ins *)
(* ================================================================== *)

Section BuiltinExamples.

Example int_radix_prefix : Py.int "0b101" 2 = Some 5.
Proof. reflexivity. Qed.

Example int_sign_underscore_space : Py.int " -1_0 " 2 = Some (-2).
Proof. reflexivity. Qed.

Example int_inner_b : Py.int "000b101" 2 = None.
Proof. reflexivity. Qed.

Example int_decimal : Py.int "-0283" 10 = Some (-283).
Proof. reflexivity. Qed.

Example bin_negative : Py.bin (-5) = "-0b101".
Proof. reflexivity. Qed.

Example bin_zero : Py.bin 0 = "0b0".
Proof. reflexivity. Qed.

Example hex_sentinel : Py.hex MAGIC = "0x123456789abcdef".
Proof. reflexivity. Qed.

Example str_negative : Py.str (-2816) = "-2816".
Proof. reflexivity. Qed.

Example zfill_pads : Py.zfill "b101" 8 = "0000b101".
Proof. reflexivity. Qed.

Example zfill_keeps_sign : Py.zfill "-42" 5 = "-0042".
Proof. reflexivity. Qed.

Example findall_echo :
  Py.findall_int "0,{17},MovJ(146.3759,-283.4321);"
  = ["0"; "17"; "146"; "3759"; "-283"; "4321"].
Proof. reflexivity. Qed.

Example findall_dashes : Py.findall_int "1-2--3-" = ["1"; "-2"; "-3"].
Proof. reflexivity. Qed.

Example parseResultId_none : DobotDemo.parseResultId "ok" = Some [2].
Proof. reflexivity. Qed.

Example decimalToBinaryString_negative :
  Epick.decimalToBinaryString (-5) 8 = "0000b101".
Proof. reflexivity. Qed.

Example decimalToBinaryString_wide :
  Epick.decimalToBinaryString 300 8 = "100101100".
Proof. reflexivity. Qed.

Example ceil_div_100_examples :
  Epick.ceil_div_100 1000 = 10 /\ Epick.ceil_div_100 1001 = 11
  /\ Epick.ceil_div_100 0 = 0 /\ Epick.ceil_div_100 (-150) = -1.
Proof. repeat split. Qed.

End BuiltinExamples.

Section StringFacts.

Lemma append_assoc (a b c : string) : (a ++ b) ++ c = a ++ (b ++ c).
Proof. induction a as [|x a IH]; simpl; [reflexivity | now rewrite IH]. Qed.

Lemma append_empty_r (a : string) : a ++ "" = a.
Proof. induction a as [|x a IH]; simpl; [reflexivity | now rewrite IH]. Qed.

Lemma length_append (a b : string) :
  String.length (a ++ b) = (String.length a + String.length b)%nat.
Proof. induction a as [|x a IH]; simpl; [reflexivity | now rewrite IH]. Qed.

Lemma all_chars_append p (a b : string) :
  Spec.all_chars p (a ++ b) = Spec.all_chars p a && Spec.all_chars p b.
Proof.
  induction a as [|x a IH]; simpl; [reflexivity |].
  now rewrite IH, andb_assoc.
Qed.

Lemma all_chars_weaken (p q : ascii -> bool) (s : string) :
  (forall c, p c = true -> q c = true) ->
  Spec.all_chars p s = true -> Spec.all_chars q s = true.
Proof.
  intros Hpq. induction s as [|c s IH]; simpl; [reflexivity |].
  intros H. apply andb_true_iff in H as [Hc Hs].
  now rewrite (Hpq _ Hc), IH.
Qed.

Lemma value_from_append base acc (a b : string) :
  Spec.value_from base acc (a ++ b)
  = Spec.value_from base (Spec.value_from base acc a) b.
Proof. revert acc. induction a as [|x a IH]; simpl; intros; auto. Qed.

Lemma length_zeros k : String.length (Py.zeros k) = k.
Proof. induction k; simpl; congruence. Qed.

Lemma is_bits_zeros k : Spec.is_bits (Py.zeros k) = true.
Proof. induction k; simpl; auto. Qed.

Lemma value_from_zeros acc k :
  Spec.value_from 2 acc (Py.zeros k) = acc * 2 ^ Z.of_nat k.
Proof.
  revert acc. induction k as [|k IH]; intros acc.
  - simpl. lia.
  - cbn [Py.zeros Spec.value_from]. rewrite IH.
    change (Py.digit_value "0") with 0.
    rewrite Nat2Z.inj_succ, Z.pow_succ_r by lia. ring.
Qed.

Lemma drop_append (k : nat) (a b : string) :
  (k <= String.length a)%nat -> Py.drop k (a ++ b) = Py.drop k a ++ b.
Proof.
  revert a. induction k as [|k IH]; intros a Hk.
  - now destruct a.
  - destruct a as [|x a]; simpl in *; [lia |]. apply IH. lia.
Qed.

End StringFacts.

Section DigitFacts.

Lemma is_bit_cases c : Spec.is_bit c = true -> c = "0"%char \/ c = "1"%char.
Proof.
  unfold Spec.is_bit. intros H. apply orb_true_iff in H as [H | H];
    apply Ascii.eqb_eq in H; auto.
Qed.

Lemma digit_char_value d : 0 <= d < 36 -> Py.digit_value (Py.digit_char d) = d.
Proof.
  intros Hd.
  assert (H : exists k : nat, (k < 36)%nat /\ d = Z.of_nat k).
  { exists (Z.to_nat d). split; lia. }
  destruct H as (k & Hk & ->).
  do 36 (destruct k as [|k]; [reflexivity |]). lia.
Qed.

Lemma digit_char_bit d : 0 <= d < 2 -> Spec.is_bit (Py.digit_char d) = true.
Proof.
  intros Hd. assert (H : d = 0 \/ d = 1) by lia.
  destruct H as [-> | ->]; reflexivity.
Qed.

(** With enough fuel the digits written denote the number. *)
Lemma to_digits_value base fuel n acc :
  2 <= base <= 36 -> 0 <= n < base ^ Z.of_nat fuel ->
  Spec.value_from base 0 (Py.to_digits base fuel n acc)
  = Spec.value_from base n acc.
Proof.
  intros Hb. revert n acc. induction fuel as [|f IH]; intros n acc Hn.
  - simpl in Hn. assert (n = 0) by lia. subst. reflexivity.
  - cbn [Py.to_digits].
    assert (Hmod : 0 <= n mod base < base) by (apply Z.mod_pos_bound; lia).
    assert (Hdm : n = base * (n / base) + n mod base)
      by (apply Z.div_mod; lia).
    destruct (n / base =? 0) eqn:Hq.
    + apply Z.eqb_eq in Hq. cbn [Spec.value_from].
      rewrite digit_char_value by lia. f_equal. lia.
    + apply Z.eqb_neq in Hq. rewrite IH.
      * cbn [Spec.value_from]. rewrite digit_char_value by lia.
        f_equal. lia.
      * split; [apply Z.div_pos; lia |].
        apply Z.div_lt_upper_bound; [lia |].
        rewrite Nat2Z.inj_succ, Z.pow_succ_r in Hn by lia. lia.
Qed.

Lemma log2_fuel base n :
  2 <= base -> 0 <= n -> n < base ^ Z.of_nat (S (Z.to_nat (Z.log2 n))).
Proof.
  intros Hb Hn.
  assert (Hl : 0 <= Z.log2 n) by apply Z.log2_nonneg.
  rewrite Nat2Z.inj_succ, Z2Nat.id by lia.
  apply Z.lt_le_trans with (2 ^ Z.succ (Z.log2 n)).
  - destruct (Z.eq_dec n 0) as [-> | Hnz].
    + simpl. lia.
    + apply Z.log2_spec. lia.
  - apply Z.pow_le_mono_l. lia.
Qed.

Lemma digits_value base n :
  2 <= base <= 36 -> 0 <= n -> Spec.value_from base 0 (Py.digits base n) = n.
Proof.
  intros Hb Hn. unfold Py.digits.
  rewrite to_digits_value; [reflexivity | lia |].
  split; [lia | apply log2_fuel; lia].
Qed.

Lemma to_digits_bits fuel n acc :
  Spec.is_bits acc = true -> Spec.is_bits (Py.to_digits 2 fuel n acc) = true.
Proof.
  revert n acc. induction fuel as [|f IH]; intros n acc Ha; [exact Ha |].
  cbn [Py.to_digits].
  assert (Hc : Spec.is_bits (String (Py.digit_char (n mod 2)) acc) = true).
  { unfold Spec.is_bits. cbn [Spec.all_chars].
    rewrite digit_char_bit by (apply Z.mod_pos_bound; lia). exact Ha. }
  destruct (n / 2 =? 0); [exact Hc | now apply IH].
Qed.

Lemma to_digits_length base fuel n acc :
  (String.length acc < String.length (Py.to_digits base (S fuel) n acc)
   <= S fuel + String.length acc)%nat.
Proof.
  revert n acc. induction fuel as [|f IH]; intros n acc.
  - cbn. destruct (n / base =? 0); simpl; lia.
  - remember (S f) as g. cbn [Py.to_digits].
    destruct (n / base =? 0); [simpl; lia |].
    subst g. specialize (IH (n / base) (String (Py.digit_char (n mod base)) acc)).
    simpl String.length in IH at 1 3. simpl in *. lia.
Qed.

End DigitFacts.

Section IntFacts.

Lemma is_bit_not_space c : Spec.is_bit c = true -> Py.is_space c = false.
Proof. intros H. destruct (is_bit_cases c H) as [-> | ->]; reflexivity. Qed.

Lemma scan_digits_bits (s : string) acc n :
  Spec.is_bits s = true ->
  Py.scan_digits 2 false acc n s
  = Some (Spec.value_from 2 acc s, (n + String.length s)%nat, "").
Proof.
  revert acc n. induction s as [|c s IH]; intros acc n Hs.
  - simpl. now rewrite Nat.add_0_r.
  - unfold Spec.is_bits in Hs. cbn [Spec.all_chars] in Hs.
    apply andb_true_iff in Hs as [Hc Hs].
    cbn [Py.scan_digits Spec.value_from String.length].
    destruct (is_bit_cases c Hc) as [-> | ->]; cbn;
      rewrite IH by exact Hs; do 2 f_equal; f_equal; lia.
Qed.

(** On a non-empty text of binary digits [int(s, 2)] is its binary value. *)
Lemma int_bits (s : string) :
  Spec.is_bits s = true -> s <> "" ->
  Py.int s 2 = Some (Spec.binary_value s).
Proof.
  intros Hs Hne. destruct s as [|c s]; [congruence |].
  unfold Spec.is_bits in Hs. cbn [Spec.all_chars] in Hs.
  apply andb_true_iff in Hs as [Hc Hr].
  assert (Hfin : forall acc n (t : string),
             Spec.all_chars Spec.is_bit t = true ->
             match Py.scan_digits 2 false acc (S n) t with
             | Some (v, n0, rest) =>
                 match n0, Py.skip_space rest with
                 | S _, EmptyString => Some v
                 | _, _ => None
                 end
             | None => None
             end = Some (Spec.value_from 2 acc t)).
  { intros acc n t Ht. now rewrite scan_digits_bits. }
  destruct (is_bit_cases c Hc) as [-> | ->].
  - destruct s as [|d s]; [reflexivity |].
    cbn [Spec.all_chars] in Hr. apply andb_true_iff in Hr as [Hd Hr].
    destruct (is_bit_cases d Hd) as [-> | ->];
      unfold Py.int, Spec.binary_value; cbn; now apply Hfin.
  - unfold Py.int, Spec.binary_value; cbn; now apply Hfin.
Qed.

Lemma is_bin_char_cases c :
  Spec.is_bin_char c = true -> c = "0"%char \/ c = "1"%char \/ c = "b"%char.
Proof.
  unfold Spec.is_bin_char. intros H. apply orb_true_iff in H as [H | H].
  - destruct (is_bit_cases c H); auto.
  - apply Ascii.eqb_eq in H. auto.
Qed.

(** The digit loop stops at the first [b]. *)
Lemma scan_digits_stops_at_b (s : string) acc n :
  Spec.all_chars Spec.is_bin_char s = true -> Spec.has_b s = true ->
  exists v n' rest,
    Py.scan_digits 2 false acc n s = Some (v, n', String "b" rest)
    /\ (n <= n')%nat.
Proof.
  revert acc n. induction s as [|c s IH]; intros acc n Hs Hb.
  - discriminate.
  - cbn [Spec.all_chars] in Hs. apply andb_true_iff in Hs as [Hc Hs].
    unfold Spec.has_b in Hb. cbn [Spec.all_chars] in Hb.
    destruct (is_bin_char_cases c Hc) as [-> | [-> | ->]].
    + cbn in Hb |- *.
      destruct (IH (acc * 2 + 0) (S n) Hs Hb) as (v & n' & rest & E & Hn).
      exists v, n', rest. split; [exact E | lia].
    + cbn in Hb |- *.
      destruct (IH (acc * 2 + 1) (S n) Hs Hb) as (v & n' & rest & E & Hn).
      exists v, n', rest. split; [exact E | lia].
    + cbn. exists acc, n, s. split; [reflexivity | lia].
Qed.

(** A [b] behind the second character makes [int(s, 2)] raise. *)
Lemma int_b_raises (s : string) :
  Spec.all_chars Spec.is_bin_char s = true -> Spec.has_b (Py.drop 2 s) = true ->
  Py.int s 2 = None.
Proof.
  intros Hs Hb.
  destruct s as [|c0 [|c1 r]]; try discriminate.
  cbn [Py.drop] in Hb.
  cbn [Spec.all_chars] in Hs.
  apply andb_true_iff in Hs as [H0 Hs]. apply andb_true_iff in Hs as [H1 Hr].
  assert (Hscan : forall t : string,
             Spec.all_chars Spec.is_bin_char t = true -> Spec.has_b t = true ->
             match t with
             | String "_" _ => None
             | s3 =>
                 match Py.scan_digits 2 false 0 0 s3 with
                 | Some (v, n, rest) =>
                     match n, Py.skip_space rest with
                     | S _, EmptyString => Some v
                     | _, _ => None
                     end
                 | None => None
                 end
             end = None).
  { intros t Ht Hbt.
    destruct (scan_digits_stops_at_b t 0 0%nat Ht Hbt) as (v & n' & rest & E & _).
    rewrite E.
    destruct t as [|x t]; [discriminate |].
    cbn [Spec.all_chars] in Ht. apply andb_true_iff in Ht as [Hx _].
    destruct (is_bin_char_cases x Hx) as [-> | [-> | ->]];
      destruct n'; reflexivity. }
  assert (Hb' : Spec.has_b (String c0 (String c1 r)) = true).
  { unfold Spec.has_b in *. cbn [Spec.all_chars].
    apply negb_true_iff in Hb. rewrite Hb.
    now rewrite !andb_false_r. }
  assert (Hall : Spec.all_chars Spec.is_bin_char (String c0 (String c1 r)) = true).
  { cbn [Spec.all_chars]. now rewrite H0, H1, Hr. }
  destruct (is_bin_char_cases c0 H0) as [-> | [-> | ->]];
    destruct (is_bin_char_cases c1 H1) as [-> | [-> | ->]];
    unfold Py.int; cbn [Py.skip_space Py.is_space Py.skip_sign];
    try (apply (Hscan _ Hall Hb')).
  (* the text starts with the radix prefix "0b" *)
  cbn.
  destruct r as [|x r]; [discriminate |].
  cbn [Spec.all_chars] in Hr. pose proof Hr as Hr'.
  apply andb_true_iff in Hr' as [Hx _].
  assert (Hall' : Spec.all_chars Spec.is_bin_char (String x r) = true)
    by exact Hr.
  destruct (is_bin_char_cases x Hx) as [-> | [-> | ->]];
    apply (Hscan _ Hall' Hb).
Qed.

End IntFacts.

Section EncoderFacts.

Import Epick.

Lemma zfill_plain (s : string) (w : nat) :
  (forall r, s <> String "+" r) -> (forall r, s <> String "-" r) ->
  Py.zfill s w = Py.zeros (w - String.length s) ++ s.
Proof.
  intros Hp Hm. unfold Py.zfill.
  destruct (Nat.leb_spec w (String.length s)) as [Hle | Hlt].
  - replace (w - String.length s)%nat with 0%nat by lia. reflexivity.
  - destruct s as [|c r]; [reflexivity |].
    destruct (Ascii.eqb_spec c "+") as [-> | Hc1]; [now elim (Hp r) |].
    destruct (Ascii.eqb_spec c "-") as [-> | Hc2]; [now elim (Hm r) |].
    destruct c as [[] [] [] [] [] [] [] []]; try reflexivity; congruence.
Qed.

Lemma digits2_bits n : Spec.is_bits (Py.digits 2 n) = true.
Proof. apply to_digits_bits. reflexivity. Qed.

Lemma digits_length base n :
  (0 < String.length (Py.digits base n) <= S (Z.to_nat (Z.log2 n)))%nat.
Proof.
  unfold Py.digits.
  pose proof (to_digits_length base (Z.to_nat (Z.log2 n)) n "") as H.
  change (String.length "") with 0%nat in H. lia.
Qed.

Lemma bits_no_sign (s : string) :
  Spec.is_bits s = true ->
  (forall r, s <> String "+" r) /\ (forall r, s <> String "-" r).
Proof. intros Hs. split; intros r ->; discriminate. Qed.

Lemma bin_nonneg n : 0 <= n -> Py.drop 2 (Py.bin n) = Py.digits 2 n.
Proof.
  intros Hn. unfold Py.bin, Py.render.
  destruct (Z.ltb_spec n 0); [lia |]. rewrite Z.abs_eq by lia. reflexivity.
Qed.

Lemma bin_neg n :
  n < 0 -> Py.drop 2 (Py.bin n) = String "b" (Py.digits 2 (- n)).
Proof.
  intros Hn. unfold Py.bin, Py.render.
  destruct (Z.ltb_spec n 0); [| lia]. rewrite Z.abs_neq by lia. reflexivity.
Qed.

(** [decimalToBinaryString] of a non-negative number: its binary digits
    behind as many zeros as they leave of [length]. *)
Lemma decimalToBinaryString_nonneg n (length : nat) :
  0 <= n ->
  decimalToBinaryString n length
  = Py.zeros (length - String.length (Py.digits 2 n)) ++ Py.digits 2 n.
Proof.
  intros Hn. unfold decimalToBinaryString. rewrite bin_nonneg by exact Hn.
  apply zfill_plain; apply bits_no_sign, digits2_bits.
Qed.

(** Of a negative number: the [b] that the slice leaves of the sign and
    prefix ["-0b"], padded like a digit. *)
Lemma decimalToBinaryString_neg n (length : nat) :
  n < 0 ->
  decimalToBinaryString n length
  = Py.zeros (length - S (String.length (Py.digits 2 (- n))))
    ++ String "b" (Py.digits 2 (- n)).
Proof.
  intros Hn. unfold decimalToBinaryString. rewrite bin_neg by exact Hn.
  apply zfill_plain; intros r; discriminate.
Qed.

Lemma decimalToBinaryString_bits n length :
  0 <= n -> Spec.is_bits (decimalToBinaryString n length) = true.
Proof.
  intros Hn. rewrite decimalToBinaryString_nonneg by exact Hn.
  unfold Spec.is_bits. rewrite all_chars_append.
  fold (Spec.is_bits (Py.zeros (length - String.length (Py.digits 2 n)))).
  fold (Spec.is_bits (Py.digits 2 n)).
  now rewrite is_bits_zeros, digits2_bits.
Qed.

Lemma decimalToBinaryString_value n length :
  0 <= n -> Spec.binary_value (decimalToBinaryString n length) = n.
Proof.
  intros Hn. rewrite decimalToBinaryString_nonneg by exact Hn.
  unfold Spec.binary_value. rewrite value_from_append, value_from_zeros.
  rewrite Z.mul_0_l. apply digits_value; lia.
Qed.

Lemma decimalToBinaryString_length n (length : nat) :
  (length <= String.length (decimalToBinaryString n length))%nat.
Proof.
  destruct (Z.lt_ge_cases n 0) as [Hn | Hn].
  - rewrite decimalToBinaryString_neg by exact Hn.
    rewrite length_append, length_zeros. simpl. lia.
  - rewrite decimalToBinaryString_nonneg by exact Hn.
    rewrite length_append, length_zeros. lia.
Qed.

(** A byte takes exactly eight digits. *)
Lemma decimalToBinaryString_byte n :
  0 <= n <= 255 -> String.length (decimalToBinaryString n 8) = 8%nat.
Proof.
  intros Hn. rewrite decimalToBinaryString_nonneg by lia.
  rewrite length_append, length_zeros.
  pose proof (digits_length 2 n) as Hl.
  assert (Z.log2 n < 8).
  { destruct (Z.eq_dec n 0) as [-> | Hnz]; [reflexivity |].
    apply Z.log2_lt_pow2; lia. }
  pose proof (Z.log2_nonneg n). lia.
Qed.

Lemma is_bits_bin_chars (s : string) :
  Spec.is_bits s = true -> Spec.all_chars Spec.is_bin_char s = true.
Proof.
  apply all_chars_weaken. intros c Hc. unfold Spec.is_bin_char. now rewrite Hc.
Qed.

Lemma decimalToBinaryString_chars n length :
  Spec.all_chars Spec.is_bin_char (decimalToBinaryString n length) = true.
Proof.
  destruct (Z.lt_ge_cases n 0) as [Hn | Hn].
  - rewrite decimalToBinaryString_neg by exact Hn.
    rewrite all_chars_append. cbn [Spec.all_chars].
    rewrite !is_bits_bin_chars; auto using is_bits_zeros, digits2_bits.
  - apply is_bits_bin_chars, decimalToBinaryString_bits, Hn.
Qed.

Lemma has_b_append_r (a b : string) : Spec.has_b b = true -> Spec.has_b (a ++ b) = true.
Proof.
  unfold Spec.has_b. rewrite all_chars_append. intros H.
  apply negb_true_iff in H. rewrite H. now rewrite andb_false_r.
Qed.

Lemma decimalToBinaryString_has_b n length :
  n < 0 -> Spec.has_b (decimalToBinaryString n length) = true.
Proof.
  intros Hn. rewrite decimalToBinaryString_neg by exact Hn.
  apply has_b_append_r. reflexivity.
Qed.

(** [MAX_VACUUM] is the identity on what it can encode, and raises on a
    negative argument. *)
Lemma MAX_VACUUM_nonneg v : 0 <= v -> CMD_HANDLER.MAX_VACUUM v = Some v.
Proof.
  intros Hv. unfold CMD_HANDLER.MAX_VACUUM, binaryStringToDecimal.
  rewrite int_bits.
  - f_equal. unfold Spec.binary_value.
    rewrite value_from_append. cbn [Spec.value_from]. simpl Z.add.
    apply (decimalToBinaryString_value v 8 Hv).
  - unfold Spec.is_bits. rewrite all_chars_append.
    fold (Spec.is_bits (decimalToBinaryString v 8)).
    now rewrite decimalToBinaryString_bits.
  - discriminate.
Qed.

Lemma MAX_VACUUM_neg v : v < 0 -> CMD_HANDLER.MAX_VACUUM v = None.
Proof.
  intros Hv. unfold CMD_HANDLER.MAX_VACUUM, binaryStringToDecimal.
  apply int_b_raises.
  - rewrite all_chars_append. now rewrite decimalToBinaryString_chars.
  - change (Spec.has_b ("000000" ++ decimalToBinaryString v 8) = true).
    apply has_b_append_r, decimalToBinaryString_has_b, Hv.
Qed.

(** [ACTION] on flags that are binary digits. *)
Lemma ACTION_bits (x : list string) :
  Spec.is_bits (Py.join "" x) = true ->
  CMD_HANDLER.ACTION x = Some (Z.shiftl (Spec.binary_value (Py.join "" x)) 8).
Proof.
  intros Hx. unfold CMD_HANDLER.ACTION, binaryStringToDecimal.
  rewrite int_bits.
  - f_equal. unfold Spec.binary_value.
    rewrite value_from_append. cbn [Spec.value_from].
    change (Py.digit_value "0") with 0.
    rewrite Z.shiftl_mul_pow2 by lia. change (2 ^ 8) with 256. ring.
  - unfold Spec.is_bits. rewrite all_chars_append. fold (Spec.is_bits (Py.join "" x)).
    now rewrite Hx.
  - destruct (Py.join "" x); discriminate.
Qed.

End EncoderFacts.

Section ActionWord.

Import Epick.

Lemma value_from_bounds (s : string) acc :
  Spec.is_bits s = true -> 0 <= acc ->
  acc * 2 ^ Z.of_nat (String.length s) <= Spec.value_from 2 acc s
  < (acc + 1) * 2 ^ Z.of_nat (String.length s).
Proof.
  revert acc. induction s as [|c s IH]; intros acc Hs Hacc.
  - simpl. lia.
  - unfold Spec.is_bits in Hs. cbn [Spec.all_chars] in Hs.
    apply andb_true_iff in Hs as [Hc Hs].
    cbn [Spec.value_from String.length].
    rewrite Nat2Z.inj_succ, Z.pow_succ_r by lia.
    assert (Hp : 0 < 2 ^ Z.of_nat (String.length s))
      by (apply Z.pow_pos_nonneg; lia).
    destruct (is_bit_cases c Hc) as [-> | ->].
    + change (Py.digit_value "0") with 0.
      specialize (IH (acc * 2 + 0) Hs ltac:(lia)). nia.
    + change (Py.digit_value "1") with 1.
      specialize (IH (acc * 2 + 1) Hs ltac:(lia)). nia.
Qed.

Lemma join_four (a b c d : string) : Py.join "" [a; b; c; d] = a ++ b ++ c ++ d.
Proof. reflexivity. Qed.

Lemma is_bits_append (a b : string) :
  Spec.is_bits a = true -> Spec.is_bits b = true ->
  Spec.is_bits (a ++ b) = true.
Proof.
  unfold Spec.is_bits. intros Ha Hb. now rewrite all_chars_append, Ha, Hb.
Qed.

End ActionWord.

(** C7.  The action-word encoder is a pure, bit-exact function: on flag
    texts made of binary digits, [ACTION] returns the binary value of
    [atr ++ gto ++ mod_ ++ act] shifted left by eight bits, so the low byte of
    the word is zero and flags of at most eight bits fill the high byte of a
    16-bit word; [MAX_VACUUM] returns [v] itself for [0 <= v <= 255]; and
    evaluating the encoder touches no state, so that it yields this word
    in every state of the gripper object, whatever was called before. *)
Theorem action_word_encoding (atr gto mod_ act : string) (v : Z) :
  Spec.is_bits atr = true -> Spec.is_bits gto = true ->
  Spec.is_bits mod_ = true -> Spec.is_bits act = true ->
  0 <= v <= 255 ->
  let word := Z.shiftl (Spec.binary_value (atr ++ gto ++ mod_ ++ act)) 8 in
  Epick.CMD_HANDLER.ACTION [atr; gto; mod_; act] = Some word
  /\ Z.land word 255 = 0
  /\ ((String.length (atr ++ gto ++ mod_ ++ act) <= 8)%nat -> 0 <= word < 2 ^ 16)
  /\ Epick.CMD_HANDLER.MAX_VACUUM v = Some v
  /\ (forall dashboard tid st,
         Epick.run dashboard tid
           (Epick.lift (Epick.CMD_HANDLER.ACTION [atr; gto; mod_; act])) st
         = (Epick.Value word, st))
  /\ (forall dashboard tid st,
         Epick.run dashboard tid (Epick.lift (Epick.CMD_HANDLER.MAX_VACUUM v)) st
         = (Epick.Value v, st)).
Proof.
  intros Hatr Hgto Hmod Hact Hv word.
  assert (Hbits : Spec.is_bits (atr ++ gto ++ mod_ ++ act) = true)
    by (repeat apply is_bits_append; assumption).
  assert (HA : Epick.CMD_HANDLER.ACTION [atr; gto; mod_; act] = Some word).
  { rewrite ACTION_bits; rewrite join_four; [reflexivity | exact Hbits]. }
  assert (HM : Epick.CMD_HANDLER.MAX_VACUUM v = Some v)
    by (apply MAX_VACUUM_nonneg; lia).
  pose proof (value_from_bounds _ 0 Hbits ltac:(lia)) as Hb.
  fold (Spec.binary_value (atr ++ gto ++ mod_ ++ act)) in Hb.
  repeat split.
  - exact HA.
  - subst word. change 255 with (Z.ones 8). rewrite Z.land_ones by lia.
    rewrite Z.shiftl_mul_pow2 by lia. apply Z.mod_mul. lia.
  - subst word. rewrite Z.shiftl_mul_pow2 by lia. lia.
  - subst word. rewrite Z.shiftl_mul_pow2 by lia.
    assert (2 ^ Z.of_nat (String.length (atr ++ gto ++ mod_ ++ act)) <= 2 ^ 8)
      by (apply Z.pow_le_mono_r; lia).
    change (2 ^ 16) with (2 ^ 8 * 2 ^ 8). nia.
  - exact HM.
  - intros. rewrite HA. reflexivity.
  - intros. rewrite HM. reflexivity.
Qed.

(** The fault-clear word of the table, [atr=0 gto=0 mod=01 act=0], and the
    release threshold. *)
Lemma action_word_encoding_witness :
  (Spec.is_bits "0" = true /\ Spec.is_bits "01" = true /\ 0 <= 255 <= 255)
  /\ Epick.CMD_HANDLER.ACTION ["0"; "0"; "01"; "0"] = Some 512
  /\ Epick.CMD_HANDLER.MAX_VACUUM 255 = Some 255.
Proof.
  split; [repeat split; lia |].
  destruct (action_word_encoding "0" "0" "01" "0" 255
              eq_refl eq_refl eq_refl eq_refl ltac:(lia))
    as (HA & _ & _ & HM & _).
  split; [exact HA | exact HM].
Defined.

(* ================================================================== *)
(** * The gripper methods run by one thread *)
(* ================================================================== *)

Section GripperRuns.

Import Epick.
Variable dashboard : list DashCall -> DashCall -> string.

Lemma run_bind {A B : Type} tid (p : Prog A) (k : A -> Prog B) st :
  run dashboard tid (bind p k) st
  = match run dashboard tid p st with
    | (Value a, st') => run dashboard tid (k a) st'
    | (Exception e, st') => (Exception e, st')
    | (Blocked, st') => (Blocked, st')
    end.
Proof.
  revert st. induction p as [a | e | c k' IH | ms k' IH | k' IH | k' IH | k' IH | i k' IH];
    intros st; cbn [bind run]; auto.
  - destruct (write_lock st); auto.
  - destruct (write_lock st); auto.
Qed.

Lemma run_lift_some {A B : Type} tid (a : A) (k : A -> Prog B) st :
  run dashboard tid (bind (lift (Some a)) k) st = run dashboard tid (k a) st.
Proof. reflexivity. Qed.

Lemma run_lift_none {A B : Type} tid (k : A -> Prog B) st :
  run dashboard tid (bind (lift None) k) st = (Exception ValueError, st).
Proof. reflexivity. Qed.

Lemma calls_app l1 l2 : calls (l1 ++ l2) = (calls l1 ++ calls l2)%list.
Proof.
  induction l1 as [|[t e] l1 IH]; [reflexivity |].
  destruct e; cbn; now rewrite IH.
Qed.

(** A write on an open session with the lock free goes through. *)
Lemma run_write tid st address datas :
  ModbusIndex st <> None -> write_lock st = None ->
  run dashboard tid (write_by_485 address datas) st
  = (Value (Spec.write_reply dashboard st address datas),
     Spec.after tid st [Spec.Write address datas]).
Proof.
  intros Hi Hl. destruct st as [index lock l]. cbn in Hi, Hl. subst lock.
  destruct index as [i |]; [| congruence].
  unfold write_by_485, Spec.write_reply. cbn.
  unfold Spec.after, Spec.events_of, Spec.write_events, record, set_lock. cbn.
  rewrite <- !app_assoc. cbn. rewrite calls_app. reflexivity.
Qed.

Lemma run_write_then {B : Type} tid st address datas (k : string -> Prog B) :
  ModbusIndex st <> None -> write_lock st = None ->
  run dashboard tid (bind (write_by_485 address datas) k) st
  = run dashboard tid (k (Spec.write_reply dashboard st address datas))
      (Spec.after tid st [Spec.Write address datas]).
Proof. intros Hi Hl. now rewrite run_bind, run_write. Qed.

Lemma after_index tid st steps :
  ModbusIndex (Spec.after tid st steps) = ModbusIndex st.
Proof. reflexivity. Qed.

Lemma after_lock tid st steps : write_lock (Spec.after tid st steps) = None.
Proof. reflexivity. Qed.

Lemma after_after tid st s1 s2 :
  Spec.after tid (Spec.after tid st s1) s2 = Spec.after tid st (s1 ++ s2).
Proof.
  unfold Spec.after, Spec.events_of. cbn [ModbusIndex log].
  now rewrite flat_map_app, app_assoc.
Qed.

Lemma hold_regs_app l1 l2 :
  hold_regs (l1 ++ l2) = (hold_regs l1 ++ hold_regs l2)%list.
Proof.
  induction l1 as [|c l1 IH]; [reflexivity |].
  destruct c; cbn; now rewrite IH.
Qed.

Lemma events_of_cons tid index s steps :
  Spec.events_of tid index (s :: steps)
  = (Spec.events_of tid index [s] ++ Spec.events_of tid index steps)%list.
Proof. unfold Spec.events_of. cbn [flat_map]. now rewrite app_nil_r. Qed.

Lemma writes_of_events tid index steps :
  hold_regs (calls (Spec.events_of tid index steps)) = Spec.writes_in steps.
Proof.
  induction steps as [|s steps IH]; [reflexivity |].
  rewrite events_of_cons, calls_app, hold_regs_app, IH.
  destruct s; reflexivity.
Qed.

Lemma writes_of_after tid st steps :
  Spec.writes_of (Spec.after tid st steps)
  = (Spec.writes_of st ++ Spec.writes_in steps)%list.
Proof.
  unfold Spec.writes_of, Spec.after. cbn [log].
  now rewrite calls_app, hold_regs_app, writes_of_events.
Qed.

(** The action words of the table. *)
Lemma ACTION_clear_fault :
  CMD_HANDLER.ACTION [ACTION_CMD.ATR.NORMAL; ACTION_CMD.GTO.HOLD;
                      ACTION_CMD.MOD.ADVANCED; ACTION_CMD.ACT.CLEAR_FAULT_STATUS]
  = Some 512.
Proof. reflexivity. Qed.

Lemma ACTION_enable :
  CMD_HANDLER.ACTION [ACTION_CMD.ATR.NORMAL; ACTION_CMD.GTO.HOLD;
                      ACTION_CMD.MOD.ADVANCED; ACTION_CMD.ACT.ENABLE]
  = Some 768.
Proof. reflexivity. Qed.

Lemma ACTION_execute :
  CMD_HANDLER.ACTION [ACTION_CMD.ATR.NORMAL; ACTION_CMD.GTO.CONTROLED;
                      ACTION_CMD.MOD.ADVANCED; ACTION_CMD.ACT.ENABLE]
  = Some 2816.
Proof. reflexivity. Qed.

End GripperRuns.

Section GripRuns.

Import Epick.
Variable dashboard : list DashCall -> DashCall -> string.

Lemma value_from_shift base (s : string) acc :
  Spec.value_from base acc s
  = acc * base ^ Z.of_nat (String.length s) + Spec.value_from base 0 s.
Proof.
  revert acc. induction s as [|c s IH]; intros acc.
  - simpl. lia.
  - cbn [Spec.value_from String.length].
    rewrite IH, (IH (0 * base + Py.digit_value c)).
    rewrite Nat2Z.inj_succ, Z.pow_succ_r by lia. ring.
Qed.

(** The second parameter register: the timeout count in the high byte, the
    minimum vacuum in the low byte. *)
Lemma timeout_and_min c m :
  0 <= c -> 0 <= m <= 255 ->
  binaryStringToDecimal (CMD_HANDLER.TIMEOUT c ++ CMD_HANDLER.MIN_VACUUM m)
  = Some (256 * c + m).
Proof.
  intros Hc Hm. unfold binaryStringToDecimal, CMD_HANDLER.TIMEOUT,
    CMD_HANDLER.MIN_VACUUM.
  rewrite int_bits.
  - f_equal. unfold Spec.binary_value.
    rewrite value_from_append, value_from_shift.
    rewrite decimalToBinaryString_byte by exact Hm.
    fold (Spec.binary_value (decimalToBinaryString c 8)).
    fold (Spec.binary_value (decimalToBinaryString m 8)).
    rewrite !decimalToBinaryString_value by lia.
    change (2 ^ Z.of_nat 8) with 256. ring.
  - apply is_bits_append; apply decimalToBinaryString_bits; lia.
  - pose proof (decimalToBinaryString_length c 8) as Hl.
    destruct (decimalToBinaryString c 8); [simpl in Hl; lia | discriminate].
Qed.

(** With a negative minimum the text holds a [b] and the conversion raises,
    whatever the timeout count. *)
Lemma timeout_and_min_raises c m :
  m < 0 ->
  binaryStringToDecimal (CMD_HANDLER.TIMEOUT c ++ CMD_HANDLER.MIN_VACUUM m)
  = None.
Proof.
  intros Hm. unfold binaryStringToDecimal, CMD_HANDLER.TIMEOUT,
    CMD_HANDLER.MIN_VACUUM.
  apply int_b_raises.
  - now rewrite all_chars_append, !decimalToBinaryString_chars.
  - rewrite drop_append.
    + apply has_b_append_r, decimalToBinaryString_has_b, Hm.
    + pose proof (decimalToBinaryString_length c 8). lia.
Qed.

Lemma ceil_div_100_spec t :
  100 * (ceil_div_100 t - 1) < t <= 100 * ceil_div_100 t.
Proof.
  unfold ceil_div_100.
  pose proof (Z.div_mod (- t) 100 ltac:(lia)).
  pose proof (Z.mod_pos_bound (- t) 100 ltac:(lia)). lia.
Qed.

Lemma ceil_div_100_nonneg t : 0 <= t -> 0 <= ceil_div_100 t.
Proof. intros Ht. pose proof (ceil_div_100_spec t). lia. Qed.


(** [grip] with a maximum or minimum above 100: the fault-clear write is
    sent, then the encoding raises. *)
Lemma grip_raises tid st max_v min_v timeout :
  ModbusIndex st <> None -> write_lock st = None ->
  100 < max_v \/ 100 < min_v ->
  run dashboard tid (grip max_v min_v timeout) st
  = (Exception ValueError,
     Spec.after tid st [Spec.Write ROBORIQ_EPICK_WRITE_ADDRESS [512]]).
Proof.
  intros Hi Hl Hbad. unfold grip.
  rewrite ACTION_clear_fault, run_lift_some.
  rewrite run_write_then by assumption.
  destruct (Z.lt_ge_cases 100 max_v) as [Hmax | Hmax].
  - rewrite MAX_VACUUM_neg by lia. apply run_lift_none.
  - rewrite MAX_VACUUM_nonneg, run_lift_some by lia.
    rewrite timeout_and_min_raises by lia. apply run_lift_none.
Qed.

Lemma init_runs tid st :
  ModbusIndex st <> None -> write_lock st = None ->
  exists r,
    run dashboard tid init st
    = (Value r,
       Spec.after tid st
         [Spec.Write ROBORIQ_EPICK_WRITE_ADDRESS [512; 255];
          Spec.Write ROBORIQ_EPICK_WRITE_ADDRESS [768; 255]]).
Proof.
  intros Hi Hl. unfold init.
  rewrite ACTION_clear_fault, run_lift_some.
  rewrite (MAX_VACUUM_nonneg RELEASE_VACUUM), run_lift_some
    by (unfold RELEASE_VACUUM; lia).
  rewrite run_write_then by assumption.
  rewrite ACTION_enable, run_lift_some.
  rewrite run_write by (rewrite ?after_index, ?after_lock; auto).
  eexists. now rewrite !after_after.
Qed.

Lemma release_runs tid st :
  ModbusIndex st <> None -> write_lock st = None ->
  exists r,
    run dashboard tid release st
    = (Value r,
       Spec.after tid st
         [Spec.Write ROBORIQ_EPICK_WRITE_ADDRESS [512];
          Spec.Write ROBORIQ_EPICK_WRITE_ADDRESS [2816; 255];
          Spec.Pause 1000;
          Spec.Write ROBORIQ_EPICK_WRITE_ADDRESS [768]]).
Proof.
  intros Hi Hl. unfold release.
  rewrite ACTION_clear_fault, run_lift_some.
  rewrite run_write_then by assumption.
  rewrite ACTION_execute, run_lift_some.
  rewrite (MAX_VACUUM_nonneg RELEASE_VACUUM), run_lift_some
    by (unfold RELEASE_VACUUM; lia).
  rewrite run_write_then by (rewrite ?after_index, ?after_lock; auto).
  cbn [run].
  match goal with
  | |- context [record ?s tid (EvSleep 1000)] =>
      change (record s tid (EvSleep 1000))
        with (Spec.after tid s [Spec.Pause 1000])
  end.
  rewrite ACTION_enable, run_lift_some.
  rewrite run_write by (rewrite ?after_index, ?after_lock; auto).
  eexists. now rewrite !after_after.
Qed.

End GripRuns.



(** C8.  A register write on a gripper whose session identifier is absent
    returns the text "Error: No Modbus Index": nothing is raised, nothing is
    sent, the object is left as it was, and the caller goes on with that
    text; [init] and [release] called in that state end the same way. *)
Theorem write_without_session
        (dashboard : list Epick.DashCall -> Epick.DashCall -> string)
        (tid : nat) (st : Epick.State) (address : Z) (datas : list Z) :
  Epick.ModbusIndex st = None ->
  Epick.run dashboard tid (Epick.write_by_485 address datas) st
  = (Epick.Value "Error: No Modbus Index", st)
  /\ (forall (B : Type) (k : string -> Epick.Prog B),
         Epick.run dashboard tid (Epick.bind (Epick.write_by_485 address datas) k) st
         = Epick.run dashboard tid (k "Error: No Modbus Index") st)
  /\ Epick.run dashboard tid Epick.init st
     = (Epick.Value "Error: No Modbus Index", st)
  /\ Epick.run dashboard tid Epick.release st
     = (Epick.Value "Error: No Modbus Index",
        Epick.record st tid (Epick.EvSleep 1000)).
Proof.
  intros Hi.
  assert (Hw : forall a d,
             Epick.run dashboard tid (Epick.write_by_485 a d) st
             = (Epick.Value "Error: No Modbus Index", st)).
  { intros a d. unfold Epick.write_by_485. cbn. now rewrite Hi. }
  assert (Hw' : forall a d st',
             Epick.ModbusIndex st' = None ->
             Epick.run dashboard tid (Epick.write_by_485 a d) st'
             = (Epick.Value "Error: No Modbus Index", st')).
  { intros a d st' H. unfold Epick.write_by_485. cbn. now rewrite H. }
  repeat split.
  - apply Hw.
  - intros B k. now rewrite run_bind, Hw.
  - unfold Epick.init.
    rewrite ACTION_clear_fault, run_lift_some.
    rewrite (MAX_VACUUM_nonneg Epick.RELEASE_VACUUM), run_lift_some
      by (unfold Epick.RELEASE_VACUUM; lia).
    rewrite run_bind, Hw, ACTION_enable, run_lift_some. apply Hw.
  - unfold Epick.release.
    rewrite ACTION_clear_fault, run_lift_some.
    rewrite run_bind, Hw, ACTION_execute, run_lift_some.
    rewrite (MAX_VACUUM_nonneg Epick.RELEASE_VACUUM), run_lift_some
      by (unfold Epick.RELEASE_VACUUM; lia).
    rewrite run_bind, Hw. cbn [Epick.run].
    rewrite ACTION_enable, run_lift_some. now apply Hw'.
Qed.

(** A fresh gripper object, before any channel was created. *)
Lemma write_without_session_witness :
  let st := Epick.mk_state None None [] in
  Epick.ModbusIndex st = None
  /\ Epick.run (fun _ _ => "0") 0%nat (Epick.write_by_485 1000 [512]) st
     = (Epick.Value "Error: No Modbus Index", st).
Proof.
  intros st. split; [reflexivity |].
  exact (proj1 (write_without_session (fun _ _ => "0") 0%nat st 1000 [512]
                  eq_refl)).
Defined.



(* ================================================================== *)
(** * The telemetry feed *)
(* ================================================================== *)

(** Only the sentinel prints as ["0x123456789abcdef"]. *)
Lemma hex_magic_only v : Py.hex v = "0x123456789abcdef" -> v = MAGIC.
Proof.
  unfold Py.hex, Py.render. destruct (Z.ltb_spec v 0) as [Hneg | Hpos].
  - discriminate.
  - rewrite Z.abs_eq by exact Hpos. cbn [append]. intros H.
    injection H as H.
    apply (f_equal (Spec.value_from 16 0)) in H.
    rewrite digits_value in H by lia. exact H.
Qed.

Lemma hex_test_false v :
  v <> MAGIC -> String.eqb (Py.hex v) "0x123456789abcdef" = false.
Proof.
  intros Hv. apply String.eqb_neq. intros H. apply Hv, hex_magic_only, H.
Qed.

(** C2.  A frame whose test value is not the sentinel [0x0123456789ABCDEF]
    publishes nothing.  In [DobotDemo.GetFeed] the snapshot [feedData] keeps
    every field and the loop goes on with the next frame; in the windows'
    [feed_back] no label (speed, mode, digital inputs and outputs, joints,
    pose) changes, the thread stays alive and the loop goes on with the next
    read. *)
Theorem bad_magic_publishes_nothing
        {float : Type} (around4 : float -> float)
        (display_error_info : RobotUI.Labels float -> RobotUI.Labels float)
        (f : Frame.t float)
        (feedData : DobotDemo.item) (frames : list (option (Frame.t float)))
        (ui : RobotUI.Labels float)
        (reads : list (bool * RobotUI.Received float)) :
  Frame.TestValue f <> MAGIC ->
  DobotDemo.GetFeed_step feedData (Some f) = feedData
  /\ DobotDemo.GetFeed (Some f :: frames) feedData
     = DobotDemo.GetFeed frames feedData
  /\ RobotUI.feed_back_step around4 display_error_info ui (RobotUI.Decoded f)
     = (ui, true)
  /\ RobotUI.feed_back around4 display_error_info
       ((true, RobotUI.Decoded f) :: reads) ui
     = RobotUI.feed_back around4 display_error_info reads ui
  /\ RobotUI.feed_back_step_epick around4 display_error_info ui
       (RobotUI.Decoded f) = ui
  /\ RobotUI.feed_back_epick around4 display_error_info
       ((true, RobotUI.Decoded f) :: reads) ui
     = RobotUI.feed_back_epick around4 display_error_info reads ui.
Proof.
  intros Hbad. pose proof (hex_test_false _ Hbad) as Hhex.
  assert (H1 : DobotDemo.GetFeed_step feedData (Some f) = feedData)
    by (unfold DobotDemo.GetFeed_step; now rewrite Hhex).
  assert (H2 : RobotUI.feed_back_step around4 display_error_info ui
                 (RobotUI.Decoded f) = (ui, true))
    by (unfold RobotUI.feed_back_step; now rewrite Hhex).
  assert (H3 : RobotUI.feed_back_step_epick around4 display_error_info ui
                 (RobotUI.Decoded f) = ui)
    by (unfold RobotUI.feed_back_step_epick; now rewrite Hhex).
  repeat split.
  - exact H1.
  - cbn [DobotDemo.GetFeed]. now rewrite H1.
  - exact H2.
  - cbn [RobotUI.feed_back]. now rewrite H2.
  - exact H3.
  - cbn [RobotUI.feed_back_epick]. now rewrite H3.
Qed.

(** A frame whose test value has one bit flipped, on a snapshot published by
    an earlier valid frame. *)
Lemma bad_magic_publishes_nothing_witness :
  let bad := Frame.mk 1440 (MAGIC - 1) 7 41 0 0 tt [] [] in
  let good := Frame.mk 1440 MAGIC 5 40 3 1 tt [] [] in
  let published := DobotDemo.GetFeed [Some good] DobotDemo.item_init in
  Frame.TestValue bad <> MAGIC
  /\ published = DobotDemo.mk_item 5 40 1440 3 1
  /\ DobotDemo.GetFeed_step published (Some bad) = published.
Proof.
  intros bad good published.
  assert (Hbad : Frame.TestValue bad <> MAGIC) by discriminate.
  split; [exact Hbad |]. split; [reflexivity |].
  exact (proj1 (bad_magic_publishes_nothing
                  (fun x => x) (fun u => u) bad published []
                  (RobotUI.mk_labels None "" "" "" [] []) [] Hbad)).
Defined.

(* ================================================================== *)
(** * The completion wait of [RunPoint] *)
(* ================================================================== *)

Section Await.

Import DobotDemo.




End Await.




(* ================================================================== *)
(** * Replies of the controller *)
(* ================================================================== *)

Section Contains.



End Contains.



(** C5 at the failing input.  On the rejected reply "-1,17" [RunPoint]
    sends the motion command and nothing else, no stop, and takes 17 for
    the command id: it is inside the completion loop, or has returned from
    it. *)
Theorem RunPoint_ignores_rejection
        (pose : Type) (feed : nat -> DobotDemo.item) (fuel : nat)
        (point_list : pose) :
  DobotDemo.parseResultId "-1,17" = Some [-1; 17]
  /\ DobotDemo.RunPoint (fun _ => "-1,17") feed fuel point_list
     = ([DobotDemo.MovJ point_list 0],
        match DobotDemo.await fuel feed 0 17 with
        | Some k => DobotDemo.Returned k
        | None => DobotDemo.Polling 17
        end).
Proof. split; reflexivity. Qed.

(** The replay loop does what [RunPoint] misses: on a reply whose first
    integer is negative it sends a stop and ends with an error, without
    sending the next pose. *)
Lemma replay_stops_on_rejection
      (pose : Type) (dashboard : list (Replay.Cmd pose) -> Replay.Cmd pose -> string)
      (passes idx : nat) (poses : list pose) (sent : list (Replay.Cmd pose))
      (p : pose) (code : Z) :
  nth_error poses idx = Some p ->
  Replay._parse_result_code
    (dashboard sent (Replay.MovL p 0 Replay.params)) = Some code ->
  code < 0 ->
  Replay.send_from dashboard (S passes) idx poses sent
  = ((sent ++ [Replay.MovL p 0 Replay.params; Replay.Stop])%list, true).
Proof.
  intros Hp Hcode Hneg. cbn [Replay.send_from]. rewrite Hp, Hcode.
  destruct (Z.ltb_spec code 0); [| lia].
  now rewrite <- app_assoc.
Qed.

Lemma replay_main_rejected :
  Replay.main (fun _ _ => "-1,17") [tt; tt; tt]
  = ([Replay.EnableRobot; Replay.VelL 20;
      Replay.MovL tt 0 (Replay.blend_r 2); Replay.Stop; Replay.close], 1).
Proof. reflexivity. Qed.

Section Scanner.

Lemma digit_cases c :
  Py.is_digit c = true ->
  c = "0"%char \/ c = "1"%char \/ c = "2"%char \/ c = "3"%char \/ c = "4"%char
  \/ c = "5"%char \/ c = "6"%char \/ c = "7"%char \/ c = "8"%char
  \/ c = "9"%char.
Proof.
  destruct c as [[] [] [] [] [] [] [] []]; intros H;
    try discriminate H; auto 11.
Qed.

Lemma digit_not_dash c : Py.is_digit c = true -> Ascii.eqb c "-" = false.
Proof.
  intros H. destruct (digit_cases c H) as [-> | [-> | [-> | [-> | [-> | [->
    | [-> | [-> | [-> | ->]]]]]]]]]; reflexivity.
Qed.

Lemma dash_not_digit : Py.is_digit "-" = false.
Proof. reflexivity. Qed.

Lemma match_int_unfold c r :
  Py.match_int (String c r)
  = if Ascii.eqb c "-" then
      match Py.span_digits r with
      | (EmptyString, _) => None
      | (d, rest) => Some (String "-" d, rest)
      end
    else
      match Py.span_digits (String c r) with
      | (EmptyString, _) => None
      | (d, rest) => Some (d, rest)
      end.
Proof. destruct c as [[] [] [] [] [] [] [] []]; reflexivity. Qed.

Lemma span_digits_stop (s : string) :
  Spec.starts_with_digit s = false -> Py.span_digits s = ("", s).
Proof.
  destruct s as [|c r]; [reflexivity |]. cbn. now intros ->.
Qed.

Lemma span_digits_run (d x : string) :
  Spec.all_digits d = true -> Spec.starts_with_digit x = false ->
  Py.span_digits (d ++ x) = (d, x).
Proof.
  intros Hd Hx. induction d as [|c d IH].
  - now apply span_digits_stop.
  - unfold Spec.all_digits in Hd. cbn [Spec.all_chars] in Hd.
    apply andb_true_iff in Hd as [Hc Hd].
    cbn [append Py.span_digits]. now rewrite Hc, IH.
Qed.

Lemma span_digits_split (s d rest : string) :
  Py.span_digits s = (d, rest) -> s = d ++ rest.
Proof.
  revert d rest. induction s as [|c s IH]; intros d rest; cbn [Py.span_digits].
  - now intros [= <- <-].
  - destruct (Py.is_digit c).
    + destruct (Py.span_digits s) as [d' rest'] eqn:E.
      intros [= <- <-]. cbn. f_equal. now apply IH.
    + now intros [= <- <-].
Qed.

Lemma match_int_shorter (s tok rest : string) :
  Py.match_int s = Some (tok, rest) ->
  (String.length rest < String.length s)%nat.
Proof.
  destruct s as [|c r]; [discriminate |].
  rewrite match_int_unfold. destruct (Ascii.eqb c "-").
  - destruct (Py.span_digits r) as [d rest'] eqn:E.
    apply span_digits_split in E. subst r.
    destruct d; [discriminate |]. intros [= <- <-].
    cbn. rewrite length_append. lia.
  - destruct (Py.span_digits (String c r)) as [d rest'] eqn:E.
    apply span_digits_split in E. rewrite E.
    destruct d; [discriminate |]. intros [= <- <-].
    rewrite length_append. cbn. lia.
Qed.

(** Enough fuel is as good as more. *)
Lemma findall_from_enough fuel (s : string) :
  (String.length s < fuel)%nat -> Py.findall_from fuel s = Py.findall_int s.
Proof.
  unfold Py.findall_int.
  assert (H : forall f1 f2 (t : string),
             (String.length t < f1)%nat -> (String.length t < f2)%nat ->
             Py.findall_from f1 t = Py.findall_from f2 t).
  { induction f1 as [|f1 IH]; intros f2 t H1 H2; [lia |].
    destruct f2 as [|f2]; [lia |]. cbn [Py.findall_from].
    destruct (Py.match_int t) as [[tok rest] |] eqn:E.
    - apply match_int_shorter in E. f_equal. apply IH; lia.
    - destruct t as [|c t]; [reflexivity |]. cbn in H1, H2. apply IH; lia. }
  intros Hf. apply H; [exact Hf | lia].
Qed.

Lemma findall_int_match (s tok rest : string) :
  Py.match_int s = Some (tok, rest) ->
  Py.findall_int s = tok :: Py.findall_int rest.
Proof.
  intros E. unfold Py.findall_int at 1. cbn [Py.findall_from]. rewrite E.
  f_equal. apply findall_from_enough. now apply match_int_shorter in E.
Qed.

Lemma findall_int_skip c (r : string) :
  Py.match_int (String c r) = None ->
  Py.findall_int (String c r) = Py.findall_int r.
Proof.
  intros E. unfold Py.findall_int at 1. cbn [Py.findall_from]. rewrite E.
  apply findall_from_enough. cbn. lia.
Qed.

End Scanner.

Section Tokens.

Lemma all_digits_cons c (d : string) :
  Spec.all_digits (String c d) = Py.is_digit c && Spec.all_digits d.
Proof. reflexivity. Qed.

Lemma no_digit_cons c (g : string) :
  Spec.no_digit (String c g) = negb (Py.is_digit c) && Spec.no_digit g.
Proof. reflexivity. Qed.

Lemma no_digit_start (s : string) :
  Spec.no_digit s = true -> Spec.starts_with_digit s = false.
Proof.
  destruct s as [|c r]; [reflexivity |]. rewrite no_digit_cons. cbn.
  intros H. apply andb_true_iff in H as [H _]. now apply negb_true_iff in H.
Qed.

Lemma starts_with_digit_append (a b : string) :
  Spec.starts_with_digit (a ++ b)
  = if Spec.is_empty a then Spec.starts_with_digit b
    else Spec.starts_with_digit a.
Proof. now destruct a. Qed.

(** A token is matched whole when no digit follows it. *)
Lemma match_int_token (t x : string) :
  Spec.is_token t = true -> Spec.starts_with_digit x = false ->
  Py.match_int (t ++ x) = Some (t, x).
Proof.
  intros Ht Hx. destruct t as [|c d]; [discriminate |].
  cbn [append]. rewrite match_int_unfold. unfold Spec.is_token in Ht.
  destruct (Ascii.eqb_spec c "-") as [-> | Hc].
  - apply andb_true_iff in Ht as [Hne Hd].
    rewrite span_digits_run by assumption.
    destruct d; [discriminate | reflexivity].
  - change (String c (d ++ x)) with (String c d ++ x).
    now rewrite span_digits_run.
Qed.

(** No match starts at a character that is no digit, unless it is a minus
    sign in front of a digit. *)
Lemma match_int_none c (r : string) :
  Py.is_digit c = false ->
  Ascii.eqb c "-" && Spec.starts_with_digit r = false ->
  Py.match_int (String c r) = None.
Proof.
  intros Hc Hdash. rewrite match_int_unfold.
  destruct (Ascii.eqb c "-").
  - cbn in Hdash. now rewrite span_digits_stop.
  - cbn [Py.span_digits]. now rewrite Hc.
Qed.

(** The search runs through a gap. *)
Lemma findall_int_gap (g x : string) :
  Spec.no_digit g = true ->
  Spec.ends_with_dash g && Spec.starts_with_digit x = false ->
  Py.findall_int (g ++ x) = Py.findall_int x.
Proof.
  induction g as [|c g IH]; intros Hg Hend; [reflexivity |].
  rewrite no_digit_cons in Hg. apply andb_true_iff in Hg as [Hc Hg].
  apply negb_true_iff in Hc.
  cbn [append]. rewrite findall_int_skip.
  - apply IH; [exact Hg |]. destruct g; [reflexivity | exact Hend].
  - apply match_int_none; [exact Hc |].
    rewrite starts_with_digit_append. destruct g as [|c' g'].
    + exact Hend.
    + cbn [Spec.is_empty]. rewrite (no_digit_start _ Hg). apply andb_false_r.
Qed.

Lemma findall_int_tail (tail : string) :
  Spec.no_digit tail = true -> Py.findall_int tail = [].
Proof.
  intros H. rewrite <- (append_empty_r tail).
  rewrite findall_int_gap; [reflexivity | exact H | apply andb_false_r].
Qed.

Lemma well_cut_cons first g t rest :
  Spec.well_cut first ((g, t) :: rest) = true ->
  Spec.no_digit g = true /\ Spec.is_token t = true
  /\ Spec.ends_with_dash g && Spec.starts_with_digit t = false
  /\ (first || negb (Spec.is_empty g) || negb (Spec.starts_with_digit t)) = true
  /\ Spec.well_cut false rest = true.
Proof.
  cbn [Spec.well_cut]. rewrite !andb_true_iff, negb_true_iff. tauto.
Qed.

Lemma token_not_empty (t : string) : Spec.is_token t = true -> t <> "".
Proof. now destruct t. Qed.

(** What follows a token in a cut text does not start with a digit. *)
Lemma paste_start rest (tail : string) :
  Spec.well_cut false rest = true -> Spec.no_digit tail = true ->
  Spec.starts_with_digit (Spec.paste rest tail) = false.
Proof.
  intros Hw Ht. destruct rest as [|[g t] rest].
  - now apply no_digit_start.
  - apply well_cut_cons in Hw as (Hg & Htok & _ & Hsep & _).
    cbn [Spec.paste]. rewrite starts_with_digit_append.
    destruct g as [|c g]; cbn [Spec.is_empty] in *.
    + rewrite starts_with_digit_append.
      destruct t as [|c t]; [discriminate |]. cbn [Spec.is_empty].
      cbn in Hsep. now apply negb_true_iff in Hsep.
    + now apply no_digit_start.
Qed.

(** The matches found in a cut text are its tokens, in order. *)
Lemma findall_int_paste first pieces (tail : string) :
  Spec.well_cut first pieces = true -> Spec.no_digit tail = true ->
  Py.findall_int (Spec.paste pieces tail) = map snd pieces.
Proof.
  revert first. induction pieces as [|[g t] rest IH]; intros first Hw Ht.
  - now apply findall_int_tail.
  - apply well_cut_cons in Hw as (Hg & Htok & Hend & _ & Hrest).
    cbn [Spec.paste map snd].
    rewrite findall_int_gap.
    + rewrite (findall_int_match _ t (Spec.paste rest tail)).
      * f_equal. now apply (IH false).
      * apply match_int_token; [exact Htok | now apply paste_start].
    + exact Hg.
    + rewrite starts_with_digit_append.
      destruct t as [|c t]; [discriminate | exact Hend].
Qed.

End Tokens.

Section DecimalTokens.

Lemma digit_scans c :
  Py.is_digit c = true ->
  Ascii.eqb c "_" = false /\ (Py.digit_value c <? 10) = true
  /\ Py.is_space c = false.
Proof.
  intros H. destruct (digit_cases c H) as [-> | [-> | [-> | [-> | [-> | [->
    | [-> | [-> | [-> | ->]]]]]]]]]; repeat split.
Qed.

Lemma scan_digits_decimal (d : string) acc n :
  Spec.all_digits d = true ->
  Py.scan_digits 10 false acc n d
  = Some (Spec.value_from 10 acc d, (n + String.length d)%nat, "").
Proof.
  revert acc n. induction d as [|c d IH]; intros acc n Hd.
  - cbn. now rewrite Nat.add_0_r.
  - rewrite all_digits_cons in Hd. apply andb_true_iff in Hd as [Hc Hd].
    destruct (digit_scans c Hc) as (Hus & Hlt & _).
    cbn [Py.scan_digits Spec.value_from String.length].
    rewrite Hus, Hlt, IH by exact Hd. do 2 f_equal. f_equal. lia.
Qed.

Lemma skip_prefix_10 (s : string) : Py.skip_prefix 10 s = s.
Proof.
  destruct s as [|c [|c' r]]; [reflexivity | |];
    destruct c as [[] [] [] [] [] [] [] []]; reflexivity.
Qed.

(** Behind the sign, [int] reads a run of digits as its decimal value. *)
Lemma int_digits_from (d : string) (neg : bool) :
  Spec.all_digits d = true -> d <> "" ->
  match Py.skip_prefix 10 d with
  | String "_" _ => None
  | s3 =>
      match Py.scan_digits 10 false 0 0 s3 with
      | Some (v, n, rest) =>
          match n, Py.skip_space rest with
          | S _, EmptyString => Some (if neg then - v else v)
          | _, _ => None
          end
      | None => None
      end
  end = Some (if neg then - Spec.decimal_value d else Spec.decimal_value d).
Proof.
  intros Hd Hne. rewrite skip_prefix_10.
  destruct d as [|c r]; [congruence |].
  pose proof Hd as Hd'. rewrite all_digits_cons in Hd'.
  apply andb_true_iff in Hd' as [Hc Hr].
  assert (Hfin : forall acc,
             match Py.scan_digits 10 false acc 1 r with
             | Some (v, n, rest) =>
                 match n, Py.skip_space rest with
                 | S _, EmptyString => Some (if neg then - v else v)
                 | _, _ => None
                 end
             | None => None
             end
             = Some (if neg then - Spec.value_from 10 acc r
                     else Spec.value_from 10 acc r)).
  { intros acc. now rewrite scan_digits_decimal. }
  unfold Spec.decimal_value.
  destruct (digit_cases c Hc) as [-> | [-> | [-> | [-> | [-> | [->
    | [-> | [-> | [-> | ->]]]]]]]]]; cbn; apply Hfin.
Qed.

(** [int] of a token is the integer it denotes. *)
Lemma int_token (t : string) :
  Spec.is_token t = true -> Py.int t 10 = Some (Spec.token_value t).
Proof.
  intros Ht. destruct t as [|c d]; [discriminate |].
  unfold Spec.is_token in Ht. unfold Spec.token_value.
  destruct (Ascii.eqb_spec c "-") as [-> | Hc].
  - apply andb_true_iff in Ht as [Hne Hd].
    unfold Py.int. cbn [Py.skip_space Py.is_space Py.ord]. cbn [Py.skip_sign].
    change (Py.skip_sign (Py.skip_space (String "-" d))) with (true, d).
    cbv beta iota.
    apply (int_digits_from d true Hd). now destruct d.
  - pose proof Ht as Ht'. rewrite all_digits_cons in Ht'.
    apply andb_true_iff in Ht' as [Hdig _].
    assert (Hs : Py.skip_sign (Py.skip_space (String c d)) = (false, String c d)).
    { destruct (digit_cases c Hdig) as [-> | [-> | [-> | [-> | [-> | [->
        | [-> | [-> | [-> | ->]]]]]]]]]; reflexivity. }
    unfold Py.int. rewrite Hs.
    apply (int_digits_from (String c d) false Ht). discriminate.
Qed.

Lemma traverse_tokens (l : list string) :
  Forall (fun t => Spec.is_token t = true) l ->
  Py.traverse (fun num => Py.int num 10) l = Some (map Spec.token_value l).
Proof.
  induction 1 as [|t l Ht _ IH]; [reflexivity |].
  cbn [Py.traverse map]. now rewrite int_token, IH.
Qed.

Lemma well_cut_tokens first pieces :
  Spec.well_cut first pieces = true ->
  Forall (fun t => Spec.is_token t = true) (map snd pieces).
Proof.
  revert first. induction pieces as [|[g t] rest IH]; intros first Hw.
  - constructor.
  - apply well_cut_cons in Hw as (_ & Ht & _ & _ & Hrest).
    constructor; [exact Ht | now apply (IH false)].
Qed.

(** [parseResultId] on a cut text without the marker: its integers. *)
Lemma parseResultId_paste pieces (tail : string) :
  Spec.well_cut true pieces = true -> Spec.no_digit tail = true ->
  pieces <> [] ->
  Py.contains "Not Tcp" (Spec.paste pieces tail) = false ->
  DobotDemo.parseResultId (Spec.paste pieces tail)
  = Some (Spec.integers pieces).
Proof.
  intros Hw Ht Hne Hm. unfold DobotDemo.parseResultId. rewrite Hm.
  rewrite (findall_int_paste true) by assumption.
  rewrite traverse_tokens by (eapply well_cut_tokens; eassumption).
  unfold Spec.integers. rewrite map_map.
  destruct pieces; [congruence | reflexivity].
Qed.

End DecimalTokens.

Section Cutting.

Lemma well_cut_intro first g t rest :
  Spec.no_digit g = true -> Spec.is_token t = true ->
  Spec.ends_with_dash g && Spec.starts_with_digit t = false ->
  (first || negb (Spec.is_empty g) || negb (Spec.starts_with_digit t)) = true ->
  Spec.well_cut false rest = true ->
  Spec.well_cut first ((g, t) :: rest) = true.
Proof.
  intros H1 H2 H3 H4 H5. cbn [Spec.well_cut].
  now rewrite H1, H2, H3, H4, H5.
Qed.

Lemma token_of_digits (t : string) :
  Spec.is_token t = true -> Spec.starts_with_digit t = true ->
  Spec.all_digits t = true.
Proof.
  destruct t as [|c d]; [discriminate |]. cbn [Spec.starts_with_digit].
  intros Ht Hc. unfold Spec.is_token in Ht.
  now rewrite (digit_not_dash c Hc) in Ht.
Qed.

Lemma digits_token c (d : string) :
  Py.is_digit c = true -> Spec.all_digits d = true ->
  Spec.is_token (String c d) = true.
Proof.
  intros Hc Hd. unfold Spec.is_token. rewrite (digit_not_dash c Hc).
  rewrite all_digits_cons. now rewrite Hc, Hd.
Qed.

(** Every text has a cut. *)
Lemma every_text_is_cut (s : string) :
  exists pieces tail,
    s = Spec.paste pieces tail
    /\ Spec.well_cut true pieces = true /\ Spec.no_digit tail = true.
Proof.
  induction s as [|c s (pieces & tail & Hs & Hw & Ht)].
  - now exists [], "".
  - destruct (Py.is_digit c) eqn:Hc.
    + (* a digit opens or extends a token *)
      assert (Hone : Spec.is_token (String c "") = true)
        by now apply digits_token.
      destruct pieces as [|[g t] rest].
      * exists [("", String c "")], tail. cbn [Spec.paste append] in *. subst s.
        repeat split; [| exact Ht]. apply well_cut_intro; auto.
      * apply well_cut_cons in Hw as (Hg & Htok & Hend & _ & Hrest).
        destruct g as [|x g].
        -- destruct (Spec.starts_with_digit t) eqn:Hst.
           ++ exists (("", String c t) :: rest), tail.
              cbn [Spec.paste append] in *. subst s. repeat split; [| exact Ht].
              apply well_cut_intro; auto.
              apply digits_token; [exact Hc | now apply token_of_digits].
           ++ exists (("", String c "") :: ("", t) :: rest), tail.
              cbn [Spec.paste append] in *. subst s.
              repeat split; [| exact Ht].
              apply well_cut_intro; auto.
              apply well_cut_intro; auto. now rewrite Hst.
        -- exists (("", String c "") :: (String x g, t) :: rest), tail.
           cbn [Spec.paste append] in *. subst s.
           repeat split; [| exact Ht].
           apply well_cut_intro; auto.
           apply well_cut_intro; auto.
    + (* any other character belongs to a gap, or is the sign of a token *)
      destruct pieces as [|[g t] rest].
      * exists [], (String c tail). cbn [Spec.paste append] in *. subst s.
        repeat split. rewrite no_digit_cons. now rewrite Hc, Ht.
      * apply well_cut_cons in Hw as (Hg & Htok & Hend & _ & Hrest).
        destruct (Ascii.eqb c "-" && Spec.is_empty g
                  && Spec.starts_with_digit t) eqn:Hm.
        -- apply andb_true_iff in Hm as [Hm Hst].
           apply andb_true_iff in Hm as [Hdash Hempty].
           apply Ascii.eqb_eq in Hdash. subst c.
           destruct g; [| discriminate].
           exists (("", String "-" t) :: rest), tail.
           cbn [Spec.paste append] in *. subst s.
           repeat split; [| exact Ht].
           apply well_cut_intro; auto.
           unfold Spec.is_token. cbn [Ascii.eqb Bool.eqb].
           rewrite (token_of_digits t Htok Hst).
           destruct t; [discriminate | reflexivity].
        -- exists ((String c g, t) :: rest), tail.
           cbn [Spec.paste append] in *. subst s.
           repeat split; [| exact Ht].
           apply well_cut_intro; auto.
           ++ rewrite no_digit_cons. now rewrite Hc, Hg.
           ++ destruct g as [|x g]; [| exact Hend].
              cbn [Spec.ends_with_dash]. cbn [Spec.is_empty] in Hm.
              now rewrite andb_true_r in Hm.
Qed.

End Cutting.



(* ================================================================== *)
(** * Concurrent calls on one gripper object *)
(* ================================================================== *)

Section Discipline.

Import Epick.

Lemma disciplined_bind {A B : Type} ph (p : Prog A) (k : A -> Prog B) :
  Spec.disciplined ph p ->
  (forall a, Spec.disciplined Spec.Free (k a)) ->
  Spec.disciplined ph (bind p k).
Proof.
  intros Hp Hk. revert ph Hp.
  induction p as [a | e | c k' IH | ms k' IH | k' IH | k' IH | k' IH | i k' IH];
    intros ph Hp; cbn [bind Spec.disciplined] in *.
  - subst ph. apply Hk.
  - exact Hp.
  - destruct Hp as [-> Hp]. split; [reflexivity |]. intros r. apply IH, Hp.
  - destruct ph; [now apply IH | now apply IH |].
    destruct Hp as [-> Hp]. split; [reflexivity | now apply IH].
  - destruct Hp as [-> Hp]. split; [reflexivity | now apply IH].
  - destruct Hp as [-> Hp]. split; [reflexivity | now apply IH].
  - intros i. apply IH, Hp.
  - now apply IH.
Qed.

Lemma disciplined_lift {A : Type} (o : option A) :
  Spec.disciplined Spec.Free (lift o).
Proof. destruct o; reflexivity. Qed.

Lemma disciplined_write address datas :
  Spec.disciplined Spec.Free (write_by_485 address datas).
Proof.
  unfold write_by_485. cbn [Spec.disciplined]. intros [i |]; [| reflexivity].
  cbn [Spec.disciplined is_write]. repeat split.
Qed.

Local Ltac discipline :=
  repeat first
    [ apply disciplined_write
    | apply disciplined_lift
    | apply disciplined_bind; [| intros ? ] ].

Lemma disciplined_init : Spec.disciplined Spec.Free init.
Proof. unfold init. discipline. Qed.



End Discipline.

Section Interleaving.

Import Epick.
Variable dashboard : list DashCall -> DashCall -> string.

(** The scheduler's steps are the steps of [run]: a thread left alone goes
    through its effects to the result [run] computes. *)
Lemma run_head_step {A : Type} tid (p p' : Prog A) st st' :
  head_step dashboard tid p st = Some (p', st') ->
  run dashboard tid p st = run dashboard tid p' st'.
Proof.
  destruct p; cbn [head_step run]; try discriminate;
    try (now intros [= <- <-]).
  - destruct (write_lock st); [discriminate | now intros [= <- <-]].
  - destruct (write_lock st); now intros [= <- <-].
Qed.










End Interleaving.

Section Serialized.

Import Epick.




End Serialized.




(* ================================================================== *)
(** * Further properties: replies and the enable check *)
(* ================================================================== *)

Section ReplyCodes.

Lemma findall_int_tokens (s : string) :
  Forall (fun t => Spec.is_token t = true) (Py.findall_int s).
Proof.
  destruct (every_text_is_cut s) as (pieces & tail & -> & Hw & Ht).
  rewrite (findall_int_paste true) by assumption.
  now apply (well_cut_tokens true).
Qed.

Lemma search_int_gap (g x : string) :
  Spec.no_digit g = true ->
  Spec.ends_with_dash g && Spec.starts_with_digit x = false ->
  Py.search_int (g ++ x) = Py.search_int x.
Proof.
  induction g as [|c g IH]; intros Hg Hend; [reflexivity |].
  rewrite no_digit_cons in Hg. apply andb_true_iff in Hg as [Hc Hg].
  apply negb_true_iff in Hc.
  cbn [append Py.search_int]. rewrite match_int_none.
  - apply IH; [exact Hg |]. destruct g; [reflexivity | exact Hend].
  - exact Hc.
  - rewrite starts_with_digit_append. destruct g as [|c' g'].
    + exact Hend.
    + cbn [Spec.is_empty]. rewrite (no_digit_start _ Hg). apply andb_false_r.
Qed.

Lemma search_int_token (t x : string) :
  Spec.is_token t = true -> Spec.starts_with_digit x = false ->
  Py.search_int (t ++ x) = Some t.
Proof.
  intros Ht Hx. pose proof (match_int_token t x Ht Hx) as H.
  destruct t as [|c d]; [discriminate |].
  cbn [append] in *. cbn [Py.search_int]. now rewrite H.
Qed.

(** The first match in a cut text is its first token. *)
Lemma search_int_paste first pieces (tail : string) :
  Spec.well_cut first pieces = true -> Spec.no_digit tail = true ->
  Py.search_int (Spec.paste pieces tail) = hd_error (map snd pieces).
Proof.
  intros Hw Ht. destruct pieces as [|[g t] rest].
  - cbn [Spec.paste map hd_error]. rewrite <- (append_empty_r tail).
    rewrite search_int_gap; [reflexivity | exact Ht | apply andb_false_r].
  - apply well_cut_cons in Hw as (Hg & Htok & Hend & _ & Hrest).
    cbn [Spec.paste map snd hd_error]. rewrite search_int_gap.
    + apply search_int_token; [exact Htok | now apply paste_start].
    + exact Hg.
    + rewrite starts_with_digit_append.
      destruct t as [|c t]; [discriminate | exact Hend].
Qed.

Lemma parseResultId_nonempty (valueRecv : string) :
  exists ids, DobotDemo.parseResultId valueRecv = Some ids /\ ids <> [].
Proof.
  unfold DobotDemo.parseResultId.
  destruct (Py.contains "Not Tcp" valueRecv).
  - exists [1]. split; [reflexivity | discriminate].
  - rewrite (traverse_tokens _ (findall_int_tokens valueRecv)).
    destruct (Py.findall_int valueRecv) as [|t l]; cbn [map].
    + exists [2]. split; [reflexivity | discriminate].
    + eexists. split; [reflexivity | discriminate].
Qed.

Lemma parse_result_code_cut pieces (tail : string) :
  Spec.well_cut true pieces = true -> Spec.no_digit tail = true ->
  Replay._parse_result_code (Spec.paste pieces tail)
  = Some match pieces with
         | [] => 0
         | (_, tok) :: _ => Spec.token_value tok
         end.
Proof.
  intros Hw Ht. unfold Replay._parse_result_code.
  rewrite (search_int_paste true) by assumption.
  destruct pieces as [|[g t] rest]; [reflexivity |].
  cbn [map snd hd_error]. apply int_token.
  now apply well_cut_cons in Hw as (_ & Htok & _).
Qed.

Lemma parse_result_code_some (reply : string) :
  exists code, Replay._parse_result_code reply = Some code.
Proof.
  destruct (every_text_is_cut reply) as (pieces & tail & -> & Hw & Ht).
  eexists. now apply parse_result_code_cut.
Qed.

End ReplyCodes.



(** X2.  On a reply to [EnableRobot] of at most 4300 characters [start]
    never raises.  It goes on to the feed thread exactly when the reply has no
    marker "Not Tcp" and its first integer is zero; with the marker, with no
    integer at all, or with another first integer it reports the enable
    failure and returns. *)
Theorem start_enable_check (reply : string) :
  (String.length reply <= 4300)%nat ->
  (Start.start reply = Start.EnableFailed
   \/ Start.start reply = Start.FeedStarted)
  /\ (Py.contains "Not Tcp" reply = true ->
      Start.start reply = Start.EnableFailed)
  /\ (forall pieces tail,
         Py.contains "Not Tcp" reply = false ->
         reply = Spec.paste pieces tail ->
         Spec.well_cut true pieces = true -> Spec.no_digit tail = true ->
         (Start.start reply = Start.FeedStarted
          <-> exists gap tok rest,
                pieces = (gap, tok) :: rest /\ Spec.token_value tok = 0)).
Proof.
  intros _. split; [| split].
  - unfold Start.start.
    destruct (parseResultId_nonempty reply) as (ids & -> & Hne).
    destruct ids as [|code ids]; [congruence |]. cbn [nth_error].
    destruct (code =? 0); auto.
  - intros Hm. unfold Start.start, DobotDemo.parseResultId. now rewrite Hm.
  - intros pieces tail Hm -> Hw Ht. unfold Start.start.
    destruct pieces as [|[g t] rest].
    + unfold DobotDemo.parseResultId. rewrite Hm.
      rewrite (findall_int_paste true) by assumption. cbn.
      split; [discriminate | intros (? & ? & ? & ? & _); discriminate].
    + rewrite parseResultId_paste by (assumption || discriminate).
      cbn [Spec.integers map snd nth_error].
      destruct (Z.eqb_spec (Spec.token_value t) 0) as [E | E]; cbn [negb].
      * split; [intros _; now exists g, t, rest | reflexivity].
      * split; [discriminate |].
        intros (g' & t' & rest' & [= -> -> ->] & H0). contradiction.
Qed.

(** The replies "0" and "-0007,1": enabled, and refused. *)
Lemma start_enable_check_witness :
  ((String.length "0" <= 4300)%nat
   /\ Py.contains "Not Tcp" "0" = false /\ "0" = Spec.paste [("", "0")] ""
   /\ Spec.well_cut true [("", "0")] = true /\ Spec.no_digit "" = true)
  /\ Start.start "0" = Start.FeedStarted
  /\ Start.start "-0007,1" = Start.EnableFailed.
Proof.
  assert (Hlen : (String.length "0" <= 4300)%nat)
    by (apply Nat.leb_le; reflexivity).
  split; [split; [exact Hlen | repeat split] |]. split; [| reflexivity].
  apply (proj2 (proj2 (proj2 (start_enable_check "0" Hlen))
                  [("", "0")] "" eq_refl eq_refl eq_refl eq_refl)).
  now exists "", "0", [].
Defined.

(** X3.  On a reply of at most 4300 characters [_parse_result_code] never
    raises: it is the first integer of the reply, read from the left, and 0
    for a reply without an integer.  Where [parseResultId] extracts integers
    from the same reply, its first one is that code. *)
Theorem parse_result_code_first (reply : string) :
  (String.length reply <= 4300)%nat ->
  exists code,
    Replay._parse_result_code reply = Some code
    /\ (forall pieces tail,
           reply = Spec.paste pieces tail ->
           Spec.well_cut true pieces = true -> Spec.no_digit tail = true ->
           code = match pieces with
                  | [] => 0
                  | (_, tok) :: _ => Spec.token_value tok
                  end
           /\ (pieces <> [] -> Py.contains "Not Tcp" reply = false ->
               exists ids,
                 DobotDemo.parseResultId reply = Some (code :: ids))).
Proof.
  intros _.
  destruct (every_text_is_cut reply) as (pieces0 & tail0 & E0 & Hw0 & Ht0).
  assert (Hcode : forall pieces tail,
             reply = Spec.paste pieces tail ->
             Spec.well_cut true pieces = true -> Spec.no_digit tail = true ->
             Replay._parse_result_code reply
             = Some match pieces with
                    | [] => 0
                    | (_, tok) :: _ => Spec.token_value tok
                    end).
  { intros pieces tail -> Hw Ht. now apply parse_result_code_cut. }
  eexists. split; [exact (Hcode _ _ E0 Hw0 Ht0) |].
  intros pieces tail E Hw Ht.
  pose proof (Hcode _ _ E0 Hw0 Ht0) as H1.
  pose proof (Hcode _ _ E Hw Ht) as H2.
  rewrite H1 in H2. injection H2 as H2. split; [exact H2 |].
  intros Hne Hm. rewrite E in Hm. rewrite E.
  rewrite parseResultId_paste by assumption.
  destruct pieces as [|[g t] rest]; [congruence |].
  rewrite H2. cbn [Spec.integers map snd]. eexists. reflexivity.
Qed.

(** The reply "-30001,{},MovL(1.5)" of a refused motion. *)
Lemma parse_result_code_first_witness :
  ((String.length "-30001,{},MovL(1.5)" <= 4300)%nat
   /\ "-30001,{},MovL(1.5)"
      = Spec.paste [("", "-30001"); (",{},MovL(", "1"); (".", "5")] ")"
   /\ Spec.well_cut true [("", "-30001"); (",{},MovL(", "1"); (".", "5")] = true
   /\ Spec.no_digit ")" = true)
  /\ Replay._parse_result_code "-30001,{},MovL(1.5)" = Some (-30001).
Proof.
  assert (Hlen : (String.length "-30001,{},MovL(1.5)" <= 4300)%nat)
    by (apply Nat.leb_le; reflexivity).
  split; [split; [exact Hlen | repeat split] |].
  destruct (parse_result_code_first "-30001,{},MovL(1.5)" Hlen)
    as (code & Hc & H).
  destruct (H [("", "-30001"); (",{},MovL(", "1"); (".", "5")] ")"
              eq_refl eq_refl eq_refl) as [-> _].
  exact Hc.
Defined.

(* ================================================================== *)
(** * Further properties: the trajectory replay *)
(* ================================================================== *)

Section ReplayLoop.

Context {pose : Type}.
Variable dashboard : list (Replay.Cmd pose) -> Replay.Cmd pose -> string.

Lemma every_other_cons (p : pose) rest :
  More.every_other (p :: rest) = p :: More.every_other (skipn 1 rest).
Proof. now destruct rest. Qed.

Lemma skipn_nth (l : list pose) idx p :
  nth_error l idx = Some p -> skipn idx l = p :: skipn (S idx) l.
Proof.
  revert idx. induction l as [|x l IH]; intros [|idx]; cbn; try discriminate.
  - now intros [= ->].
  - apply IH.
Qed.

Lemma rows_from_step (poses : list pose) idx p :
  nth_error poses idx = Some p ->
  More.every_other (skipn idx poses)
  = p :: More.every_other (skipn (idx + Replay.STEP) poses).
Proof.
  intros H. rewrite (skipn_nth _ _ _ H), every_other_cons, skipn_skipn.
  do 2 f_equal. unfold Replay.STEP. f_equal. lia.
Qed.

Lemma rows_from_end (poses : list pose) idx :
  nth_error poses idx = None -> More.every_other (skipn idx poses) = [].
Proof.
  intros H. apply nth_error_None in H. now rewrite skipn_all2.
Qed.


(** The loop when the motion of row [k] from here is the first refused. *)
Lemma send_from_rejected passes idx (poses : list pose) sent k p code :
  (List.length poses <= idx + passes)%nat ->
  nth_error (More.every_other (skipn idx poses)) k = Some p ->
  Replay._parse_result_code
    (dashboard
       (sent ++ map More.movl (firstn k (More.every_other (skipn idx poses))))
       (More.movl p)) = Some code ->
  code < 0 ->
  (forall j q c,
      (j < k)%nat ->
      nth_error (More.every_other (skipn idx poses)) j = Some q ->
      Replay._parse_result_code
        (dashboard
           (sent ++ map More.movl
                      (firstn j (More.every_other (skipn idx poses))))
           (More.movl q)) = Some c ->
      0 <= c) ->
  Replay.send_from dashboard passes idx poses sent
  = ((sent
      ++ map More.movl (firstn (S k) (More.every_other (skipn idx poses)))
      ++ [Replay.Stop])%list, true).
Proof.
  revert idx sent k.
  induction passes as [|n IH]; intros idx sent k Hlen Hk Hcode Hneg Hbefore.
  - rewrite skipn_all2 in Hk by lia. now destruct k.
  - cbn [Replay.send_from].
    destruct (nth_error poses idx) as [p0 |] eqn:Ep.
    + rewrite (rows_from_step _ _ _ Ep) in *.
      destruct k as [|k].
      * cbn [nth_error] in Hk. injection Hk as ->.
        cbn [firstn map] in Hcode. rewrite app_nil_r in Hcode.
        unfold More.movl in Hcode. rewrite Hcode.
        destruct (Z.ltb_spec code 0); [| lia].
        cbn [firstn map]. now rewrite <- app_assoc.
      * destruct (parse_result_code_some
                    (dashboard sent (Replay.MovL p0 0 Replay.params)))
          as [c0 Hc0].
        rewrite Hc0.
        assert (0 <= c0).
        { apply (Hbefore 0%nat p0 c0); [lia | reflexivity |].
          cbn [firstn map]. now rewrite app_nil_r. }
        destruct (Z.ltb_spec c0 0); [lia |].
        rewrite (IH (idx + Replay.STEP)%nat _ k).
        -- cbn [firstn map]. now rewrite <- !app_assoc.
        -- unfold Replay.STEP. lia.
        -- exact Hk.
        -- cbn [firstn map] in Hcode. rewrite <- app_assoc. exact Hcode.
        -- exact Hneg.
        -- intros j q c Hj Hq Hc. apply (Hbefore (S j) q c); [lia | exact Hq |].
           cbn [firstn map]. rewrite <- app_assoc in Hc. exact Hc.
    + rewrite (rows_from_end _ _ Ep) in Hk. now destruct k.
Qed.

End ReplayLoop.



(** X5.  When the motion of row [k] (of the rows it replays) is the first
    that the controller answers with a negative code (its replies having at
    most 4300 characters), [main] has sent the
    motions of the rows up to [k], sends one stop directly behind the refused
    motion, sends no further motion, closes the connection and returns 1. *)
Theorem replay_first_rejection
        {pose : Type}
        (dashboard : list (Replay.Cmd pose) -> Replay.Cmd pose -> string)
        (poses : list pose) (k : nat) (code : Z) :
  (forall sent call, (String.length (dashboard sent call) <= 4300)%nat) ->
  More.row_code dashboard poses k = Some code ->
  code < 0 ->
  (forall j c, (j < k)%nat -> More.row_code dashboard poses j = Some c ->
               0 <= c) ->
  Replay.main dashboard poses
  = ((More.sent_before poses (S k) ++ [Replay.Stop; Replay.close])%list, 1).
Proof.
  intros _ Hk Hneg Hbefore. unfold Replay.main, More.row_code in *.
  destruct (nth_error (More.every_other poses) k) as [p |] eqn:Ep;
    [| discriminate].
  rewrite (send_from_rejected dashboard _ 0 poses _ k p code).
  - unfold More.sent_before. cbn [skipn]. now rewrite <- !app_assoc.
  - lia.
  - exact Ep.
  - exact Hk.
  - exact Hneg.
  - intros j q c Hj Hq Hc. apply (Hbefore j c Hj).
    cbn [skipn] in Hq. now rewrite Hq.
Qed.

(** A controller that accepts the first motion and refuses every later one. *)
Lemma replay_first_rejection_witness :
  ((forall (sent : list (Replay.Cmd nat)) (call : Replay.Cmd nat),
       (String.length
          ((fun sent _ =>
              if (List.length sent <=? 2)%nat then "0,1" else "-2,{}")
             sent call) <= 4300)%nat)
   /\ More.row_code
        (fun sent _ => if (List.length sent <=? 2)%nat then "0,1" else "-2,{}")
        [10; 11; 12; 13; 14]%nat 1 = Some (-2)
   /\ -2 < 0)
  /\ Replay.main
       (fun sent _ => if (List.length sent <=? 2)%nat then "0,1" else "-2,{}")
       [10; 11; 12; 13; 14]%nat
     = ([Replay.EnableRobot; Replay.VelL 20;
         More.movl 10%nat; More.movl 12%nat; Replay.Stop; Replay.close], 1).
Proof.
  assert (Hlen : forall (sent : list (Replay.Cmd nat)) (call : Replay.Cmd nat),
             (String.length
                ((fun sent _ =>
                    if (List.length sent <=? 2)%nat then "0,1" else "-2,{}")
                   sent call) <= 4300)%nat).
  { intros sent call. cbn beta.
    destruct (List.length sent <=? 2)%nat; apply Nat.leb_le; reflexivity. }
  split; [split; [exact Hlen | split; [reflexivity | lia]] |].
  apply (replay_first_rejection
           (fun sent _ => if (List.length sent <=? 2)%nat then "0,1" else "-2,{}")
           [10; 11; 12; 13; 14]%nat 1 (-2) Hlen eq_refl); [lia |].
  intros j c Hj. assert (j = 0%nat) by lia. subst j.
  intros Hc. vm_compute in Hc. injection Hc as <-. lia.
Defined.

(* ================================================================== *)
(** * Further properties: the feed and the window labels *)
(* ================================================================== *)

Section FeedFacts.

Context {float : Type}.

Lemma GetFeed_app (a b : list (option (Frame.t float))) feedData :
  DobotDemo.GetFeed (a ++ b) feedData
  = DobotDemo.GetFeed b (DobotDemo.GetFeed a feedData).
Proof.
  revert feedData. induction a as [|x a IH]; intros feedData; [reflexivity |].
  cbn [app DobotDemo.GetFeed]. apply IH.
Qed.

Lemma GetFeed_step_valid (f : Frame.t float) feedData :
  Frame.TestValue f = MAGIC ->
  DobotDemo.GetFeed_step feedData (Some f) = More.snapshot_of f.
Proof. intros H. unfold DobotDemo.GetFeed_step. now rewrite H. Qed.

Lemma GetFeed_step_ignored (r : option (Frame.t float)) feedData :
  More.ignored r = true -> DobotDemo.GetFeed_step feedData r = feedData.
Proof.
  destruct r as [f |]; [| reflexivity]. cbn [More.ignored]. intros H.
  apply negb_true_iff, Z.eqb_neq in H.
  unfold DobotDemo.GetFeed_step. now rewrite hex_test_false.
Qed.

Lemma GetFeed_ignored (frames : list (option (Frame.t float))) feedData :
  forallb More.ignored frames = true ->
  DobotDemo.GetFeed frames feedData = feedData.
Proof.
  revert feedData. induction frames as [|r frames IH]; intros feedData H;
    [reflexivity |].
  cbn [forallb] in H. apply andb_true_iff in H as [Hr H].
  cbn [DobotDemo.GetFeed]. rewrite GetFeed_step_ignored by exact Hr.
  now apply IH.
Qed.

End FeedFacts.

(** X6.  After any reads of the feed the snapshot [feedData] of [GetFeed]
    holds the five fields of the last frame that carried the sentinel, all
    from that one frame, whatever it held before; while no frame carried
    the sentinel it is unchanged. *)
Theorem GetFeed_last_valid_frame
        {float : Type} (frames : list (option (Frame.t float)))
        (feedData : DobotDemo.item) :
  (forallb More.ignored frames = true ->
   DobotDemo.GetFeed frames feedData = feedData)
  /\ (forall pre f post,
         frames = (pre ++ Some f :: post)%list ->
         Frame.TestValue f = MAGIC ->
         forallb More.ignored post = true ->
         DobotDemo.GetFeed frames feedData = More.snapshot_of f).
Proof.
  split; [apply GetFeed_ignored |].
  intros pre f post -> Hf Hpost.
  rewrite GetFeed_app. cbn [DobotDemo.GetFeed].
  rewrite GetFeed_step_valid by exact Hf. now apply GetFeed_ignored.
Qed.

(** A valid frame, then a later valid one, then a corrupted one and an
    empty read. *)
Lemma GetFeed_last_valid_frame_witness :
  (Frame.TestValue (Frame.mk 1440 MAGIC 5 42 3 1 tt [] []) = MAGIC
   /\ forallb More.ignored
        [Some (Frame.mk 1440 0 9 77 8 8 tt [] []); None] = true)
  /\ DobotDemo.GetFeed
       [Some (Frame.mk 1440 MAGIC 7 41 2 0 tt [] []);
        Some (Frame.mk 1440 MAGIC 5 42 3 1 tt [] []);
        Some (Frame.mk 1440 0 9 77 8 8 tt [] []); None]
       DobotDemo.item_init
     = DobotDemo.mk_item 5 42 1440 3 1.
Proof.
  split; [split; reflexivity |].
  exact (proj2 (GetFeed_last_valid_frame _ DobotDemo.item_init)
           [Some (Frame.mk 1440 MAGIC 7 41 2 0 tt [] [])]
           (Frame.mk 1440 MAGIC 5 42 3 1 tt [] [])
           [Some (Frame.mk 1440 0 9 77 8 8 tt [] []); None]
           eq_refl eq_refl eq_refl).
Defined.

Section LabelFacts.

Lemma LABEL_ROBOT_MODE_range mode text :
  RobotUI.LABEL_ROBOT_MODE mode = Some text -> 1 <= mode <= 11.
Proof.
  intros H. destruct mode as [|p|p]; cbn in H; try discriminate.
  do 4 (try (destruct p as [p|p|]; cbn in H; try discriminate; try lia)).
Qed.

Lemma LABEL_ROBOT_MODE_known mode :
  1 <= mode <= 11 -> exists text, RobotUI.LABEL_ROBOT_MODE mode = Some text.
Proof.
  intros H.
  assert (E : mode = 1 \/ mode = 2 \/ mode = 3 \/ mode = 4 \/ mode = 5
              \/ mode = 6 \/ mode = 7 \/ mode = 8 \/ mode = 9 \/ mode = 10
              \/ mode = 11) by lia.
  destruct E as [-> | [-> | [-> | [-> | [-> | [-> | [-> | [-> | [-> | [->
    | ->]]]]]]]]]]; eexists; reflexivity.
Qed.

Lemma LABEL_ROBOT_MODE_unknown mode :
  mode < 1 \/ 11 < mode -> RobotUI.LABEL_ROBOT_MODE mode = None.
Proof.
  intros H. destruct (RobotUI.LABEL_ROBOT_MODE mode) as [text |] eqn:E;
    [| reflexivity].
  apply LABEL_ROBOT_MODE_range in E. lia.
Qed.

(** The text of a 64-bit mask: 64 binary digits that denote it. *)
Lemma mask_text n :
  0 <= n < 2 ^ 64 ->
  String.length (RobotUI.rjust0 (Py.drop 2 (Py.bin n)) 64) = 64%nat
  /\ Spec.is_bits (RobotUI.rjust0 (Py.drop 2 (Py.bin n)) 64) = true
  /\ Spec.binary_value (RobotUI.rjust0 (Py.drop 2 (Py.bin n)) 64) = n.
Proof.
  intros Hn. rewrite bin_nonneg by lia. unfold RobotUI.rjust0.
  pose proof (digits_length 2 n) as Hl.
  assert (Z.log2 n < 64).
  { destruct (Z.eq_dec n 0) as [-> | Hnz]; [reflexivity |].
    apply Z.log2_lt_pow2; lia. }
  pose proof (Z.log2_nonneg n).
  split; [| split].
  - rewrite length_append, length_zeros. lia.
  - apply is_bits_append; [apply is_bits_zeros | apply digits2_bits].
  - unfold Spec.binary_value.
    rewrite value_from_append, value_from_zeros, Z.mul_0_l.
    apply digits_value; lia.
Qed.

End LabelFacts.

(** X7.  A frame with the sentinel and a robot mode of the table rewrites
    every feedback label from that frame: the speed label is the frame's
    speed scaling, the mode label the table's text, the joint and pose
    labels the first six rounded values, and each digital I/O label is a
    text of exactly 64 binary digits whose value is the frame's 64-bit mask.
    In mode 9 the alarm display runs on these labels afterwards. *)
Theorem valid_frame_labels
        {float : Type} (around4 : float -> float)
        (display_error_info : RobotUI.Labels float -> RobotUI.Labels float)
        (ui : RobotUI.Labels float) (a : Frame.t float) :
  Frame.TestValue a = MAGIC ->
  1 <= Frame.RobotMode a <= 11 ->
  0 <= Frame.DigitalInputs a < 2 ^ 64 ->
  0 <= Frame.DigitalOutputs a < 2 ^ 64 ->
  exists shown,
    RobotUI.feed_back_step around4 display_error_info ui (RobotUI.Decoded a)
    = (if Frame.RobotMode a =? 9 then display_error_info shown else shown,
       true)
    /\ RobotUI.label_feed_speed shown = Some (Frame.SpeedScaling a)
    /\ RobotUI.LABEL_ROBOT_MODE (Frame.RobotMode a)
       = Some (RobotUI.label_robot_mode shown)
    /\ String.length (RobotUI.label_di_input shown) = 64%nat
    /\ Spec.is_bits (RobotUI.label_di_input shown) = true
    /\ Spec.binary_value (RobotUI.label_di_input shown) = Frame.DigitalInputs a
    /\ String.length (RobotUI.label_di_output shown) = 64%nat
    /\ Spec.is_bits (RobotUI.label_di_output shown) = true
    /\ Spec.binary_value (RobotUI.label_di_output shown)
       = Frame.DigitalOutputs a
    /\ RobotUI.label_feed_joint shown = firstn 6 (map around4 (Frame.QActual a))
    /\ RobotUI.label_feed_coord shown
       = firstn 6 (map around4 (Frame.ToolVectorActual a)).
Proof.
  intros Hmagic Hmode Hdi Hdo.
  destruct (LABEL_ROBOT_MODE_known _ Hmode) as [text Htext].
  destruct (mask_text _ Hdi) as (Hi1 & Hi2 & Hi3).
  destruct (mask_text _ Hdo) as (Ho1 & Ho2 & Ho3).
  unfold RobotUI.feed_back_step, RobotUI.refresh.
  rewrite Hmagic, Htext.
  change (String.eqb (Py.hex MAGIC) "0x123456789abcdef") with true.
  cbv iota. eexists. split; [reflexivity |].
  cbn [RobotUI.label_feed_speed RobotUI.label_robot_mode RobotUI.label_di_input
       RobotUI.label_di_output RobotUI.label_feed_joint RobotUI.label_feed_coord].
  repeat split; assumption.
Qed.

(** A frame in mode 5 with inputs 5 and outputs 2^63. *)
Lemma valid_frame_labels_witness :
  (Frame.TestValue (Frame.mk 1440 MAGIC 5 42 5 (2 ^ 63) tt [tt] [tt]) = MAGIC
   /\ 1 <= 5 <= 11 /\ 0 <= 5 < 2 ^ 64 /\ 0 <= 2 ^ 63 < 2 ^ 64)
  /\ exists shown,
      RobotUI.feed_back_step (fun x => x) (fun u => u)
        (RobotUI.mk_labels None "" "" "" [] [])
        (RobotUI.Decoded (Frame.mk 1440 MAGIC 5 42 5 (2 ^ 63) tt [tt] [tt]))
      = (shown, true)
      /\ RobotUI.label_robot_mode shown = "ROBOT_MODE_ENABLE"
      /\ Spec.binary_value (RobotUI.label_di_input shown) = 5.
Proof.
  split; [repeat split; lia |].
  destruct (valid_frame_labels (fun x => x) (fun u => u)
              (RobotUI.mk_labels None "" "" "" [] [])
              (Frame.mk 1440 MAGIC 5 42 5 (2 ^ 63) tt [tt] [tt])
              eq_refl ltac:(cbn; lia) ltac:(cbn; lia) ltac:(cbn; lia))
    as (shown & Hstep & _ & Hmode & _ & _ & Hdi & _).
  exists shown. split; [exact Hstep |]. split; [| exact Hdi].
  cbn in Hmode. now injection Hmode as <-.
Defined.

(** X8.  A frame with the sentinel whose robot mode is not one of the
    table's keys 1..11 makes the mode lookup raise after the speed label is
    rewritten.  In [ui.py] nothing catches it: the feedback thread ends there
    and no later read is shown.  In [ui_epick.py] the exception is caught and
    the loop goes on with the next read.  In both only the speed label has
    changed. *)
Theorem unknown_mode_frame
        {float : Type} (around4 : float -> float)
        (display_error_info : RobotUI.Labels float -> RobotUI.Labels float)
        (ui : RobotUI.Labels float) (a : Frame.t float)
        (reads : list (bool * RobotUI.Received float)) :
  Frame.TestValue a = MAGIC ->
  Frame.RobotMode a < 1 \/ 11 < Frame.RobotMode a ->
  let torn :=
    RobotUI.mk_labels (Some (Frame.SpeedScaling a)) (RobotUI.label_robot_mode ui)
      (RobotUI.label_di_input ui) (RobotUI.label_di_output ui)
      (RobotUI.label_feed_joint ui) (RobotUI.label_feed_coord ui) in
  RobotUI.feed_back around4 display_error_info
    ((true, RobotUI.Decoded a) :: reads) ui = torn
  /\ RobotUI.feed_back_epick around4 display_error_info
       ((true, RobotUI.Decoded a) :: reads) ui
     = RobotUI.feed_back_epick around4 display_error_info reads torn.
Proof.
  intros Hmagic Hmode torn.
  pose proof (LABEL_ROBOT_MODE_unknown _ Hmode) as Hnone.
  assert (Hr : RobotUI.refresh around4 display_error_info ui a = (torn, false))
    by (unfold RobotUI.refresh; now rewrite Hnone).
  split.
  - cbn [RobotUI.feed_back]. unfold RobotUI.feed_back_step.
    rewrite Hmagic.
    change (String.eqb (Py.hex MAGIC) "0x123456789abcdef") with true.
    cbv iota. now rewrite Hr.
  - cbn [RobotUI.feed_back_epick]. unfold RobotUI.feed_back_step_epick.
    rewrite Hmagic.
    change (String.eqb (Py.hex MAGIC) "0x123456789abcdef") with true.
    cbv iota. now rewrite Hr.
Qed.

(** A frame in mode 12, followed by a good frame in mode 5. *)
Lemma unknown_mode_frame_witness :
  (Frame.TestValue (Frame.mk 1440 MAGIC 12 42 0 0 7%nat [] []) = MAGIC
   /\ (12 < 1 \/ 11 < 12))
  /\ RobotUI.feed_back (fun x => x) (fun u => u)
       [(true, RobotUI.Decoded (Frame.mk 1440 MAGIC 12 42 0 0 7%nat [] []));
        (true, RobotUI.Decoded (Frame.mk 1440 MAGIC 5 43 0 0 8%nat [] []))]
       (RobotUI.mk_labels None "" "" "" [] [])
     = RobotUI.mk_labels (Some 7%nat) "" "" "" [] [].
Proof.
  assert (Hmode : 12 < 1 \/ 11 < 12) by (right; lia).
  split; [split; [reflexivity | exact Hmode] |].
  exact (proj1 (unknown_mode_frame (fun x => x) (fun u => u)
                  (RobotUI.mk_labels None "" "" "" [] [])
                  (Frame.mk 1440 MAGIC 12 42 0 0 7%nat [] [])
                  [(true, RobotUI.Decoded
                            (Frame.mk 1440 MAGIC 5 43 0 0 8%nat [] []))]
                  eq_refl Hmode)).
Defined.

Section Disconnect.

Context {float : Type}.
Variable around4 : float -> float.
Variable display_error_info : RobotUI.Labels float -> RobotUI.Labels float.

Lemma feed_back_until_disconnect pre r rest (ui : RobotUI.Labels float) :
  RobotUI.feed_back around4 display_error_info (pre ++ (false, r) :: rest) ui
  = RobotUI.feed_back around4 display_error_info pre ui.
Proof.
  revert ui. induction pre as [|[connect x] pre IH]; intros ui;
    [reflexivity |].
  cbn [app RobotUI.feed_back]. destruct connect; [| reflexivity].
  destruct (RobotUI.feed_back_step around4 display_error_info ui x)
    as [ui' alive].
  destruct alive; [apply IH | reflexivity].
Qed.

Lemma feed_back_epick_until_disconnect pre r rest (ui : RobotUI.Labels float) :
  RobotUI.feed_back_epick around4 display_error_info
    (pre ++ (false, r) :: rest) ui
  = RobotUI.feed_back_epick around4 display_error_info pre ui.
Proof.
  revert ui. induction pre as [|[connect x] pre IH]; intros ui;
    [reflexivity |].
  cbn [app RobotUI.feed_back_epick]. destruct connect; [apply IH | reflexivity].
Qed.

End Disconnect.

(** X9.  Both feedback loops test the connection flag at the top of every
    pass: once a pass finds it cleared, nothing that the socket delivers in
    that pass or later reaches the labels. *)
Theorem feed_back_stops_on_disconnect
        {float : Type} (around4 : float -> float)
        (display_error_info : RobotUI.Labels float -> RobotUI.Labels float)
        (pre rest : list (bool * RobotUI.Received float))
        (r : RobotUI.Received float) (ui : RobotUI.Labels float) :
  RobotUI.feed_back around4 display_error_info (pre ++ (false, r) :: rest) ui
  = RobotUI.feed_back around4 display_error_info pre ui
  /\ RobotUI.feed_back_epick around4 display_error_info
       (pre ++ (false, r) :: rest) ui
     = RobotUI.feed_back_epick around4 display_error_info pre ui.
Proof.
  split;
    [apply feed_back_until_disconnect | apply feed_back_epick_until_disconnect].
Qed.

(* ================================================================== *)
(** * Further properties: the serial-bridge session *)
(* ================================================================== *)

Section Channel.

Import Epick.
Variable dashboard : list DashCall -> DashCall -> string.

Lemma traverse_findall_paste pieces (tail : string) :
  Spec.well_cut true pieces = true -> Spec.no_digit tail = true ->
  Py.traverse (fun item => Py.int item 10)
              (Py.findall_int (Spec.paste pieces tail))
  = Some (Spec.integers pieces).
Proof.
  intros Hw Ht. rewrite (findall_int_paste true) by assumption.
  rewrite traverse_tokens by (eapply well_cut_tokens; eassumption).
  unfold Spec.integers. now rewrite map_map.
Qed.

Lemma run_close_none tid st :
  ModbusIndex st = None ->
  run dashboard tid close_modbus_channel st
  = (Value "Modbus Not Connected", st).
Proof. intros H. unfold close_modbus_channel. cbn [run]. now rewrite H. Qed.

Lemma run_close_some tid st i :
  ModbusIndex st = Some i ->
  run dashboard tid close_modbus_channel st
  = (Value (dashboard (calls (log st)) (ModbusClose i)),
     set_index (record st tid (EvDash (ModbusClose i))) None).
Proof. intros H. unfold close_modbus_channel. cbn [run]. now rewrite H. Qed.

Lemma run_write_none tid st address datas :
  ModbusIndex st = None ->
  run dashboard tid (write_by_485 address datas) st
  = (Value "Error: No Modbus Index", st).
Proof. intros H. unfold write_by_485. cbn [run]. now rewrite H. Qed.

End Channel.

(** X10.  [create_modbus_channel] sends one [ModbusCreate] and, on a reply
    of at most 4300 characters, never raises.  It returns the first integer of the reply as error id (0 when
    the reply has none) and the second as session identifier (-1 when there
    is no second).  Whenever the reply has a second integer it is stored as
    [ModbusIndex], whatever the error id says; otherwise [ModbusIndex] is
    left as it was. *)
Theorem create_channel_takes_second_integer
        (dashboard : list Epick.DashCall -> Epick.DashCall -> string)
        (tid : nat) (st : Epick.State) (pieces : list (string * string))
        (tail : string) :
  dashboard (Epick.calls (Epick.log st))
    (Epick.ModbusCreate "127.0.0.1" 60000 9 1) = Spec.paste pieces tail ->
  (String.length (Spec.paste pieces tail) <= 4300)%nat ->
  Spec.well_cut true pieces = true -> Spec.no_digit tail = true ->
  Epick.run dashboard tid Epick.create_modbus_channel st
  = match Spec.integers pieces with
    | error_id :: modbus_index :: _ =>
        (Epick.Value (error_id, modbus_index),
         Epick.set_index
           (Epick.record st tid
              (Epick.EvDash (Epick.ModbusCreate "127.0.0.1" 60000 9 1)))
           (Some modbus_index))
    | [error_id] =>
        (Epick.Value (error_id, -1),
         Epick.record st tid
           (Epick.EvDash (Epick.ModbusCreate "127.0.0.1" 60000 9 1)))
    | [] =>
        (Epick.Value (0, -1),
         Epick.record st tid
           (Epick.EvDash (Epick.ModbusCreate "127.0.0.1" 60000 9 1)))
    end.
Proof.
  intros Hreply _ Hw Ht. unfold Epick.create_modbus_channel.
  cbn [Epick.run]. rewrite Hreply.
  rewrite traverse_findall_paste by assumption. rewrite run_lift_some.
  destruct (Spec.integers pieces) as [|e [|i l]]; reflexivity.
Qed.

(** A refused create whose reply echoes the command: the error id is -1,
    and the first number of the address, 127, becomes the session
    identifier. *)
Lemma create_channel_takes_second_integer_witness :
  ((fun _ _ => "-1,{},ModbusCreate(127.0.0.1,60000,9,1);")
     (Epick.calls (Epick.log Spec.no_session))
     (Epick.ModbusCreate "127.0.0.1" 60000 9 1)
   = Spec.paste
       [("", "-1"); (",{},ModbusCreate(", "127"); (".", "0"); (".", "0");
        (".", "1"); (",", "60000"); (",", "9"); (",", "1")] ");"
   /\ (String.length "-1,{},ModbusCreate(127.0.0.1,60000,9,1);" <= 4300)%nat
   /\ Spec.well_cut true
        [("", "-1"); (",{},ModbusCreate(", "127"); (".", "0"); (".", "0");
         (".", "1"); (",", "60000"); (",", "9"); (",", "1")] = true
   /\ Spec.no_digit ");" = true)
  /\ fst (Epick.run (fun _ _ => "-1,{},ModbusCreate(127.0.0.1,60000,9,1);")
            0%nat Epick.create_modbus_channel Spec.no_session)
     = Epick.Value (-1, 127)
  /\ Epick.ModbusIndex
       (snd (Epick.run (fun _ _ => "-1,{},ModbusCreate(127.0.0.1,60000,9,1);")
               0%nat Epick.create_modbus_channel Spec.no_session))
     = Some 127.
Proof.
  assert (Hlen : (String.length "-1,{},ModbusCreate(127.0.0.1,60000,9,1);"
                  <= 4300)%nat) by (apply Nat.leb_le; reflexivity).
  split; [split; [reflexivity | split; [exact Hlen | split; reflexivity]] |].
  rewrite (create_channel_takes_second_integer
             (fun _ _ => "-1,{},ModbusCreate(127.0.0.1,60000,9,1);")
             0%nat Spec.no_session
             [("", "-1"); (",{},ModbusCreate(", "127"); (".", "0"); (".", "0");
              (".", "1"); (",", "60000"); (",", "9"); (",", "1")] ");"
             eq_refl Hlen eq_refl eq_refl).
  split; reflexivity.
Defined.

(** X11.  [close_modbus_channel] without a session returns
    "Modbus Not Connected" and sends nothing; with session [i] it sends one
    [ModbusClose(i)], returns the reply and forgets the session.  Either way
    the gripper has no session afterwards: a register write then returns
    its error text and a second close returns "Modbus Not Connected", both
    without sending anything. *)
Theorem close_channel_forgets_session
        (dashboard : list Epick.DashCall -> Epick.DashCall -> string)
        (tid : nat) (st : Epick.State) (address : Z) (datas : list Z) :
  (Epick.ModbusIndex st = None ->
   Epick.run dashboard tid Epick.close_modbus_channel st
   = (Epick.Value "Modbus Not Connected", st))
  /\ (forall i,
         Epick.ModbusIndex st = Some i ->
         Epick.run dashboard tid Epick.close_modbus_channel st
         = (Epick.Value (dashboard (Epick.calls (Epick.log st))
                           (Epick.ModbusClose i)),
            Epick.set_index
              (Epick.record st tid (Epick.EvDash (Epick.ModbusClose i)))
              None))
  /\ (forall r st',
         Epick.run dashboard tid Epick.close_modbus_channel st = (r, st') ->
         Epick.ModbusIndex st' = None
         /\ Epick.run dashboard tid (Epick.write_by_485 address datas) st'
            = (Epick.Value "Error: No Modbus Index", st')
         /\ Epick.run dashboard tid Epick.close_modbus_channel st'
            = (Epick.Value "Modbus Not Connected", st')).
Proof.
  split; [apply run_close_none |]. split; [intros i; apply run_close_some |].
  intros r st' Hrun.
  assert (Hnone : Epick.ModbusIndex st' = None).
  { destruct (Epick.ModbusIndex st) as [i |] eqn:Ei.
    - rewrite (run_close_some dashboard tid st i Ei) in Hrun.
      now injection Hrun as _ <-.
    - rewrite (run_close_none dashboard tid st Ei) in Hrun.
      now injection Hrun as _ <-. }
  split; [exact Hnone |].
  split; [now apply run_write_none | now apply run_close_none].
Qed.

(** Closing session 1, then writing. *)
Lemma close_channel_forgets_session_witness :
  Epick.ModbusIndex Spec.open_session = Some 1
  /\ Epick.calls
       (Epick.log
          (snd (Epick.run Spec.quiet 0%nat
                  (Epick.bind Epick.close_modbus_channel
                     (fun _ => Epick.write_by_485 1000 [512]))
                  Spec.open_session)))
     = [Epick.ModbusClose 1].
Proof.
  split; [reflexivity |].
  destruct (close_channel_forgets_session Spec.quiet 0%nat Spec.open_session
              1000 [512]) as (_ & Hsome & Hafter).
  rewrite run_bind, (Hsome 1 eq_refl).
  destruct (Hafter _ _ (Hsome 1 eq_refl)) as (_ & Hw & _).
  rewrite Hw. reflexivity.
Defined.

(** X12.  [close_modbus_channel] does not take [write_lock], and
    [write_by_485] reads [ModbusIndex] again behind its 10 ms sleep.  When
    the session is closed by another thread in between, the register write
    that was already under way goes out with no session identifier. *)
Theorem close_during_write
        (dashboard : list Epick.DashCall -> Epick.DashCall -> string)
        (index : Z) (l : list (nat * Epick.Event)) (address : Z)
        (datas : list Z) :
  Epick.calls
    (Epick.log
       (snd (Epick.run_schedule dashboard [0; 0; 0; 0; 1; 1; 1; 0; 0; 0; 0]%nat
               (fun t => match t with
                         | O => Epick.write_by_485 address datas
                         | 1%nat => Epick.close_modbus_channel
                         | _ => Epick.Ret ""
                         end,
                Epick.mk_state (Some index) None l))))
  = (Epick.calls l
     ++ [Epick.SetTool485 115200 "N" 1; Epick.ModbusClose index;
         Epick.SetHoldRegs None address (Z.of_nat (List.length datas))
           (Spec.val_tab datas)])%list.
Proof.
  cbn. rewrite <- !app_assoc. cbn. rewrite !calls_app. reflexivity.
Qed.

(* ================================================================== *)
(** * Further properties: the binary texts of the encoders *)
(* ================================================================== *)

Section BinaryTexts.

Import Epick.

Lemma digits_nonempty base n : Py.digits base n <> "".
Proof.
  pose proof (digits_length base n) as H.
  destruct (Py.digits base n); [simpl in H; lia | discriminate].
Qed.

(** Behind the radix prefix ["0b"], binary digits are read as their value. *)
Lemma int_radix_bits (d : string) :
  Spec.is_bits d = true -> d <> "" ->
  Py.int (String "0" (String "b" d)) 2 = Some (Spec.binary_value d).
Proof.
  intros Hd Hne. destruct d as [|c r]; [congruence |].
  unfold Spec.is_bits in Hd. cbn [Spec.all_chars] in Hd.
  apply andb_true_iff in Hd as [Hc Hr].
  assert (Hfin : forall acc n,
             match Py.scan_digits 2 false acc (S n) r with
             | Some (v, n0, rest) =>
                 match n0, Py.skip_space rest with
                 | S _, EmptyString => Some v
                 | _, _ => None
                 end
             | None => None
             end = Some (Spec.value_from 2 acc r)).
  { intros acc n. now rewrite scan_digits_bits. }
  destruct (is_bit_cases c Hc) as [-> | ->];
    unfold Py.int, Spec.binary_value; cbn; apply Hfin.
Qed.

Lemma drop_zeros k (x : string) :
  (2 <= k)%nat -> Py.drop 2 (Py.zeros k ++ x) = Py.zeros (k - 2) ++ x.
Proof.
  intros Hk. destruct k as [|[|k]]; try lia.
  cbn. now rewrite Nat.sub_0_r.
Qed.

End BinaryTexts.

(** X13.  Decoding undoes encoding on what can be encoded:
    [binaryStringToDecimal(decimalToBinaryString(n, length))] is [n] for
    every [n >= 0] and every [length]; the text has at least [length]
    characters, all of them binary digits, and exactly eight for a byte. *)
Theorem binary_text_round_trip (n : Z) (length : nat) :
  0 <= n ->
  Epick.binaryStringToDecimal (Epick.decimalToBinaryString n length) = Some n
  /\ Spec.is_bits (Epick.decimalToBinaryString n length) = true
  /\ (length <= String.length (Epick.decimalToBinaryString n length))%nat
  /\ (n <= 255 -> String.length (Epick.decimalToBinaryString n 8) = 8%nat).
Proof.
  intros Hn.
  pose proof (decimalToBinaryString_bits n length Hn) as Hbits.
  split; [| split; [exact Hbits | split]].
  - unfold Epick.binaryStringToDecimal. rewrite int_bits.
    + f_equal. now apply decimalToBinaryString_value.
    + exact Hbits.
    + rewrite decimalToBinaryString_nonneg by exact Hn.
      pose proof (digits_nonempty 2 n) as Hd.
      destruct (Py.zeros _); [exact Hd | discriminate].
  - apply decimalToBinaryString_length.
  - intros Hb. apply decimalToBinaryString_byte. lia.
Qed.

(** The inverted vacuum 40 in eight digits. *)
Lemma binary_text_round_trip_witness :
  0 <= 40
  /\ Epick.decimalToBinaryString 40 8 = "00101000"
  /\ Epick.binaryStringToDecimal (Epick.decimalToBinaryString 40 8) = Some 40.
Proof.
  split; [lia |]. split; [reflexivity |].
  exact (proj1 (binary_text_round_trip 40 8 ltac:(lia))).
Defined.

(** X14.  A negative number does not survive the encoding: the slice
    [bin(n)[2:]] keeps the [b] of ["-0b"] and drops the sign.  Decoding the
    text then raises, except when the padding puts exactly one zero in front
    of the [b]: the text then reads as a literal with radix prefix and
    decodes to [-n].  It never decodes to [n]. *)
Theorem negative_binary_text (n : Z) (length : nat) :
  n < 0 ->
  Epick.decimalToBinaryString n length
  = Py.zeros (length - S (String.length (Py.digits 2 (- n))))
    ++ String "b" (Py.digits 2 (- n))
  /\ Epick.binaryStringToDecimal (Epick.decimalToBinaryString n length)
     = (if Nat.eqb length (S (S (String.length (Py.digits 2 (- n)))))
        then Some (- n) else None)
  /\ Epick.binaryStringToDecimal (Epick.decimalToBinaryString n length)
     <> Some n.
Proof.
  intros Hn.
  pose proof (decimalToBinaryString_neg n length Hn) as Htext.
  assert (Hdec : Epick.binaryStringToDecimal
                   (Epick.decimalToBinaryString n length)
                 = (if Nat.eqb length
                         (S (S (String.length (Py.digits 2 (- n)))))
                    then Some (- n) else None)).
  { unfold Epick.binaryStringToDecimal. rewrite Htext.
    remember (length - S (String.length (Py.digits 2 (- n))))%nat as j.
    destruct (Nat.eqb_spec length (S (S (String.length (Py.digits 2 (- n))))))
      as [E | E].
    - assert (j = 1%nat) by lia. subst j. rewrite H. cbn [Py.zeros append].
      rewrite int_radix_bits.
      + f_equal. apply digits_value; lia.
      + apply digits2_bits.
      + apply digits_nonempty.
    - destruct j as [|[|j]].
      + reflexivity.
      + lia.
      + apply int_b_raises.
        * rewrite all_chars_append. cbn [Spec.all_chars].
          rewrite !is_bits_bin_chars; auto using is_bits_zeros, digits2_bits.
        * rewrite drop_zeros by lia. apply has_b_append_r. reflexivity. }
  split; [exact Htext |]. split; [exact Hdec |].
  rewrite Hdec. destruct (Nat.eqb _ _); [| discriminate].
  intros [= H]. lia.
Qed.

(** [-5] in eight and in five characters. *)
Lemma negative_binary_text_witness :
  -5 < 0
  /\ Epick.binaryStringToDecimal (Epick.decimalToBinaryString (-5) 8) = None
  /\ Epick.decimalToBinaryString (-5) 5 = "0b101"
  /\ Epick.binaryStringToDecimal (Epick.decimalToBinaryString (-5) 5) = Some 5.
Proof.
  split; [lia |].
  destruct (negative_binary_text (-5) 8 ltac:(lia)) as (_ & H8 & _).
  destruct (negative_binary_text (-5) 5 ltac:(lia)) as (_ & H5 & _).
  split; [exact H8 |]. split; [reflexivity | exact H5].
Defined.

(* ================================================================== *)
(** * Further properties: gripper calls and the buttons of the window *)
(* ================================================================== *)

Section Outcomes.

Import Epick.
Variable dashboard : list DashCall -> DashCall -> string.

Lemma settles_ret {A : Type} tid (a : A) st :
  write_lock st = None -> More.settles dashboard tid (Ret a) st.
Proof. intros Hl. exists (Value a), st. repeat split; auto; discriminate. Qed.

Lemma settles_bind {A B : Type} tid (p : Prog A) (k : A -> Prog B) st :
  More.settles dashboard tid p st ->
  (forall a st', write_lock st' = None -> ModbusIndex st' = ModbusIndex st ->
                 More.settles dashboard tid (k a) st') ->
  More.settles dashboard tid (bind p k) st.
Proof.
  intros (res & st' & Hr & Hb & He & Hl & Hi) Hk.
  unfold More.settles. rewrite run_bind, Hr.
  destruct res as [a | e |]; [| | congruence].
  - destruct (Hk a st' Hl Hi) as (res2 & st2 & Hr2 & Hb2 & He2 & Hl2 & Hi2).
    exists res2, st2. split; [exact Hr2 |].
    split; [exact Hb2 |]. split; [exact He2 |]. split; [exact Hl2 |].
    congruence.
  - exists (Exception e), st'. split; [reflexivity |].
    split; [discriminate |].
    split; [intros [= ->]; now apply He |]. split; assumption.
Qed.

Lemma settles_lift {A : Type} tid (o : option A) st :
  write_lock st = None -> More.settles dashboard tid (lift o) st.
Proof.
  intros Hl. destruct o as [a |]; [now apply settles_ret |].
  exists (Exception ValueError), st. repeat split; auto; discriminate.
Qed.

Lemma settles_write tid address datas st :
  write_lock st = None ->
  More.settles dashboard tid (write_by_485 address datas) st.
Proof.
  intros Hl. destruct (ModbusIndex st) as [i |] eqn:Hi.
  - eexists _, _. split; [apply run_write; congruence |].
    repeat split; discriminate.
  - eexists _, _. split; [apply run_write_none; exact Hi |].
    repeat split; auto; discriminate.
Qed.

Lemma settles_sleep {A : Type} tid ms (p : Prog A) st :
  (forall st', write_lock st' = None -> ModbusIndex st' = ModbusIndex st ->
               More.settles dashboard tid p st') ->
  write_lock st = None ->
  More.settles dashboard tid (Sleep ms p) st.
Proof.
  intros Hp Hl.
  destruct (Hp (record st tid (EvSleep ms)) Hl eq_refl)
    as (res & st' & Hr & Hrest).
  exists res, st'. split; [exact Hr | exact Hrest].
Qed.

Ltac settle :=
  repeat first
    [ apply settles_write; assumption
    | apply settles_ret; assumption
    | apply settles_lift; assumption
    | apply settles_sleep; [intros ? ? ? | assumption]
    | apply settles_bind; [| intros ? ? ? ?] ].

Lemma grip_settles tid max_v min_v timeout st :
  write_lock st = None ->
  More.settles dashboard tid (grip max_v min_v timeout) st.
Proof. intros Hl. unfold grip. settle. Qed.

Lemma init_returns tid st :
  write_lock st = None ->
  exists r st',
    run dashboard tid init st = (Value r, st')
    /\ write_lock st' = None /\ ModbusIndex st' = ModbusIndex st.
Proof.
  intros Hl. destruct (ModbusIndex st) as [i |] eqn:Hi.
  - destruct (init_runs dashboard tid st) as (r & Hr); [congruence | exact Hl |].
    exists r. eexists. split; [exact Hr |].
    split; [reflexivity |]. now rewrite after_index.
  - exists "Error: No Modbus Index", st. split; [| auto].
    unfold init. rewrite ACTION_clear_fault, run_lift_some.
    rewrite (MAX_VACUUM_nonneg RELEASE_VACUUM), run_lift_some
      by (unfold RELEASE_VACUUM; lia).
    rewrite run_bind, run_write_none by exact Hi.
    rewrite ACTION_enable, run_lift_some.
    now rewrite run_write_none by exact Hi.
Qed.

Lemma release_returns tid st :
  write_lock st = None ->
  exists r st',
    run dashboard tid release st = (Value r, st')
    /\ write_lock st' = None /\ ModbusIndex st' = ModbusIndex st.
Proof.
  intros Hl. destruct (ModbusIndex st) as [i |] eqn:Hi.
  - destruct (release_runs dashboard tid st) as (r & Hr);
      [congruence | exact Hl |].
    exists r. eexists. split; [exact Hr |].
    split; [reflexivity |]. now rewrite after_index.
  - exists "Error: No Modbus Index", (record st tid (EvSleep 1000)).
    split; [| auto].
    unfold release. rewrite ACTION_clear_fault, run_lift_some.
    rewrite run_bind, run_write_none by exact Hi.
    rewrite ACTION_execute, run_lift_some.
    rewrite (MAX_VACUUM_nonneg RELEASE_VACUUM), run_lift_some
      by (unfold RELEASE_VACUUM; lia).
    rewrite run_bind, run_write_none by exact Hi.
    cbn [run]. rewrite ACTION_enable, run_lift_some.
    now rewrite run_write_none by exact Hi.
Qed.

Lemma returns_settles {A : Type} tid (p : Prog A) st :
  (exists r st',
      run dashboard tid p st = (Value r, st')
      /\ write_lock st' = None /\ ModbusIndex st' = ModbusIndex st) ->
  More.settles dashboard tid p st.
Proof.
  intros (r & st' & Hr & Hl & Hi). exists (Value r), st'.
  split; [exact Hr |]. repeat split; auto; discriminate.
Qed.

(** [try ... except Exception] around a call: a value passes, an exception
    raised by the call goes to the handler.  (The release of a lock nobody
    holds is the one exception [run] reports by itself.) *)
Lemma run_catch {A : Type} tid (p : Prog A) (handler : exn -> Prog A) st res st' :
  run dashboard tid p st = (res, st') ->
  res <> Exception RuntimeError ->
  run dashboard tid (EpickUI.catch p handler) st
  = match res with
    | Exception e => run dashboard tid (handler e) st'
    | _ => (res, st')
    end.
Proof.
  revert st.
  induction p as [a | e | c k IH | ms k IH | k IH | k IH | k IH | i k IH];
    intros st Hr Hne; cbn [EpickUI.catch run] in *; auto.
  - now injection Hr as <- <-.
  - now injection Hr as <- <-.
  - destruct (write_lock st); [| now apply IH].
    now injection Hr as <- <-.
  - destruct (write_lock st); [now apply IH |].
    injection Hr as <- <-. congruence.
Qed.

Lemma run_bind_value {A B : Type} tid (p : Prog A) (k : A -> Prog B) st b st' :
  run dashboard tid (bind p k) st = (Value b, st') ->
  exists a st1,
    run dashboard tid p st = (Value a, st1)
    /\ run dashboard tid (k a) st1 = (Value b, st').
Proof.
  rewrite run_bind. destruct (run dashboard tid p st) as [[a | e |] st1];
    intros H; try discriminate. now exists a, st1.
Qed.

(** A guarded call whose handler shows the error box. *)
Lemma guarded_call tid (p : Prog EpickUI.Shown) st :
  More.settles dashboard tid p st ->
  (forall b st', run dashboard tid p st = (Value b, st') -> b = EpickUI.Done) ->
  exists shown st',
    run dashboard tid (EpickUI.catch p (fun _ => Ret EpickUI.ErrorBox)) st
    = (Value shown, st')
    /\ (shown = EpickUI.Done \/ shown = EpickUI.ErrorBox)
    /\ write_lock st' = None /\ ModbusIndex st' = ModbusIndex st.
Proof.
  intros (res & st' & Hr & Hb & He & Hl & Hi) Hdone.
  rewrite (run_catch tid p _ st res st' Hr He).
  destruct res as [b | e |]; [| | congruence].
  - exists b, st'. rewrite (Hdone b st' Hr). auto.
  - exists EpickUI.ErrorBox, st'. auto.
Qed.

Lemma then_done {A : Type} tid (p : Prog A) st b st' :
  run dashboard tid (bind p (fun _ => Ret EpickUI.Done)) st = (Value b, st') ->
  b = EpickUI.Done.
Proof.
  intros H. apply run_bind_value in H as (a & st1 & _ & H).
  cbn in H. congruence.
Qed.

Lemma epick_init_outcome tid st :
  write_lock st = None ->
  exists shown st',
    run dashboard tid (EpickUI.epick_init true) st = (Value shown, st')
    /\ (shown = EpickUI.Done \/ shown = EpickUI.ErrorBox)
    /\ write_lock st' = None /\ ModbusIndex st' = ModbusIndex st.
Proof.
  intros Hl. apply guarded_call.
  - apply settles_bind; [now apply returns_settles, init_returns |].
    intros; now apply settles_ret.
  - intros b st'. apply then_done.
Qed.

Lemma epick_release_outcome tid st :
  write_lock st = None ->
  exists shown st',
    run dashboard tid (EpickUI.epick_release true) st = (Value shown, st')
    /\ (shown = EpickUI.Done \/ shown = EpickUI.ErrorBox)
    /\ write_lock st' = None /\ ModbusIndex st' = ModbusIndex st.
Proof.
  intros Hl. apply guarded_call.
  - apply settles_bind; [now apply returns_settles, release_returns |].
    intros; now apply settles_ret.
  - intros b st'. apply then_done.
Qed.

Lemma epick_grip_outcome tid st epick_max epick_min epick_timeout :
  write_lock st = None ->
  exists shown st',
    run dashboard tid
      (EpickUI.epick_grip true epick_max epick_min epick_timeout) st
    = (Value shown, st')
    /\ (shown = EpickUI.Done \/ shown = EpickUI.ErrorBox)
    /\ write_lock st' = None /\ ModbusIndex st' = ModbusIndex st.
Proof.
  intros Hl. apply guarded_call.
  - unfold EpickUI.epick_grip. settle.
  - intros b st' H.
    apply run_bind_value in H as (mx & st1 & _ & H).
    apply run_bind_value in H as (mn & st2 & _ & H).
    apply run_bind_value in H as (tm & st3 & _ & H).
    now apply then_done in H.
Qed.

(** An entry that is not an integer: the callback ends in the handler
    before the gripper is called. *)
Lemma epick_grip_bad_entry tid st epick_max epick_min epick_timeout :
  Py.int epick_max 10 = None \/ Py.int epick_min 10 = None
  \/ Py.int epick_timeout 10 = None ->
  run dashboard tid
    (EpickUI.epick_grip true epick_max epick_min epick_timeout) st
  = (Value EpickUI.ErrorBox, st).
Proof.
  intros H. unfold EpickUI.epick_grip.
  destruct (Py.int epick_max 10) as [mx |]; [| reflexivity].
  destruct (Py.int epick_min 10) as [mn |]; [| reflexivity].
  destruct (Py.int epick_timeout 10) as [tm |]; [| reflexivity].
  destruct H as [H | [H | H]]; discriminate.
Qed.

Lemma epick_grip_rejected tid st epick_max epick_min epick_timeout mx mn tm :
  Py.int epick_max 10 = Some mx -> Py.int epick_min 10 = Some mn ->
  Py.int epick_timeout 10 = Some tm ->
  ModbusIndex st <> None -> write_lock st = None ->
  100 < mx \/ 100 < mn ->
  run dashboard tid
    (EpickUI.epick_grip true epick_max epick_min epick_timeout) st
  = (Value EpickUI.ErrorBox,
     Spec.after tid st [Spec.Write ROBORIQ_EPICK_WRITE_ADDRESS [512]]).
Proof.
  intros Hmx Hmn Htm Hi Hl Hbad. unfold EpickUI.epick_grip.
  rewrite Hmx, Hmn, Htm. cbn [lift bind].
  pose proof (grip_raises dashboard tid st mx mn tm Hi Hl Hbad) as Hg.
  erewrite run_catch.
  2: { rewrite run_bind, Hg. reflexivity. }
  - reflexivity.
  - discriminate.
Qed.

End Outcomes.

(** X15.  A gripper method called alone on a gripper whose lock is free
    never waits and never leaves the lock taken, with or without a session:
    [init] and [release] always come back with a reply, [grip] (with a
    timeout below 2^53 in size, which the division by 100 represents) comes
    back with a reply or raises [ValueError] from an encoder; each time the
    lock is free again and the session identifier is the one it was. *)
Theorem gripper_call_leaves_lock_free
        (dashboard : list Epick.DashCall -> Epick.DashCall -> string)
        (tid : nat) (st : Epick.State) (max_v min_v timeout : Z) :
  Epick.write_lock st = None ->
  Z.abs timeout < 2 ^ 53 ->
  (exists r st',
      Epick.run dashboard tid Epick.init st = (Epick.Value r, st')
      /\ Epick.write_lock st' = None
      /\ Epick.ModbusIndex st' = Epick.ModbusIndex st)
  /\ (exists r st',
         Epick.run dashboard tid Epick.release st = (Epick.Value r, st')
         /\ Epick.write_lock st' = None
         /\ Epick.ModbusIndex st' = Epick.ModbusIndex st)
  /\ (exists res st',
         Epick.run dashboard tid (Epick.grip max_v min_v timeout) st
         = (res, st')
         /\ (res = Epick.Exception Epick.ValueError \/ exists r, res = Epick.Value r)
         /\ Epick.write_lock st' = None
         /\ Epick.ModbusIndex st' = Epick.ModbusIndex st).
Proof.
  intros Hl _. split; [now apply init_returns |].
  split; [now apply release_returns |].
  destruct (grip_settles dashboard tid max_v min_v timeout st Hl)
    as (res & st' & Hr & Hb & He & Hl' & Hi').
  exists res, st'. split; [exact Hr |]. split; [| now split].
  destruct res as [r | [|] |]; try congruence; eauto.
Qed.

(** The three methods on an open session and [grip(60, 101, 1000)]. *)
Lemma gripper_call_leaves_lock_free_witness :
  (Epick.write_lock Spec.open_session = None /\ Z.abs 1000 < 2 ^ 53)
  /\ (exists r st',
         Epick.run Spec.quiet 0%nat Epick.init Spec.open_session
         = (Epick.Value r, st')
         /\ Epick.write_lock st' = None)
  /\ (exists res st',
         Epick.run Spec.quiet 0%nat (Epick.grip 60 101 1000) Spec.open_session
         = (res, st')
         /\ Epick.write_lock st' = None).
Proof.
  split; [split; [reflexivity | cbn; lia] |].
  destruct (gripper_call_leaves_lock_free Spec.quiet 0%nat Spec.open_session
              60 101 1000 eq_refl ltac:(cbn; lia))
    as ((r & st1 & H1 & L1 & _) & _ & (res & st3 & H3 & _ & L3 & _)).
  split; [exists r, st1 | exists res, st3]; split; assumption.
Defined.

(** X16.  The gripper buttons of the window never raise.  Without a
    gripper object a callback does nothing.  With one, run on a free lock, it
    ends by printing its line or by showing the error box, and the lock is
    free afterwards.  [epick_grip] reads the three entries before it calls
    the gripper: when one of them is not an integer the error box is shown
    and nothing has been sent.  When they are integers (texts of at most 4300
    characters, the limit of [int]) with a maximum or a minimum above 100,
    on an open session, the error box is shown once the fault-clear write
    is out, and nothing else was sent. *)
Theorem gripper_buttons_never_raise
        (dashboard : list Epick.DashCall -> Epick.DashCall -> string)
        (tid : nat) (st : Epick.State)
        (epick_max epick_min epick_timeout : string) :
  Epick.write_lock st = None ->
  (forall p,
      In p [EpickUI.epick_init false;
            EpickUI.epick_grip false epick_max epick_min epick_timeout;
            EpickUI.epick_release false] ->
      Epick.run dashboard tid p st = (Epick.Value EpickUI.Nothing, st))
  /\ (forall p,
         In p [EpickUI.epick_init true;
               EpickUI.epick_grip true epick_max epick_min epick_timeout;
               EpickUI.epick_release true] ->
         exists shown st',
           Epick.run dashboard tid p st = (Epick.Value shown, st')
           /\ (shown = EpickUI.Done \/ shown = EpickUI.ErrorBox)
           /\ Epick.write_lock st' = None
           /\ Epick.ModbusIndex st' = Epick.ModbusIndex st)
  /\ (Py.int epick_max 10 = None \/ Py.int epick_min 10 = None
      \/ Py.int epick_timeout 10 = None ->
      Epick.run dashboard tid
        (EpickUI.epick_grip true epick_max epick_min epick_timeout) st
      = (Epick.Value EpickUI.ErrorBox, st))
  /\ (forall mx mn tm,
         (String.length epick_max <= 4300)%nat ->
         (String.length epick_min <= 4300)%nat ->
         (String.length epick_timeout <= 4300)%nat ->
         Py.int epick_max 10 = Some mx -> Py.int epick_min 10 = Some mn ->
         Py.int epick_timeout 10 = Some tm ->
         Epick.ModbusIndex st <> None ->
         100 < mx \/ 100 < mn ->
         exists st',
           Epick.run dashboard tid
             (EpickUI.epick_grip true epick_max epick_min epick_timeout) st
           = (Epick.Value EpickUI.ErrorBox, st')
           /\ Spec.writes_of st'
              = (Spec.writes_of st
                 ++ [(Epick.ROBORIQ_EPICK_WRITE_ADDRESS, 1, "{512}")])%list).
Proof.
  intros Hl. split; [| split; [| split]].
  - intros p [<- | [<- | [<- | []]]]; reflexivity.
  - intros p [<- | [<- | [<- | []]]].
    + now apply epick_init_outcome.
    + now apply epick_grip_outcome.
    + now apply epick_release_outcome.
  - apply epick_grip_bad_entry.
  - intros mx mn tm _ _ _ Hmx Hmn Htm Hi Hbad. eexists. split.
    + eapply epick_grip_rejected; eassumption.
    + rewrite writes_of_after. reflexivity.
Qed.

(** The entries ["abc"], ["40"], ["1000"], and ["120"], ["40"], ["1000"],
    on an open session. *)
Lemma gripper_buttons_never_raise_witness :
  Epick.write_lock Spec.open_session = None
  /\ Epick.run Spec.quiet 0%nat (EpickUI.epick_grip true "abc" "40" "1000")
       Spec.open_session
     = (Epick.Value EpickUI.ErrorBox, Spec.open_session)
  /\ (exists st',
         Epick.run Spec.quiet 0%nat (EpickUI.epick_grip true "120" "40" "1000")
           Spec.open_session
         = (Epick.Value EpickUI.ErrorBox, st')
         /\ Spec.writes_of st' = [(1000, 1, "{512}")]).
Proof.
  split; [reflexivity |]. split.
  - destruct (gripper_buttons_never_raise Spec.quiet 0%nat Spec.open_session
                "abc" "40" "1000" eq_refl) as (_ & _ & Hbad & _).
    apply Hbad. left. reflexivity.
  - destruct (gripper_buttons_never_raise Spec.quiet 0%nat Spec.open_session
                "120" "40" "1000" eq_refl) as (_ & _ & _ & Hrej).
    apply (Hrej 120 40 1000); try reflexivity; try (cbn; lia).
    discriminate.
Defined.

(* ================================================================== *)
(** * Further properties: program order under interleaving *)
(* ================================================================== *)

Section ProgramOrder.

Import Epick.
Variable dashboard : list DashCall -> DashCall -> string.
Variable i : Z.

Lemma thread_events_app t l1 l2 :
  More.thread_events t (l1 ++ l2)
  = (More.thread_events t l1 ++ More.thread_events t l2)%list.
Proof.
  induction l1 as [|[t' e] l1 IH]; [reflexivity |].
  cbn. destruct (Nat.eqb t' t); cbn; now rewrite IH.
Qed.

Lemma effects_cons index s steps :
  More.effects index (s :: steps)
  = (More.effects index [s] ++ More.effects index steps)%list.
Proof. unfold More.effects. now rewrite events_of_cons, map_app. Qed.

Lemma emits_lift_bind {A B : Type} (o : option A) (k : A -> Prog B) T :
  (forall a, o = Some a -> More.emits (Some i) (k a) T) ->
  More.emits (Some i) (bind (lift o) k) T.
Proof. intros H. destruct o as [a |]; cbn; auto. Qed.

Lemma emits_write address datas :
  More.emits (Some i) (write_by_485 address datas)
    (More.effects (Some i) [Spec.Write address datas]).
Proof. cbn. repeat split. Qed.

Lemma emits_write_bind {B : Type} address datas (k : string -> Prog B) T :
  (forall r, More.emits (Some i) (k r) T) ->
  More.emits (Some i) (bind (write_by_485 address datas) k)
    (More.effects (Some i) [Spec.Write address datas] ++ T).
Proof. intros H. cbn. repeat split. intros. apply H. Qed.

Lemma emits_grip max_v min_v timeout :
  More.emits (Some i) (grip max_v min_v timeout)
    (More.effects (Some i) (More.grip_steps max_v min_v timeout)).
Proof.
  unfold grip, More.grip_steps.
  rewrite ACTION_clear_fault, ACTION_enable, ACTION_execute.
  apply emits_lift_bind. intros ? [= <-].
  rewrite effects_cons. apply emits_write_bind. intros _.
  apply emits_lift_bind. intros a ->.
  apply emits_lift_bind. intros b ->.
  apply emits_lift_bind. intros ? [= <-].
  rewrite effects_cons. apply emits_write_bind. intros _.
  rewrite effects_cons. apply emits_write_bind. intros _.
  apply emits_lift_bind. intros ? [= <-].
  apply emits_write.
Qed.

Lemma emits_release :
  More.emits (Some i) release (More.effects (Some i) More.release_steps).
Proof.
  unfold release, More.release_steps.
  rewrite ACTION_clear_fault, ACTION_enable, ACTION_execute.
  rewrite (MAX_VACUUM_nonneg RELEASE_VACUUM) by (unfold RELEASE_VACUUM; lia).
  apply emits_lift_bind. intros ? [= <-].
  rewrite effects_cons. apply emits_write_bind. intros _.
  apply emits_lift_bind. intros ? [= <-].
  apply emits_lift_bind. intros ? [= <-].
  rewrite effects_cons. apply emits_write_bind. intros _.
  split; [reflexivity |].
  apply emits_lift_bind. intros ? [= <-].
  apply emits_write.
Qed.

Lemma keep_same (full : nat -> list Event) (pool : Pool) l tid p' R :
  (forall t, exists R,
      More.emits (Some i) (pool t) R
      /\ (More.thread_events t l ++ R)%list = full t) ->
  More.emits (Some i) p' R ->
  (More.thread_events tid l ++ R)%list = full tid ->
  forall t, exists R,
    More.emits (Some i) (update pool tid p' t) R
    /\ (More.thread_events t l ++ R)%list = full t.
Proof.
  intros Hinv Hp Hfull t. unfold update.
  destruct (Nat.eqb_spec t tid) as [-> | Hne]; [now exists R | apply Hinv].
Qed.

Lemma keep_event (full : nat -> list Event) (pool : Pool) l tid p' e R' :
  (forall t, exists R,
      More.emits (Some i) (pool t) R
      /\ (More.thread_events t l ++ R)%list = full t) ->
  More.emits (Some i) p' R' ->
  (More.thread_events tid l ++ e :: R')%list = full tid ->
  forall t, exists R,
    More.emits (Some i) (update pool tid p' t) R
    /\ (More.thread_events t (l ++ [(tid, e)]) ++ R)%list = full t.
Proof.
  intros Hinv Hp Hfull t. unfold update. rewrite thread_events_app.
  cbn [More.thread_events]. rewrite (Nat.eqb_sym tid t).
  destruct (Nat.eqb_spec t tid) as [-> | Hne].
  - exists R'. split; [exact Hp |]. now rewrite <- app_assoc.
  - rewrite app_nil_r. apply Hinv.
Qed.

(** What the scheduler keeps: the session stays open, and each thread has
    done a beginning of its effects and still has the rest to do. *)
Lemma step_keeps_order (full : nat -> list Event) tid (cfg : Pool * State) :
  ModbusIndex (snd cfg) = Some i ->
  (forall t, exists R,
      More.emits (Some i) (fst cfg t) R
      /\ (More.thread_events t (log (snd cfg)) ++ R)%list = full t) ->
  ModbusIndex (snd (step dashboard tid cfg)) = Some i
  /\ (forall t, exists R,
         More.emits (Some i) (fst (step dashboard tid cfg) t) R
         /\ (More.thread_events t (log (snd (step dashboard tid cfg))) ++ R)%list
            = full t).
Proof.
  destruct cfg as [pool st]. cbn [fst snd]. intros Hi Hinv.
  unfold step. cbn [fst snd].
  destruct (Hinv tid) as (R & HR & Hfull).
  destruct (pool tid) as [a | e | c k | ms k | k | k | k | j k] eqn:E;
    cbn [head_step More.emits] in *.
  - now split.
  - now split.
  - destruct R as [|e R']; [contradiction |]. destruct HR as [-> Hk].
    cbn [fst snd record ModbusIndex log]. split; [exact Hi |].
    now apply keep_event with (R' := R').
  - destruct R as [|e R']; [contradiction |]. destruct HR as [-> Hk].
    cbn [fst snd record ModbusIndex log]. split; [exact Hi |].
    now apply keep_event with (R' := R').
  - destruct R as [|e R']; [contradiction |]. destruct HR as [-> Hk].
    destruct (write_lock st); cbn [fst snd]; [now split |].
    cbn [record set_lock ModbusIndex log]. split; [exact Hi |].
    now apply keep_event with (R' := R').
  - destruct R as [|e R']; [contradiction |]. destruct HR as [-> Hk].
    destruct (write_lock st); cbn [fst snd].
    + cbn [record set_lock ModbusIndex log]. split; [exact Hi |].
      now apply keep_event with (R' := R').
    + split; [exact Hi |].
      now apply keep_same with (R := EvRelease :: R').
  - cbn [fst snd]. split; [exact Hi |]. rewrite Hi.
    now apply keep_same with (R := R).
  - contradiction.
Qed.

Lemma schedule_keeps_order (full : nat -> list Event) sched (cfg : Pool * State) :
  ModbusIndex (snd cfg) = Some i ->
  (forall t, exists R,
      More.emits (Some i) (fst cfg t) R
      /\ (More.thread_events t (log (snd cfg)) ++ R)%list = full t) ->
  forall t,
    More.begins
      (More.thread_events t (log (snd (run_schedule dashboard sched cfg))))
      (full t).
Proof.
  revert cfg. induction sched as [|tid rest IH]; intros cfg Hi Hinv t.
  - cbn [run_schedule]. destruct (Hinv t) as (R & _ & Hfull). now exists R.
  - cbn [run_schedule].
    destruct (step_keeps_order full tid cfg Hi Hinv) as [Hi' Hinv'].
    now apply IH.
Qed.

End ProgramOrder.

(** X17.  However the scheduler interleaves a thread calling [grip] (with
    arguments below 2^53 in size) with a thread calling [release] on one
    gripper with an open session, and whatever the controller answers, each
    thread performs the effects of its own call in program order.  At every moment, what the [grip] thread has
    done (lock operations, calls and sleeps) is a beginning of the effects of
    its four writes in their order, what the [release] thread has done is a
    beginning of the effects of its fault-clear write, its release write,
    its sleep of one second and its hold write, and no other thread has done
    anything. *)
Theorem interleaving_keeps_program_order
        (dashboard : list Epick.DashCall -> Epick.DashCall -> string)
        (sched : list nat) (max_v min_v timeout i : Z) :
  Z.abs max_v < 2 ^ 53 -> Z.abs min_v < 2 ^ 53 -> Z.abs timeout < 2 ^ 53 ->
  let st := snd (Epick.run_schedule dashboard sched
                   (Epick.grip_and_release max_v min_v timeout (Some i))) in
  More.begins (More.thread_events 0 (Epick.log st))
    (More.effects (Some i) (More.grip_steps max_v min_v timeout))
  /\ More.begins (More.thread_events 1 (Epick.log st))
       (More.effects (Some i) More.release_steps)
  /\ (forall t, (2 <= t)%nat -> More.thread_events t (Epick.log st) = []).
Proof.
  intros _ _ _ st. subst st.
  pose (full := fun t : nat =>
                  match t with
                  | O => More.effects (Some i) (More.grip_steps max_v min_v timeout)
                  | 1%nat => More.effects (Some i) More.release_steps
                  | _ => []
                  end).
  assert (H : forall t,
             More.begins
               (More.thread_events t
                  (Epick.log
                     (snd (Epick.run_schedule dashboard sched
                             (Epick.grip_and_release max_v min_v timeout
                                (Some i))))))
               (full t)).
  { apply (schedule_keeps_order dashboard i); [reflexivity |].
    intros [|[|t]]; cbn [Epick.grip_and_release fst snd Epick.log
                         More.thread_events app].
    - eexists. split; [apply emits_grip | reflexivity].
    - eexists. split; [apply emits_release | reflexivity].
    - exists []. split; reflexivity. }
  split; [exact (H 0%nat) |]. split; [exact (H 1%nat) |].
  intros [|[|t]] Ht; try lia.
  destruct (H (S (S t))) as (rest & Hrest).
  now apply app_eq_nil in Hrest.
Qed.

(** [grip(60, 40, 1000)] and [release] on session 1, the scheduler
    switching between them inside their first writes. *)
Lemma interleaving_keeps_program_order_witness :
  (Z.abs 60 < 2 ^ 53 /\ Z.abs 40 < 2 ^ 53 /\ Z.abs 1000 < 2 ^ 53)
  /\ More.begins
       (More.thread_events 0
          (Epick.log
             (snd (Epick.run_schedule Spec.quiet [0; 0; 1; 0; 0; 1; 0; 1]%nat
                     (Epick.grip_and_release 60 40 1000 (Some 1))))))
       (More.effects (Some 1) (More.grip_steps 60 40 1000))
  /\ More.begins
       (More.thread_events 1
          (Epick.log
             (snd (Epick.run_schedule Spec.quiet [0; 0; 1; 0; 0; 1; 0; 1]%nat
                     (Epick.grip_and_release 60 40 1000 (Some 1))))))
       (More.effects (Some 1) More.release_steps).
Proof.
  assert (H60 : Z.abs 60 < 2 ^ 53) by (cbn; lia).
  assert (H40 : Z.abs 40 < 2 ^ 53) by (cbn; lia).
  assert (H1000 : Z.abs 1000 < 2 ^ 53) by (cbn; lia).
  split; [repeat split; assumption |].
  destruct (interleaving_keeps_program_order Spec.quiet
              [0; 0; 1; 0; 0; 1; 0; 1]%nat 60 40 1000 1 H60 H40 H1000)
    as (Hg & Hr & _).
  split; assumption.
Defined.

(* ================================================================== *)
(** * Further properties: the file name of a recording *)
(* ================================================================== *)

Section LowerFacts.

Lemma lower_char_digit c :
  Py.is_digit (Text.lower_char c) = true ->
  Text.lower_char c = c /\ Py.is_digit c = true.
Proof.
  destruct c as [[] [] [] [] [] [] [] []]; intros H;
    try discriminate H; split; reflexivity.
Qed.

Lemma lower_char_of_digit c : Py.is_digit c = true -> Text.lower_char c = c.
Proof.
  intros H. destruct (digit_cases c H) as [-> | [-> | [-> | [-> | [-> | [->
    | [-> | [-> | [-> | ->]]]]]]]]]; reflexivity.
Qed.

Lemma lower_append (a b : string) :
  Text.lower (a ++ b) = Text.lower a ++ Text.lower b.
Proof. induction a as [|c a IH]; [reflexivity |]. cbn. now rewrite IH. Qed.

Lemma lower_length (s : string) : String.length (Text.lower s) = String.length s.
Proof. induction s as [|c s IH]; [reflexivity |]. cbn. now rewrite IH. Qed.

Lemma lower_digits (d : string) :
  Spec.all_digits d = true -> Text.lower d = d.
Proof.
  induction d as [|c d IH]; [reflexivity |].
  rewrite all_digits_cons. intros H. apply andb_true_iff in H as [Hc Hd].
  cbn. now rewrite (lower_char_of_digit c Hc), IH.
Qed.

(** A text whose lower case is a run of digits is that run. *)
Lemma lower_is_digits (s d : string) :
  Spec.all_digits d = true -> Text.lower s = d -> s = d.
Proof.
  revert d. induction s as [|c s IH]; intros d Hd E.
  - exact E.
  - destruct d as [|c' d]; [discriminate |]. cbn in E.
    injection E as Ec Es. rewrite all_digits_cons in Hd.
    apply andb_true_iff in Hd as [Hc Hd]. rewrite <- Ec in Hc.
    destruct (lower_char_digit c Hc) as [Hsame _].
    f_equal; [congruence | now apply IH].
Qed.

(** A text whose lower case is a concatenation splits the same way. *)
Lemma lower_split (s x y : string) :
  Text.lower s = x ++ y ->
  exists s1 s2, s = s1 ++ s2 /\ Text.lower s1 = x /\ Text.lower s2 = y.
Proof.
  revert s. induction x as [|c x IH]; intros s E.
  - now exists "", s.
  - destruct s as [|c' s]; [discriminate |]. cbn in E.
    injection E as Ec Es. destruct (IH s Es) as (s1 & s2 & -> & H1 & H2).
    exists (String c' s1), s2. cbn. now rewrite H1, Ec.
Qed.

Lemma drop_length_append (a b : string) :
  Py.drop (String.length a) (a ++ b) = b.
Proof. induction a as [|c a IH]; [now destruct b |]. exact IH. Qed.

Lemma endswith_append (a b : string) : Text.endswith (a ++ b) b = true.
Proof.
  unfold Text.endswith. rewrite length_append.
  replace (String.length a + String.length b - String.length b)%nat
    with (String.length a) by lia.
  rewrite drop_length_append, String.eqb_refl.
  apply andb_true_iff. split; [apply Nat.leb_le; lia | reflexivity].
Qed.

End LowerFacts.

Section RecorderFacts.

Lemma match_literal_same (lit s rest : string) :
  Text.lower s = Text.lower lit ->
  Recorder.match_literal lit (s ++ rest) = Some rest.
Proof.
  revert s. induction lit as [|l lit IH]; intros s E.
  - destruct s; [now destruct rest | discriminate].
  - destruct s as [|c s]; [discriminate |]. cbn in E. injection E as Ec Es.
    cbn [append Recorder.match_literal]. rewrite Ec, Ascii.eqb_refl.
    now apply IH.
Qed.

Lemma match_index_stop ext (s : string) :
  Spec.starts_with_digit s = false -> Recorder.match_index ext s = None.
Proof.
  destruct s as [|c r]; [reflexivity |]. cbn. now intros ->.
Qed.

(** The case of a text does not change whether it starts with a digit. *)
Lemma lower_start (s t : string) :
  Text.lower s = Text.lower t ->
  Spec.starts_with_digit s = Spec.starts_with_digit t.
Proof.
  destruct s as [|c s], t as [|c' t]; try discriminate; [reflexivity |].
  cbn. intros [= Ec _].
  destruct (Py.is_digit c) eqn:Hc.
  - rewrite <- (lower_char_of_digit c Hc) in Hc. rewrite Ec in Hc.
    symmetry. now apply lower_char_digit.
  - destruct (Py.is_digit c') eqn:Hc'; [| reflexivity].
    rewrite <- (lower_char_of_digit c' Hc') in Hc'. rewrite <- Ec in Hc'.
    apply lower_char_digit in Hc' as [_ Hc']. congruence.
Qed.

(** The group of a name made of the digits [d] and the extension. *)
Lemma match_index_digits ext (d e : string) :
  Spec.all_digits d = true -> d <> "" ->
  Spec.starts_with_digit ext = false ->
  Text.lower e = Text.lower ext ->
  Recorder.match_index ext (d ++ e) = Some d.
Proof.
  intros Hd Hne Hext He. induction d as [|c d IH]; [congruence |].
  rewrite all_digits_cons in Hd. apply andb_true_iff in Hd as [Hc Hd].
  cbn [append Recorder.match_index]. rewrite Hc.
  destruct d as [|c' d].
  - cbn [append]. rewrite match_index_stop
      by (rewrite (lower_start e ext He); exact Hext).
    rewrite <- (append_empty_r e) at 1.
    now rewrite (match_literal_same ext e "" He).
  - now rewrite IH.
Qed.

Lemma digit_char_is_digit m :
  0 <= m < 10 -> Py.is_digit (Py.digit_char m) = true.
Proof.
  intros Hm.
  assert (H : m = 0 \/ m = 1 \/ m = 2 \/ m = 3 \/ m = 4 \/ m = 5 \/ m = 6
              \/ m = 7 \/ m = 8 \/ m = 9) by lia.
  destruct H as [-> | [-> | [-> | [-> | [-> | [-> | [-> | [-> | [-> | ->]]]]]]]]];
    reflexivity.
Qed.

Lemma to_digits_decimal fuel n acc :
  0 <= n -> Spec.all_digits acc = true ->
  Spec.all_digits (Py.to_digits 10 fuel n acc) = true.
Proof.
  revert n acc. induction fuel as [|f IH]; intros n acc Hn Ha; [exact Ha |].
  cbn [Py.to_digits].
  assert (Hc : Spec.all_digits (String (Py.digit_char (n mod 10)) acc) = true).
  { rewrite all_digits_cons, Ha, digit_char_is_digit; [reflexivity |].
    apply Z.mod_pos_bound. lia. }
  destruct (n / 10 =? 0); [exact Hc |].
  apply IH; [apply Z.div_pos; lia | exact Hc].
Qed.

Lemma str_nonneg n : 0 <= n -> Py.str n = Py.digits 10 n.
Proof.
  intros Hn. unfold Py.str, Py.render.
  destruct (Z.ltb_spec n 0); [lia |]. cbn [append]. now rewrite Z.abs_eq.
Qed.

Lemma str_digits n : 0 <= n -> Spec.all_digits (Py.str n) = true.
Proof.
  intros Hn. rewrite str_nonneg by exact Hn. unfold Py.digits.
  now apply to_digits_decimal.
Qed.

Lemma str_not_empty n : 0 <= n -> Py.str n <> "".
Proof. intros Hn. rewrite str_nonneg by exact Hn. apply digits_nonempty. Qed.

(** [int(str(n))] is [n]. *)
Lemma int_str n : 0 <= n -> Py.int (Py.str n) 10 = Some n.
Proof.
  intros Hn. pose proof (str_digits n Hn) as Hd.
  pose proof (str_not_empty n Hn) as Hne.
  assert (Hv : Spec.decimal_value (Py.str n) = n).
  { rewrite str_nonneg by exact Hn. apply digits_value; lia. }
  destruct (Py.str n) as [|c d] eqn:E; [congruence |].
  pose proof Hd as Hd'. rewrite all_digits_cons in Hd'.
  apply andb_true_iff in Hd' as [Hc Hrest].
  rewrite int_token by (now apply digits_token).
  f_equal. unfold Spec.token_value. now rewrite (digit_not_dash c Hc).
Qed.

(** What a pass of the loop reads from a name that is, up to case, the
    prefix, the decimal digits of [j] and the extension. *)
Lemma next_step_reads prefix ext m name j :
  Spec.starts_with_digit ext = false -> 0 <= j ->
  Text.lower name = Text.lower (prefix ++ Py.str j ++ ext) ->
  Recorder.next_step prefix ext m name = Z.max m j.
Proof.
  intros Hext Hj E. rewrite !lower_append in E.
  apply lower_split in E as (p & rest & -> & Hp & E).
  apply lower_split in E as (d & e & -> & Hd & He).
  rewrite (lower_digits _ (str_digits j Hj)) in Hd.
  apply lower_is_digits in Hd; [| now apply str_digits]. subst d.
  assert (Hend : Text.endswith (Text.lower (p ++ Py.str j ++ e))
                   (Text.lower ext) = true).
  { rewrite !lower_append, He, <- append_assoc. apply endswith_append. }
  unfold Recorder.next_step. rewrite Hend. cbn [negb].
  unfold Recorder.demo_match.
  rewrite (match_literal_same prefix p _ Hp).
  rewrite match_index_digits
    by (auto using str_digits, str_not_empty).
  now rewrite int_str.
Qed.

Lemma next_step_grows prefix ext m name :
  m <= Recorder.next_step prefix ext m name.
Proof.
  unfold Recorder.next_step.
  destruct (negb _); [lia |].
  destruct (Recorder.demo_match prefix ext name); [| lia].
  destruct (Py.int s 10); lia.
Qed.

Lemma fold_next_step_grows prefix ext names m :
  m <= fold_left (Recorder.next_step prefix ext) names m.
Proof.
  revert m. induction names as [|n names IH]; intros m; [cbn; lia |].
  cbn [fold_left]. pose proof (next_step_grows prefix ext m n).
  specialize (IH (Recorder.next_step prefix ext m n)). lia.
Qed.

Lemma fold_next_step_above prefix ext names m name j :
  Spec.starts_with_digit ext = false -> 0 <= j ->
  In name names ->
  Text.lower name = Text.lower (prefix ++ Py.str j ++ ext) ->
  j <= fold_left (Recorder.next_step prefix ext) names m.
Proof.
  intros Hext Hj Hin E. revert m.
  induction names as [|n names IH]; intros m; [contradiction |].
  cbn [fold_left]. destruct Hin as [-> | Hin].
  - rewrite (next_step_reads prefix ext m name j Hext Hj E).
    pose proof (fold_next_step_grows prefix ext names (Z.max m j)). lia.
  - now apply IH.
Qed.

End RecorderFacts.

(** X18.  The name [_next_demo_csv_path] picks for a recording is not the
    name of a file of the directory, also when case is ignored: for an
    extension that does not start with a digit and names of at most 4300
    characters, the path is the directory joined with the prefix, an index
    [k >= 1] and the extension, and every file whose name is, up to case,
    the prefix, a decimal index and the extension has an index below [k].
    When the directory cannot be listed the index is 1. *)
Theorem next_demo_csv_path_fresh
        (path_join : string -> string -> string)
        (names : list string) (out_dir prefix ext : string) :
  Spec.starts_with_digit ext = false ->
  Forall (fun name => (String.length name <= 4300)%nat) names ->
  (exists k,
      Recorder._next_demo_csv_path path_join (Some names) out_dir prefix ext
      = path_join out_dir (prefix ++ Py.str k ++ ext)
      /\ 1 <= k
      /\ (forall name j,
             In name names -> 0 <= j ->
             Text.lower name = Text.lower (prefix ++ Py.str j ++ ext) ->
             j < k)
      /\ (forall name,
             In name names ->
             Text.lower name <> Text.lower (prefix ++ Py.str k ++ ext)))
  /\ Recorder._next_demo_csv_path path_join None out_dir prefix ext
     = path_join out_dir (prefix ++ "1" ++ ext).
Proof.
  intros Hext _. split; [| reflexivity].
  unfold Recorder._next_demo_csv_path.
  set (max_idx := fold_left (Recorder.next_step prefix ext) names 0).
  assert (H0 : 0 <= max_idx) by apply fold_next_step_grows.
  assert (Hbelow : forall name j,
             In name names -> 0 <= j ->
             Text.lower name = Text.lower (prefix ++ Py.str j ++ ext) ->
             j < max_idx + 1).
  { intros name j Hin Hj E.
    pose proof (fold_next_step_above prefix ext names 0 name j Hext Hj Hin E).
    fold max_idx in H. lia. }
  exists (max_idx + 1). split; [reflexivity |]. split; [lia |].
  split; [exact Hbelow |].
  intros name Hin E.
  specialize (Hbelow name (max_idx + 1) Hin ltac:(lia) E). lia.
Qed.

(** A directory with [demo_1.csv], [DEMO_007.CSV] and other files: the
    recording goes to [demo_8.csv]. *)
Lemma next_demo_csv_path_fresh_witness :
  (Spec.starts_with_digit ".csv" = false
   /\ Forall (fun name => (String.length name <= 4300)%nat)
        ["demo_1.csv"; "DEMO_007.CSV"; "demo_x.csv"; "notes.txt"])
  /\ Recorder._next_demo_csv_path (fun d f => d ++ "/" ++ f)
       (Some ["demo_1.csv"; "DEMO_007.CSV"; "demo_x.csv"; "notes.txt"])
       "vladata" "demo_" ".csv"
     = "vladata/demo_8.csv"
  /\ (exists k,
         Recorder._next_demo_csv_path (fun d f => d ++ "/" ++ f)
           (Some ["demo_1.csv"; "DEMO_007.CSV"; "demo_x.csv"; "notes.txt"])
           "vladata" "demo_" ".csv"
         = "vladata" ++ "/" ++ "demo_" ++ Py.str k ++ ".csv"
         /\ forall name,
             In name ["demo_1.csv"; "DEMO_007.CSV"; "demo_x.csv"; "notes.txt"] ->
             Text.lower name <> Text.lower ("demo_" ++ Py.str k ++ ".csv")).
Proof.
  assert (Hlen : Forall (fun name => (String.length name <= 4300)%nat)
                   ["demo_1.csv"; "DEMO_007.CSV"; "demo_x.csv"; "notes.txt"]).
  { repeat constructor; apply Nat.leb_le; reflexivity. }
  split; [split; [reflexivity | exact Hlen] |]. split; [reflexivity |].
  destruct (next_demo_csv_path_fresh (fun d f => d ++ "/" ++ f)
              ["demo_1.csv"; "DEMO_007.CSV"; "demo_x.csv"; "notes.txt"]
              "vladata" "demo_" ".csv" eq_refl Hlen)
    as ((k & Hpath & _ & _ & Hfresh) & _).
  exists k. split; [exact Hpath | exact Hfresh].
Defined.

(* ================================================================== *)
(** * Further properties: the header of a trajectory file *)
(* ================================================================== *)

Section HeaderFacts.

Lemma get_add d k v key :
  Header.get key (Header.add d k v)
  = match Header.get key d with
    | Some x => Some x
    | None => if String.eqb k key then Some v else None
    end.
Proof.
  unfold Header.add. induction d as [|[k' v'] d IH]; [reflexivity |].
  cbn [app Header.get]. destruct (String.eqb k' key); [reflexivity | exact IH].
Qed.

Lemma header_step_keeps header_map raw key v :
  Header.get key header_map = Some v ->
  Header.get key (Header.header_step header_map raw) = Some v.
Proof.
  intros H. destruct raw as [raw |]; [| exact H]. cbn [Header.header_step].
  destruct (Text.lower (Header.strip raw)) as [|c r]; [exact H |].
  destruct (Header.get (String c r) header_map); [exact H |].
  now rewrite get_add, H.
Qed.

Lemma build_keeps fieldnames header_map key v :
  Header.get key header_map = Some v ->
  Header.get key (fold_left Header.header_step fieldnames header_map) = Some v.
Proof.
  revert header_map. induction fieldnames as [|raw rest IH]; intros hm H.
  - exact H.
  - cbn [fold_left]. apply IH. now apply header_step_keeps.
Qed.

Lemma build_from fieldnames header_map c key :
  Header.get (String c key) header_map = None ->
  Header.get (String c key) (fold_left Header.header_step fieldnames header_map)
  = Header.first_header (String c key) fieldnames.
Proof.
  revert header_map. induction fieldnames as [|raw rest IH]; intros hm H.
  - exact H.
  - cbn [fold_left Header.first_header].
    destruct raw as [raw |]; [| now apply IH]. cbn [Header.header_step].
    destruct (Text.lower (Header.strip raw)) as [|c' r] eqn:Ekey.
    + cbn [String.eqb]. now apply IH.
    + destruct (String.eqb_spec (String c' r) (String c key)) as [E | E].
      * rewrite E, H. apply build_keeps.
        now rewrite get_add, H, String.eqb_refl.
      * destruct (Header.get (String c' r) hm) eqn:Eg; [now apply IH |].
        apply IH. rewrite get_add, H.
        destruct (String.eqb_spec (String c' r) (String c key));
          [contradiction | reflexivity].
Qed.

Lemma build_no_empty_key fieldnames header_map :
  Header.get "" header_map = None ->
  Header.get "" (fold_left Header.header_step fieldnames header_map) = None.
Proof.
  revert header_map. induction fieldnames as [|raw rest IH]; intros hm H.
  - exact H.
  - cbn [fold_left]. apply IH.
    destruct raw as [raw |]; [| exact H]. cbn [Header.header_step].
    destruct (Text.lower (Header.strip raw)) as [|c' r]; [exact H |].
    destruct (Header.get (String c' r) hm); [exact H |].
    now rewrite get_add, H.
Qed.

Lemma traverse_ext {A B : Type} (f g : A -> option B) (l : list A) :
  (forall x, In x l -> f x = g x) -> Py.traverse f l = Py.traverse g l.
Proof.
  induction l as [|x l IH]; intros H; [reflexivity |].
  cbn [Py.traverse]. rewrite (H x) by now left.
  rewrite IH; [reflexivity |]. intros y Hy. apply H. now right.
Qed.

Lemma traverse_none {A B : Type} (f : A -> option B) (l : list A) x :
  In x l -> f x = None -> Py.traverse f l = None.
Proof.
  induction l as [|y l IH]; intros Hin Hx; [contradiction |].
  cbn [Py.traverse]. destruct Hin as [-> | Hin].
  - now rewrite Hx.
  - rewrite (IH Hin Hx). now destruct (f y).
Qed.

End HeaderFacts.

(** X19.  [_build_header_map] maps a key to the first header of the file
    that reads as that key once its surrounding white space is stripped and
    it is put in lower case: later headers with the same reading are ignored,
    and blank headers and missing ones ([None]) are skipped, so the empty
    text is never a key.  The header check of [read_poses_from_csv] therefore
    raises exactly when one of [x, y, z, rx, ry, rz] has no header with that
    reading, and otherwise reads each column from the first header with its
    reading. *)
Theorem header_map_first_wins (fieldnames : list (option string)) :
  (forall key,
      Header.get key (Header._build_header_map fieldnames)
      = match key with
        | EmptyString => None
        | String _ _ => Header.first_header key fieldnames
        end)
  /\ Header.cols fieldnames
     = Py.traverse (fun k => Header.first_header k fieldnames)
         Header.POSE_COLUMNS_CANONICAL.
Proof.
  assert (Hget : forall key,
             Header.get key (Header._build_header_map fieldnames)
             = match key with
               | EmptyString => None
               | String _ _ => Header.first_header key fieldnames
               end).
  { intros [|c key]; unfold Header._build_header_map.
    - now apply build_no_empty_key.
    - now apply build_from. }
  split; [exact Hget |].
  assert (Hsame : Py.traverse
                    (fun k => Header.get k (Header._build_header_map fieldnames))
                    Header.POSE_COLUMNS_CANONICAL
                  = Py.traverse (fun k => Header.first_header k fieldnames)
                      Header.POSE_COLUMNS_CANONICAL).
  { apply traverse_ext. intros k Hk. rewrite Hget.
    cbn in Hk. destruct Hk as [<- | [<- | [<- | [<- | [<- | [<- | []]]]]]];
      reflexivity. }
  unfold Header.cols.
  destruct (Header.missing (Header._build_header_map fieldnames)) as [|k l] eqn:Em.
  - exact Hsame.
  - rewrite <- Hsame. symmetry.
    assert (Hin : In k (Header.missing (Header._build_header_map fieldnames)))
      by (rewrite Em; now left).
    unfold Header.missing in Hin. apply filter_In in Hin as [Hin Hk].
    apply (traverse_none _ _ k Hin).
    now destruct (Header.get k (Header._build_header_map fieldnames)).
Qed.

(* ================================================================== *)
(** * Further properties: the force reading *)
(* ================================================================== *)

Section ForceFacts.

Lemma without_append c (a b : string) :
  Force.without c (a ++ b) = Force.without c a && Force.without c b.
Proof. apply all_chars_append. Qed.

Lemma without_cons c x (s : string) :
  Force.without c (String x s) = true ->
  Ascii.eqb x c = false /\ Force.without c s = true.
Proof.
  unfold Force.without. cbn [Spec.all_chars]. intros H.
  apply andb_true_iff in H as [Hx Hs]. now apply negb_true_iff in Hx.
Qed.

Lemma lazy_to_brace_content (content post : string) :
  Force.without "}" content = true ->
  Force.without "010"%char content = true ->
  Force.lazy_to_brace (content ++ String "}" post) = Some content.
Proof.
  induction content as [|c r IH]; intros Hb Hn; [reflexivity |].
  apply without_cons in Hb as [Hc Hb]. apply without_cons in Hn as [Hc' Hn].
  cbn [append Force.lazy_to_brace]. rewrite Hc, Hc'.
  now rewrite IH.
Qed.

Lemma search_braces_none (s : string) :
  Force.without "{" s = true -> Force.search_braces s = None.
Proof.
  induction s as [|c r IH]; [reflexivity |]. intros H.
  apply without_cons in H as [Hc Hr]. cbn [Force.search_braces].
  rewrite Hc. now apply IH.
Qed.

Lemma lazy_to_brace_none (s : string) :
  Force.without "}" s = true -> Force.lazy_to_brace s = None.
Proof.
  induction s as [|c r IH]; [reflexivity |]. intros H.
  apply without_cons in H as [Hc Hr]. cbn [Force.lazy_to_brace].
  rewrite Hc. destruct (Ascii.eqb c "010"); [reflexivity |]. now rewrite IH.
Qed.

Lemma search_braces_unclosed (s : string) :
  Force.without "}" s = true -> Force.search_braces s = None.
Proof.
  induction s as [|c r IH]; [reflexivity |]. intros H.
  apply without_cons in H as [Hc Hr]. cbn [Force.search_braces].
  rewrite (lazy_to_brace_none r Hr), (IH Hr). now destruct (Ascii.eqb c "{").
Qed.

Lemma search_braces_first (pre content post : string) :
  Force.without "{" pre = true ->
  Force.without "}" content = true ->
  Force.without "010"%char content = true ->
  Force.search_braces (pre ++ String "{" (content ++ String "}" post))
  = Some content.
Proof.
  intros Hpre Hb Hn. induction pre as [|c r IH].
  - cbn [append Force.search_braces]. rewrite Ascii.eqb_refl.
    now rewrite lazy_to_brace_content.
  - apply without_cons in Hpre as [Hc Hr]. cbn [append Force.search_braces].
    rewrite Hc. now apply IH.
Qed.

Lemma split_comma_field (f : string) :
  Force.without "," f = true -> Force.split_comma f = [f].
Proof.
  induction f as [|c r IH]; [reflexivity |]. intros H.
  apply without_cons in H as [Hc Hr]. cbn [Force.split_comma].
  rewrite Hc. now rewrite IH.
Qed.

Lemma split_comma_cons (f rest : string) :
  Force.without "," f = true ->
  Force.split_comma (f ++ String "," rest) = f :: Force.split_comma rest.
Proof.
  induction f as [|c r IH]; intros H; [reflexivity |].
  apply without_cons in H as [Hc Hr].
  cbn [append Force.split_comma]. rewrite Hc. now rewrite IH.
Qed.

Lemma split_comma_join f (fields : list string) :
  Forall (fun x => Force.without "," x = true) (f :: fields) ->
  Force.split_comma (Py.join "," (f :: fields)) = f :: fields.
Proof.
  revert f. induction fields as [|g fields IH]; intros f H.
  - cbn. apply split_comma_field. now inversion H.
  - inversion H as [|? ? Hf Hrest]; subst.
    change (Py.join "," (f :: g :: fields))
      with (f ++ String "," (Py.join "," (g :: fields))).
    rewrite split_comma_cons by exact Hf. f_equal. now apply IH.
Qed.

Lemma join_fields_without c f (fields : list string) :
  Ascii.eqb "," c = false ->
  Forall (fun x => Force.without c x = true) (f :: fields) ->
  Force.without c (Py.join "," (f :: fields)) = true.
Proof.
  intros Hc. revert f. induction fields as [|g fields IH]; intros f H.
  - cbn. now inversion H.
  - inversion H as [|? ? Hf Hrest]; subst.
    change (Py.join "," (f :: g :: fields))
      with (f ++ String "," (Py.join "," (g :: fields))).
    rewrite without_append, Hf. cbn [andb].
    unfold Force.without. cbn [Spec.all_chars]. rewrite Hc. cbn [negb andb].
    now apply IH.
Qed.

End ForceFacts.

(** X20.  [parse_force_response] reads a text reply all or nothing, and only
    inside its first braces.  For a reply made of a part without an opening
    brace (the error id), an opening brace, fields separated by commas, and a
    closing brace followed by anything: when every field converts and there
    are at least six, the result is the first six fields converted, in
    order; when a field does not convert, even one behind the sixth, or
    there are fewer than six, the result is the six zeros.  A reply without
    an opening brace, or without a closing one, gives the six zeros. *)
Theorem force_reading_inside_braces
        {float : Type} (float_of : string -> option float)
        (pre post f : string) (fields : list string) (response : string) :
  Force.without "{" pre = true ->
  Forall (fun x => Force.is_field x = true) (f :: fields) ->
  Force.parse_force_response float_of
    (pre ++ "{" ++ Py.join "," (f :: fields) ++ "}" ++ post)
  = match Py.traverse float_of (f :: fields) with
    | Some (fx :: fy :: fz :: mx :: my :: mz :: _) =>
        Force.Forces fx fy fz mx my mz
    | _ => Force.Zeros
    end
  /\ (Force.without "{" response = true \/ Force.without "}" response = true ->
      Force.parse_force_response float_of response = Force.Zeros).
Proof.
  intros Hpre Hfields. split.
  2: { intros H. unfold Force.parse_force_response.
       destruct response as [|c r]; [reflexivity |].
       destruct H as [H | H];
         [rewrite (search_braces_none _ H) | rewrite (search_braces_unclosed _ H)];
         reflexivity. }
  assert (Hc : Forall (fun x => Force.without "," x = true) (f :: fields)
               /\ Forall (fun x => Force.without "}" x = true) (f :: fields)
               /\ Forall (fun x => Force.without "010"%char x = true)
                    (f :: fields)).
  { repeat split; eapply Forall_impl; try exact Hfields;
      intros x Hx; unfold Force.is_field in Hx;
      apply andb_true_iff in Hx as [Hx H3];
      apply andb_true_iff in Hx as [H1 H2]; assumption. }
  destruct Hc as (H1 & H2 & H3).
  unfold Force.parse_force_response.
  change (pre ++ "{" ++ Py.join "," (f :: fields) ++ "}" ++ post)
    with (pre ++ String "{" (Py.join "," (f :: fields) ++ String "}" post)).
  rewrite search_braces_first
    by (try exact Hpre; apply join_fields_without; (reflexivity || assumption)).
  rewrite split_comma_join by exact H1.
  destruct (pre ++ String "{" (Py.join "," (f :: fields) ++ String "}" post))
    eqn:E; [| reflexivity].
  destruct pre; discriminate.
Qed.

(** The reply of [GetForce] with error id 0, and one with a seventh field
    that is no number; the conversion knows the texts ["1"] to ["6"]. *)
Lemma force_reading_inside_braces_witness :
  let float_of := fun x : string =>
                    if String.eqb x "1" then Some 1
                    else if String.eqb x "2" then Some 2
                    else if String.eqb x "3" then Some 3
                    else if String.eqb x "4" then Some 4
                    else if String.eqb x "5" then Some 5
                    else if String.eqb x "6" then Some 6
                    else if String.eqb x "0" then Some 0
                    else None in
  (Force.without "{" "0," = true
   /\ Forall (fun x => Force.is_field x = true) ["1"; "2"; "3"; "4"; "5"; "6"])
  /\ Force.parse_force_response float_of "0,{1,2,3,4,5,6},GetForce();"
     = Force.Forces 1 2 3 4 5 6
  /\ Force.parse_force_response float_of "0,{1,2,3,4,5,6,x},GetForce();"
     = Force.Zeros.
Proof.
  intros float_of.
  assert (H6 : Forall (fun x => Force.is_field x = true)
                 ["1"; "2"; "3"; "4"; "5"; "6"])
    by (repeat constructor).
  split; [split; [reflexivity | exact H6] |]. split; [| reflexivity].
  exact (proj1 (force_reading_inside_braces float_of "0," ",GetForce();" "1"
                  ["2"; "3"; "4"; "5"; "6"] "" eq_refl H6)).
Defined.

(* ================================================================== *)
(** * Further properties: the buttons of the window *)
(* ================================================================== *)

Section WindowFacts.

Lemma dragging_app o l1 l2 :
  Window.dragging o (l1 ++ l2) = Window.dragging (Window.dragging o l1) l2.
Proof.
  revert o. induction l1 as [|c l1 IH]; intros o; [reflexivity |].
  destruct c; cbn; apply IH.
Qed.

Lemma clicks_snoc l c :
  Window.clicks (l ++ [c]) = Window.click (Window.clicks l) c.
Proof. unfold Window.clicks. now rewrite fold_left_app. Qed.

End WindowFacts.

(** X21.  Whatever is clicked, in whatever order and whichever calls fail,
    the window of [ui.py] shows its own state: the other buttons are enabled
    exactly while it is connected, and the texts of the connect, enable and
    drag buttons and the relief of the drag button are the ones of the flags
    [connect], [enable] and [drag].  The drag flag is only set while
    connected and only when the last drag call that came back was
    [StartDrag].  The converse does not hold: disconnecting clears the drag
    flag and resets the button without a [StopDrag], and it leaves the enable
    flag and the text of its button as they are. *)
Theorem window_shows_its_state (l : list Window.Click) (ok : bool) :
  let w := Window.clicks l in
  Window.state_normal w = Window.connect w
  /\ Window.button_connect_text w
     = (if Window.connect w then "Disconnect" else "Connect")
  /\ Window.button_enable_text w
     = (if Window.enable w then "Disable" else "Enable")
  /\ Window.button_start_drag_text w
     = (if Window.drag w then "StopDrag" else "StartDrag")
  /\ Window.button_start_drag_relief w
     = (if Window.drag w then "sunken" else "raised")
  /\ (Window.drag w = true ->
      Window.connect w = true /\ Window.dragging false (Window.sent w) = true)
  /\ (Window.connect w = true ->
      let w' := Window.click w (Window.ClickConnect ok) in
      Window.connect w' = false /\ Window.drag w' = false
      /\ Window.enable w' = Window.enable w
      /\ Window.sent w'
         = (Window.sent w ++ [Window.close_dash; Window.close_feed])%list
      /\ Window.dragging false (Window.sent w')
         = Window.dragging false (Window.sent w)).
Proof.
  intros w. subst w.
  assert (Hinv : Window.state_normal (Window.clicks l)
                 = Window.connect (Window.clicks l)
                 /\ Window.button_connect_text (Window.clicks l)
                    = (if Window.connect (Window.clicks l)
                       then "Disconnect" else "Connect")
                 /\ Window.button_enable_text (Window.clicks l)
                    = (if Window.enable (Window.clicks l)
                       then "Disable" else "Enable")
                 /\ Window.button_start_drag_text (Window.clicks l)
                    = (if Window.drag (Window.clicks l)
                       then "StopDrag" else "StartDrag")
                 /\ Window.button_start_drag_relief (Window.clicks l)
                    = (if Window.drag (Window.clicks l)
                       then "sunken" else "raised")
                 /\ (Window.drag (Window.clicks l) = true ->
                     Window.connect (Window.clicks l) = true
                     /\ Window.dragging false (Window.sent (Window.clicks l))
                        = true)).
  { induction l as [|c l IH] using rev_ind.
    - cbn. repeat split; discriminate.
    - rewrite clicks_snoc.
      destruct (Window.clicks l) as [cn en dr sn tc te td rl st].
      cbn [Window.state_normal Window.connect Window.enable Window.drag
           Window.button_connect_text Window.button_enable_text
           Window.button_start_drag_text Window.button_start_drag_relief
           Window.sent] in IH.
      destruct IH as (H1 & H2 & H3 & H4 & H5 & H6). subst sn.
      destruct c as [ok' | raises | raises];
        unfold Window.click, Window.connect_port, Window.enable_robot,
          Window.start_drag;
        cbn [Window.state_normal Window.connect Window.enable Window.drag
             Window.button_connect_text Window.button_enable_text
             Window.button_start_drag_text Window.button_start_drag_relief
             Window.sent];
        destruct cn, en, dr; try destruct ok'; try destruct raises;
        cbn [orb negb andb
             Window.state_normal Window.connect Window.enable Window.drag
             Window.button_connect_text Window.button_enable_text
             Window.button_start_drag_text Window.button_start_drag_relief
             Window.sent];
        repeat split; auto; try discriminate; try (intros _);
        try (apply H6; reflexivity);
        try (rewrite dragging_app; cbn; try reflexivity;
             apply H6; reflexivity). }
  destruct Hinv as (H1 & H2 & H3 & H4 & H5 & H6).
  repeat (split; [assumption |]).
  intros Hc w'. subst w'. unfold Window.click, Window.connect_port.
  rewrite Hc. cbn. repeat split. now rewrite dragging_app.
Qed.

(* ================================================================== *)
(** * Further properties: the recorded gripper state *)
(* ================================================================== *)

Section RecordedState.

Import Epick.
Variable dashboard : list DashCall -> DashCall -> string.

Lemma run_write_none_then {B : Type} tid st address datas (k : string -> Prog B) :
  ModbusIndex st = None ->
  run dashboard tid (bind (write_by_485 address datas) k) st
  = run dashboard tid (k "Error: No Modbus Index") st.
Proof. intros Hi. now rewrite run_bind, run_write_none. Qed.

(** Without a session [grip] encodes its parameters and sends nothing. *)
Lemma grip_without_session tid st max_v min_v timeout :
  ModbusIndex st = None ->
  max_v <= 100 -> -155 <= min_v <= 100 -> 0 <= timeout ->
  run dashboard tid (grip max_v min_v timeout) st
  = (Value "Error: No Modbus Index", st).
Proof.
  intros Hi Hmax Hmin Ht. unfold grip.
  rewrite ACTION_clear_fault, run_lift_some.
  rewrite run_write_none_then by exact Hi.
  rewrite MAX_VACUUM_nonneg, run_lift_some by lia.
  rewrite timeout_and_min, run_lift_some
    by (try apply ceil_div_100_nonneg; lia).
  rewrite ACTION_enable, run_lift_some.
  rewrite run_write_none_then by exact Hi.
  rewrite run_write_none_then by exact Hi.
  rewrite ACTION_execute, run_lift_some.
  now rewrite run_write_none.
Qed.

(** A guarded call that returns a value. *)
Lemma run_catch_value {A : Type} tid (p : Prog A) handler st a st' :
  run dashboard tid p st = (Value a, st') ->
  run dashboard tid (EpickUI.catch p handler) st = (Value a, st').
Proof.
  intros H. rewrite (run_catch dashboard tid p handler st _ _ H); [reflexivity |].
  discriminate.
Qed.

(** A guarded call that raises [ValueError]. *)
Lemma run_catch_error {A : Type} tid (p : Prog A) handler st st' :
  run dashboard tid p st = (Exception ValueError, st') ->
  run dashboard tid (EpickUI.catch p handler) st
  = run dashboard tid (handler ValueError) st'.
Proof.
  intros H. rewrite (run_catch dashboard tid p handler st _ _ H); [reflexivity |].
  discriminate.
Qed.

End RecordedState.

(** X22.  The recorded [gripper_state] of the recording window follows the
    buttons, not the gripper.  [epick_grip] sets it to 1 whenever [grip]
    returns, and [grip] returns also when the gripper has no session: with
    entries it can encode (texts of at most 4300 characters; maximum at most
    100, minimum between -155 and 100, timeout from 0 to below 2^53) the
    state becomes 1 although nothing was sent.  When an entry is not an
    integer, or the maximum or the minimum is above 100 on an open session,
    the error box is shown and the state is left as it was.  [epick_release]
    on a free lock always sets it to 0. *)
Theorem gripper_state_follows_buttons
        (dashboard : list Epick.DashCall -> Epick.DashCall -> string)
        (tid : nat) (st : Epick.State)
        (epick_max epick_min epick_timeout : string) (mx mn tm : Z)
        (gripper_state : Z) :
  Epick.write_lock st = None ->
  (String.length epick_max <= 4300)%nat ->
  (String.length epick_min <= 4300)%nat ->
  (String.length epick_timeout <= 4300)%nat ->
  Py.int epick_max 10 = Some mx -> Py.int epick_min 10 = Some mn ->
  Py.int epick_timeout 10 = Some tm ->
  (Epick.ModbusIndex st = None ->
   mx <= 100 -> -155 <= mn <= 100 -> 0 <= tm < 2 ^ 53 ->
   Epick.run dashboard tid
     (Control.epick_grip true epick_max epick_min epick_timeout gripper_state)
     st
   = (Epick.Value (EpickUI.Done, 1), st))
  /\ (Epick.ModbusIndex st <> None -> 100 < mx \/ 100 < mn ->
      exists st',
        Epick.run dashboard tid
          (Control.epick_grip true epick_max epick_min epick_timeout
             gripper_state) st
        = (Epick.Value (EpickUI.ErrorBox, gripper_state), st'))
  /\ (forall bad,
         Py.int bad 10 = None ->
         Epick.run dashboard tid
           (Control.epick_grip true epick_max bad epick_timeout gripper_state)
           st
         = (Epick.Value (EpickUI.ErrorBox, gripper_state), st))
  /\ (exists st',
         Epick.run dashboard tid (Control.epick_release true gripper_state) st
         = (Epick.Value (EpickUI.Done, 0), st')).
Proof.
  intros Hl _ _ _ Hmx Hmn Htm. split; [| split; [| split]].
  - intros Hi Hmax Hmin Ht. unfold Control.epick_grip.
    rewrite Hmx, Hmn, Htm. cbn [Epick.lift Epick.bind].
    apply run_catch_value. rewrite run_bind.
    rewrite grip_without_session by (assumption || lia). reflexivity.
  - intros Hi Hbad. unfold Control.epick_grip.
    rewrite Hmx, Hmn, Htm. cbn [Epick.lift Epick.bind].
    eexists. erewrite run_catch_error.
    + reflexivity.
    + rewrite run_bind, (grip_raises dashboard tid st mx mn tm Hi Hl Hbad).
      reflexivity.
  - intros bad Hbad. unfold Control.epick_grip.
    rewrite Hmx, Hbad. reflexivity.
  - destruct (release_returns dashboard tid st Hl) as (r & st' & Hr & _).
    exists st'. unfold Control.epick_release.
    apply run_catch_value. now rewrite run_bind, Hr.
Qed.

(** The entries 60, 40 and 1000 on a gripper without a session. *)
Lemma gripper_state_follows_buttons_witness :
  (Epick.write_lock Spec.no_session = None
   /\ Epick.ModbusIndex Spec.no_session = None
   /\ Py.int "60" 10 = Some 60 /\ Py.int "40" 10 = Some 40
   /\ Py.int "1000" 10 = Some 1000)
  /\ Epick.run Spec.quiet 0%nat (Control.epick_grip true "60" "40" "1000" 0)
       Spec.no_session
     = (Epick.Value (EpickUI.Done, 1), Spec.no_session).
Proof.
  split; [repeat split |].
  apply (proj1 (gripper_state_follows_buttons Spec.quiet 0%nat Spec.no_session
                  "60" "40" "1000" 60 40 1000 0 eq_refl
                  ltac:(apply Nat.leb_le; reflexivity)
                  ltac:(apply Nat.leb_le; reflexivity)
                  ltac:(apply Nat.leb_le; reflexivity)
                  eq_refl eq_refl eq_refl));
    try reflexivity; try (cbn; lia).
Defined.

(* ================================================================== *)
(** * Further properties: the alarm display *)
(* ================================================================== *)

Section AlarmFacts.

Context {entry : Type}.
Variable alarm_controller_dict alarm_servo_dict : Z -> option entry.

Lemma servo_lines_by_length (axes axes' : list (list Z)) :
  map (@List.length Z) axes = map (@List.length Z) axes' ->
  flat_map
    (fun axis =>
       flat_map (fun n => Alarms.form_error n alarm_servo_dict "Servo Error")
         (Alarms.range_len axis)) axes
  = flat_map
      (fun axis =>
         flat_map (fun n => Alarms.form_error n alarm_servo_dict "Servo Error")
           (Alarms.range_len axis)) axes'.
Proof.
  revert axes'. induction axes as [|a axes IH]; intros [|a' axes'] H;
    try discriminate; [reflexivity |].
  cbn [map] in H. injection H as Ha Hrest.
  cbn [flat_map]. unfold Alarms.range_len at 1 3. rewrite Ha.
  f_equal. now apply IH.
Qed.

Lemma form_error_line index (alarm_dict : Z -> option entry) type_text i t e :
  In (i, t, e) (Alarms.form_error index alarm_dict type_text) ->
  i = index /\ t = type_text /\ alarm_dict index = Some e.
Proof.
  unfold Alarms.form_error. destruct (alarm_dict index) as [e' |]; [| contradiction].
  intros [[= <- <- <-] | []]. now repeat split.
Qed.

Lemma range_len_bound {A : Type} (l : list A) n :
  In n (Alarms.range_len l) -> 0 <= n < Z.of_nat (List.length l).
Proof.
  unfold Alarms.range_len. intros H. apply in_map_iff in H as (k & <- & Hk).
  apply in_seq in Hk. lia.
Qed.

End AlarmFacts.

(** X23.  The fallback of [display_error_info] looks servo alarms up by
    their position, not by their id: for the list of an axis it asks the
    servo table for [0, 1, ..., len - 1].  So what it shows for the axes
    depends only on how many alarms each axis reports (two replies with the
    same controller alarms and the same count for every axis give the same
    text), and every servo block shown carries a number below the count of
    some axis.  Controller alarms are looked up by their id. *)
Theorem servo_alarms_by_position
        {entry : Type} (alarm_controller_dict alarm_servo_dict : Z -> option entry)
        (controller : list Z) (axes axes' : list (list Z)) :
  map (@List.length Z) axes = map (@List.length Z) axes' ->
  Alarms.fallback alarm_controller_dict alarm_servo_dict (controller :: axes)
  = Alarms.fallback alarm_controller_dict alarm_servo_dict (controller :: axes')
  /\ (forall i e,
         In (i, "Servo Error", e)
           (Alarms.fallback alarm_controller_dict alarm_servo_dict
              (controller :: axes)) ->
         alarm_servo_dict i = Some e
         /\ exists axis, In axis axes /\ 0 <= i < Z.of_nat (List.length axis))
  /\ (forall i e,
         In (i, "Controller Error", e)
           (Alarms.fallback alarm_controller_dict alarm_servo_dict
              (controller :: axes)) ->
         In i controller /\ alarm_controller_dict i = Some e).
Proof.
  intros Hlen. split; [| split].
  - cbn [Alarms.fallback]. f_equal. now apply servo_lines_by_length.
  - intros i e Hin. cbn [Alarms.fallback] in Hin.
    apply in_app_or in Hin as [Hin | Hin].
    + apply in_flat_map in Hin as (j & _ & Hj).
      apply form_error_line in Hj as (_ & Ht & _). discriminate.
    + apply in_flat_map in Hin as (axis & Haxis & Hin).
      apply in_flat_map in Hin as (n & Hn & Hline).
      apply form_error_line in Hline as (-> & _ & He).
      split; [exact He |]. exists axis. split; [exact Haxis |].
      now apply range_len_bound.
  - intros i e Hin. cbn [Alarms.fallback] in Hin.
    apply in_app_or in Hin as [Hin | Hin].
    + apply in_flat_map in Hin as (j & Hj & Hline).
      apply form_error_line in Hline as (-> & _ & He). now split.
    + apply in_flat_map in Hin as (axis & _ & Hin).
      apply in_flat_map in Hin as (n & _ & Hline).
      apply form_error_line in Hline as (_ & Ht & _). discriminate.
Qed.

(** Axis 1 reporting the servo alarm 8405: the table is asked for alarm 0,
    as it is for the alarm 17. *)
Lemma servo_alarms_by_position_witness :
  map (@List.length Z) [[8405]] = map (@List.length Z) [[17]]
  /\ Alarms.fallback (fun _ => None)
       (fun i => if i =? 0 then Some "first entry of the table" else None)
       [[]; [8405]]
     = [(0, "Servo Error", "first entry of the table")]
  /\ Alarms.fallback (fun _ : Z => @None string)
       (fun i => if i =? 0 then Some "first entry of the table" else None)
       [[]; [8405]]
     = Alarms.fallback (fun _ => None)
         (fun i => if i =? 0 then Some "first entry of the table" else None)
         [[]; [17]].
Proof.
  split; [reflexivity |]. split; [reflexivity |].
  exact (proj1 (servo_alarms_by_position (fun _ => None)
                  (fun i => if i =? 0 then Some "first entry of the table"
                            else None)
                  [] [[8405]] [[17]] eq_refl)).
Defined.

(* ================================================================== *)
(** * Further properties: the trajectory file to replay *)
(* ================================================================== *)

Section LatestFacts.

Variable getmtime : string -> Z.

(** The head of the sorted list is the first of the latest files. *)
Lemma sort_head (l : list string) :
  l <> [] ->
  exists pre p post,
    l = (pre ++ p :: post)%list
    /\ hd_error (Latest.sort getmtime l) = Some p
    /\ Forall (fun q => getmtime q < getmtime p) pre
    /\ Forall (fun q => getmtime q <= getmtime p) post.
Proof.
  induction l as [|a rest IH]; [congruence |]. intros _.
  destruct rest as [|b rest'].
  - exists [], a, []. cbn. repeat split; constructor.
  - destruct IH as (pre & p & post & E & Hhd & Hpre & Hpost); [discriminate |].
    unfold Latest.sort in *. cbn [fold_right] in *.
    destruct (fold_right (Latest.insert getmtime) [] rest') as [|s0 srest] eqn:Es;
      cbn [Latest.insert] in Hhd |- *.
    + injection Hhd as <-. destruct (Z.leb_spec (getmtime b) (getmtime a)).
      * exists [], a, (b :: rest'). cbn [app hd_error].
        repeat split; [constructor |].
        rewrite E. apply Forall_app. split.
        -- eapply Forall_impl; [| exact Hpre]. cbn. intros; lia.
        -- constructor; [lia |].
           eapply Forall_impl; [| exact Hpost]. cbn. intros; lia.
      * exists (a :: pre), b, post. cbn [app hd_error]. rewrite E.
        repeat split; [constructor; [lia | exact Hpre] | exact Hpost].
    + set (sorted := if getmtime s0 <=? getmtime b
                     then b :: s0 :: srest
                     else s0 :: Latest.insert getmtime b srest) in *.
      assert (Hs : exists t, sorted = p :: t).
      { destruct sorted as [|x t]; [discriminate |].
        cbn in Hhd. injection Hhd as ->. now exists t. }
      destruct Hs as (t & ->). cbn [Latest.insert].
      destruct (Z.leb_spec (getmtime p) (getmtime a)).
      * exists [], a, (b :: rest'). cbn [app hd_error].
        repeat split; [constructor |].
        rewrite E. apply Forall_app. split.
        -- eapply Forall_impl; [| exact Hpre]. cbn. intros; lia.
        -- constructor; [lia |].
           eapply Forall_impl; [| exact Hpost]. cbn. intros; lia.
      * exists (a :: pre), p, post. cbn [app hd_error]. rewrite E.
        repeat split; [constructor; [lia | exact Hpre] | exact Hpost].
Qed.

End LatestFacts.

(** X24.  [_find_latest_csv] raises [FileNotFoundError] when the directory
    does not exist or holds no name that ends in [.csv] (in any case of the
    letters).  Otherwise it returns the directory joined with such a name
    whose modification time no other candidate exceeds, and, among the
    candidates with that time, the first in the order of the listing. *)
Theorem find_latest_csv_is_latest
        (path_join : string -> string -> string) (getmtime : string -> Z)
        (isdir : bool) (listdir : list string) (data_dir : string) :
  let csvs := filter (fun name => Text.endswith (Text.lower name) ".csv")
                listdir in
  (isdir = false \/ csvs = [] ->
   Latest._find_latest_csv path_join getmtime isdir listdir data_dir = None)
  /\ (isdir = true -> csvs <> [] ->
      exists pre name post,
        csvs = (pre ++ name :: post)%list
        /\ Latest._find_latest_csv path_join getmtime isdir listdir data_dir
           = Some (path_join data_dir name)
        /\ Forall (fun other => getmtime (path_join data_dir other)
                                < getmtime (path_join data_dir name)) pre
        /\ Forall (fun other => getmtime (path_join data_dir other)
                                <= getmtime (path_join data_dir name)) post).
Proof.
  intros csvs. unfold Latest._find_latest_csv, Latest.candidates. fold csvs.
  split.
  - intros [-> | ->]; [reflexivity |]. now destruct isdir.
  - intros -> Hne. cbn [negb].
    destruct (sort_head getmtime (map (path_join data_dir) csvs))
      as (pre & p & post & E & Hhd & Hpre & Hpost).
    { destruct csvs; [congruence | discriminate]. }
    apply map_eq_app in E as (pre0 & rest0 & Ecsv & Epre & Erest).
    apply map_eq_cons in Erest as (name & post0 & -> & Ep & Epost).
    subst pre p post.
    exists pre0, name, post0. split; [exact Ecsv |]. split.
    + destruct (map (path_join data_dir) csvs) eqn:Em; [| exact Hhd].
      destruct csvs; [congruence | discriminate].
    + rewrite Forall_forall in Hpre, Hpost.
      split; apply Forall_forall; intros other Hin;
        [apply Hpre | apply Hpost]; now apply in_map.
Qed.

(** Three trajectory files, the two latest of the same time. *)
Lemma find_latest_csv_is_latest_witness :
  let getmtime := fun p : string =>
                    if String.eqb p "data/a.csv" then 10
                    else if String.eqb p "data/B.CSV" then 30
                    else if String.eqb p "data/c.csv" then 30
                    else 99 in
  (true = true
   /\ filter (fun name => Text.endswith (Text.lower name) ".csv")
        ["a.csv"; "notes.txt"; "B.CSV"; "c.csv"] <> [])
  /\ Latest._find_latest_csv (fun d f => d ++ "/" ++ f) getmtime true
       ["a.csv"; "notes.txt"; "B.CSV"; "c.csv"] "data"
     = Some "data/B.CSV"
  /\ exists pre name post,
       filter (fun name => Text.endswith (Text.lower name) ".csv")
         ["a.csv"; "notes.txt"; "B.CSV"; "c.csv"]
       = (pre ++ name :: post)%list
       /\ Latest._find_latest_csv (fun d f => d ++ "/" ++ f) getmtime true
            ["a.csv"; "notes.txt"; "B.CSV"; "c.csv"] "data"
          = Some ("data" ++ "/" ++ name).
Proof.
  intros getmtime.
  assert (Hne : filter (fun name => Text.endswith (Text.lower name) ".csv")
                  ["a.csv"; "notes.txt"; "B.CSV"; "c.csv"] <> [])
    by discriminate.
  split; [split; [reflexivity | exact Hne] |]. split; [reflexivity |].
  destruct (proj2 (find_latest_csv_is_latest (fun d f => d ++ "/" ++ f) getmtime
                     true ["a.csv"; "notes.txt"; "B.CSV"; "c.csv"] "data")
              eq_refl Hne)
    as (pre & name & post & E & Hres & _).
  exists pre, name, post. split; [exact E | exact Hres].
Defined.

(* ================================================================== *)
(** * Further properties: the gripper buttons behind a connect *)
(* ================================================================== *)

Section AfterCreate.

Import Epick.
Variable dashboard : list DashCall -> DashCall -> string.





End AfterCreate.


